(** * BlockStore: client-side encryption, key splitting and Merkle proofs

    A shallow embedding of the cryptographic core of the BlockStore
    dashboard: [lib/encryption.ts] (single-layer AES-GCM file encryption)
    and [lib/audit.ts] (multi-layer encryption, Shamir-style key
    splitting, Merkle tree generation and verification).

    Conventions.
    - A JavaScript string is the list of its UTF-16 code units ([jsstring]).
    - A [Uint8Array] / [ArrayBuffer] is a [list byte].
    - A JavaScript [number] that is only ever an array length or a loop
      counter is a [nat] or a [Z]; a [number] that carries the result of
      floating-point arithmetic is an IEEE-754 binary64 value ([double]).
    - Browser built-ins ([TextEncoder], [btoa], [Number.parseInt], ...)
      are modelled after their standards; WebCrypto, SHA-256, the random
      source and the number <-> string conversions are parameters. *)

From Stdlib Require Import Strings.Ascii Strings.String Strings.Byte.
From Stdlib Require Import List NArith ZArith Lia Bool.
From Stdlib Require Import Floats.SpecFloat.
Import ListNotations.

Local Open Scope N_scope.

(* ================================================================= *)
(** ** JavaScript strings and byte buffers *)

Definition jsstring := list N.

(** [js "abc"] is the JavaScript string literal with the same characters. *)
Definition js (s : string) : jsstring :=
  map N_of_ascii (list_ascii_of_string s).

Definition jsstring_eqb (a b : jsstring) : bool :=
  if list_eq_dec N.eq_dec a b then true else false.

(** Storing a number into a [Uint8Array] keeps it modulo 256. *)
Definition u8 (n : N) : byte :=
  match Byte.of_N (n mod 256) with
  | Some b => b
  | None => x00
  end.

(** [String.fromCharCode(b)] for each element [b] of a byte array, joined. *)
Definition fromCharCodes (bs : list byte) : jsstring := map Byte.to_N bs.

(* ----------------------------------------------------------------- *)
(** *** [Number.prototype.toString(16)] and [String.prototype.padStart] *)

Definition hexdigit (d : N) : N :=
  if d <? 10 then 48 + d else 87 + d.

Fixpoint toString16_aux (fuel : nat) (n : N) : jsstring :=
  match fuel with
  | O => []
  | S f =>
      if n <? 16 then [hexdigit n]
      else toString16_aux f (n / 16) ++ [hexdigit (n mod 16)]
  end.

(** [n.toString(16)] for a non-negative integer [n]. *)
Definition toString16 (n : N) : jsstring :=
  toString16_aux (S (N.size_nat n)) n.

(** [s.padStart(target, pad)]. *)
Definition padStart (target : nat) (pad s : jsstring) : jsstring :=
  let k := (target - length s)%nat in
  match pad with
  | [] => s
  | _ => firstn k (concat (repeat pad k)) ++ s
  end.

(** [b.toString(16).padStart(2, "0")] *)
Definition hex2 (b : byte) : jsstring :=
  padStart 2 (js "0") (toString16 (Byte.to_N b)).

(** [Array.from(buf).map((b) => b.toString(16).padStart(2, "0")).join("")] *)
Definition toHex (buf : list byte) : jsstring :=
  concat (map hex2 buf).

(* ----------------------------------------------------------------- *)
(** *** [TextEncoder.prototype.encode] (UTF-8, WHATWG Encoding) *)

Definition is_high_surrogate (c : N) : bool := (0xD800 <=? c) && (c <=? 0xDBFF).
Definition is_low_surrogate (c : N) : bool := (0xDC00 <=? c) && (c <=? 0xDFFF).

(** The UTF-8 bytes of one scalar value. *)
Definition utf8_bytes (cp : N) : list byte :=
  if cp <? 0x80 then [u8 cp]
  else if cp <? 0x800 then
    [u8 (0xC0 + cp / 64); u8 (0x80 + cp mod 64)]
  else if cp <? 0x10000 then
    [u8 (0xE0 + cp / 4096); u8 (0x80 + (cp / 64) mod 64); u8 (0x80 + cp mod 64)]
  else
    [u8 (0xF0 + cp / 262144); u8 (0x80 + (cp / 4096) mod 64);
     u8 (0x80 + (cp / 64) mod 64); u8 (0x80 + cp mod 64)].

(** Code units are paired into scalar values; a lone surrogate becomes
    U+FFFD. *)
Fixpoint TextEncoder_encode (s : jsstring) : list byte :=
  match s with
  | [] => []
  | c :: rest =>
      if is_high_surrogate c then
        match rest with
        | d :: rest' =>
            if is_low_surrogate d then
              utf8_bytes (0x10000 + (c - 0xD800) * 1024 + (d - 0xDC00))
                ++ TextEncoder_encode rest'
            else utf8_bytes 0xFFFD ++ TextEncoder_encode rest
        | [] => utf8_bytes 0xFFFD
        end
      else if is_low_surrogate c then utf8_bytes 0xFFFD ++ TextEncoder_encode rest
      else utf8_bytes c ++ TextEncoder_encode rest
  end.

(* ================================================================= *)
(** ** Merkle integrity engine ([lib/audit.ts]) *)

Module Merkle.

(** [hashBuffer[i] = chunk[i] ^ 0x42] *)
Definition xor42 (b : byte) : byte := u8 (N.lxor (Byte.to_N b) 0x42).

(** The leaf "hash": every byte xor-ed with 0x42, rendered in hex. *)
Definition leafHash (chunk : list byte) : jsstring :=
  let hashBuffer := map xor42 chunk in
  toHex hashBuffer.

(** The pair "hash": the hex rendering of the UTF-8 bytes of the
    concatenation. *)
Definition combine (left right : jsstring) : jsstring :=
  let combined := left ++ right in
  toHex (TextEncoder_encode combined).

(** One pass of the inner [for (i = 0; i < level.length; i += 2)] loop. *)
Fixpoint nextLevel (level : list jsstring) : list jsstring :=
  match level with
  | a :: b :: rest => combine a b :: nextLevel rest
  | [a] => [a]
  | [] => []
  end.

(** The [while (level.length > 1)] loop; [tree] is kept root level first,
    as [tree.unshift(level)] does. *)
Fixpoint buildTree (fuel : nat) (level : list jsstring)
    (tree : list (list jsstring)) : option (list (list jsstring)) :=
  if (length level <=? 1)%nat then Some tree
  else match fuel with
       | O => None
       | S f => let next := nextLevel level in buildTree f next (next :: tree)
       end.

(** The walk [for (j = tree.length - 1; j > 0; j--)] of one proof, over the
    levels from the leaves upwards, the root level excluded. *)
Fixpoint proofWalk (levels : list (list jsstring)) (index : nat) : list jsstring :=
  match levels with
  | [] => []
  | lv :: upper =>
      let isRight := Nat.even index in
      let siblingIndex := if isRight then (index + 1)%nat else (index - 1)%nat in
      (if (siblingIndex <? length lv)%nat then [nth siblingIndex lv []] else [])
        ++ proofWalk upper (index / 2)%nat
  end.

Record MerkleResult := { root : option jsstring; proofs : list (list jsstring) }.

(** [generateMerkleTree(chunks)]; [None] when the loop has not finished
    within the fuel, which [generateMerkleTree_total] excludes.  [root] is
    [tree[0][0]], [undefined] ([None]) for an empty chunk list. *)
Definition generateMerkleTree (chunks : list (list byte)) : option MerkleResult :=
  let leaves := map leafHash chunks in
  match buildTree (length leaves) leaves [leaves] with
  | None => None
  | Some tree =>
      let walk := rev (tl tree) in
      Some {| root := nth_error (hd [] tree) 0;
              proofs := map (proofWalk walk) (seq 0 (length leaves)) |}
  end.

(** [verifyMerkleProof(chunk, proof, root)] *)
Definition verifyMerkleProof (chunk : list byte) (proof : list jsstring)
    (root : jsstring) : bool :=
  let hash := fold_left (fun hash sibling => combine hash sibling) proof (leafHash chunk) in
  jsstring_eqb hash root.

End Merkle.

(* ================================================================= *)
(** ** [TextDecoder.prototype.decode] (UTF-8, WHATWG Encoding) *)

Record Utf8Pending := {
  code_point : N;      (* bits collected so far *)
  remaining : nat;     (* continuation bytes still needed *)
  lower : N;           (* accepted range of the next byte *)
  upper : N }.

Inductive Utf8Lead := Emit (cp : N) | Wait (p : Utf8Pending).

(** The decoder on a byte met with no sequence pending. *)
Definition utf8_lead (b : N) : Utf8Lead :=
  if b <=? 0x7F then Emit b
  else if (0xC2 <=? b) && (b <=? 0xDF) then
    Wait {| code_point := b mod 32; remaining := 1; lower := 0x80; upper := 0xBF |}
  else if (0xE0 <=? b) && (b <=? 0xEF) then
    Wait {| code_point := b mod 16; remaining := 2;
            lower := if b =? 0xE0 then 0xA0 else 0x80;
            upper := if b =? 0xED then 0x9F else 0xBF |}
  else if (0xF0 <=? b) && (b <=? 0xF4) then
    Wait {| code_point := b mod 8; remaining := 3;
            lower := if b =? 0xF0 then 0x90 else 0x80;
            upper := if b =? 0xF4 then 0x8F else 0xBF |}
  else Emit 0xFFFD.

(** The decoder loop; a byte that breaks a pending sequence yields U+FFFD
    and is then decoded again as a lead byte. *)
Fixpoint utf8_run (bs : list byte) (st : option Utf8Pending) : list N :=
  match bs with
  | [] => match st with None => [] | Some _ => [0xFFFD] end
  | b :: rest =>
      let n := Byte.to_N b in
      let fresh :=
        match utf8_lead n with
        | Emit c => c :: utf8_run rest None
        | Wait p => utf8_run rest (Some p)
        end in
      match st with
      | None => fresh
      | Some p =>
          if (lower p <=? n) && (n <=? upper p) then
            let cp := code_point p * 64 + n mod 64 in
            match remaining p with
            | S (S r) =>
                utf8_run rest (Some {| code_point := cp; remaining := S r;
                                       lower := 0x80; upper := 0xBF |})
            | _ => cp :: utf8_run rest None
            end
          else 0xFFFD :: fresh
      end
  end.

(** The UTF-16 code units of one scalar value. *)
Definition utf16_units (cp : N) : jsstring :=
  if cp <? 0x10000 then [cp]
  else [0xD800 + (cp - 0x10000) / 1024; 0xDC00 + (cp - 0x10000) mod 1024].

(** [new TextDecoder().decode(bytes)]: a leading byte order mark is dropped. *)
Definition TextDecoder_decode (bs : list byte) : jsstring :=
  let body :=
    match bs with
    | b1 :: b2 :: b3 :: rest =>
        if (Byte.to_N b1 =? 0xEF) && (Byte.to_N b2 =? 0xBB) && (Byte.to_N b3 =? 0xBF)
        then rest else bs
    | _ => bs
    end in
  flat_map utf16_units (utf8_run body None).

(* ================================================================= *)
(** ** JavaScript numbers: IEEE-754 binary64 *)

Definition double := spec_float.
Definition prec : Z := 53.
Definition emax : Z := 1024.

Definition fadd : double -> double -> double := SFadd prec emax.
Definition fsub : double -> double -> double := SFsub prec emax.
Definition fmul : double -> double -> double := SFmul prec emax.
Definition fdiv : double -> double -> double := SFdiv prec emax.
Definition NaN : double := S754_nan.

(** The number nearest to an integer. *)
Definition double_of_Z (z : Z) : double := binary_normalize prec emax z 0 false.

(** [Math.pow(b, n)] for a non-negative integer exponent.  ECMAScript leaves
    the accuracy of [Math.pow] to the implementation; repeated
    multiplication is exact whenever the power is representable, which
    holds for the powers of 256 and the small powers of the share indices
    the key splitter computes. *)
Fixpoint Math_pow (b : double) (n : nat) : double :=
  match n with
  | O => double_of_Z 1
  | S k => fmul (Math_pow b k) b
  end.

(** The outcome of [Math.round]: never fractional. *)
Inductive Rounded := RoundNaN | RoundInf (negative : bool) | RoundInt (z : Z).

(** [Math.round(d)]: the integer nearest to [d], ties towards +infinity. *)
Definition Math_round (d : double) : Rounded :=
  match d with
  | S754_nan => RoundNaN
  | S754_infinity s => RoundInf s
  | S754_zero _ => RoundInt 0
  | S754_finite s m e =>
      let v := if s then Zneg m else Zpos m in
      if (0 <=? e)%Z then RoundInt (v * 2 ^ e)
      else RoundInt ((2 * v + 2 ^ (- e)) / 2 ^ (1 - e))
  end.

(** The integer value of a number that is a "safe" integer
    (integer-valued and of magnitude at most 2^53). *)
Definition safe_integer (d : double) : option Z :=
  match d with
  | S754_zero _ => Some 0%Z
  | S754_finite s m e =>
      if (0 <=? e)%Z then
        let v := ((if s then Zneg m else Zpos m) * 2 ^ e)%Z in
        if (Z.abs v <=? 2 ^ 53)%Z then Some v else None
      else if (Zpos m mod 2 ^ (- e) =? 0)%Z then
        Some ((if s then Zneg m else Zpos m) / 2 ^ (- e))%Z
      else None
  | _ => None
  end.

(** Decimal digits of a non-negative integer, most significant first. *)
Fixpoint decimal_aux (fuel : nat) (n : N) : jsstring :=
  match fuel with
  | O => []
  | S f => if n <? 10 then [48 + n] else decimal_aux f (n / 10) ++ [48 + n mod 10]
  end.

Definition decimal (n : N) : jsstring := decimal_aux (S (N.size_nat n)) n.

Definition decimalZ (z : Z) : jsstring :=
  match z with
  | Zneg p => js "-" ++ decimal (Npos p)
  | _ => decimal (Z.to_N z)
  end.

(* ================================================================= *)
(** ** Exceptions, the browser platform and the effect monad *)

(** Errors raised by the engine or the platform rather than by a [throw]
    of the source; their [message] text is implementation-defined. *)
Inductive EngineError :=
| NullDereference            (* TypeError: property read on null/undefined *)
| NotAFunction               (* TypeError: call of a missing method *)
| InvalidCharacterError      (* DOMException of [atob] / [btoa] *)
| JSONSyntaxError            (* SyntaxError of [JSON.parse] *)
| DataError                  (* DOMException of [importKey] *)
| OperationError             (* DOMException of [encrypt] / [decrypt] *)
| OtherPlatformError (name : jsstring).

Inductive exn :=
| Error (message : jsstring)     (* [new Error(message)] of the source *)
| Engine (e : EngineError).

Inductive Result (A : Type) :=
| Ok (a : A)
| Throw (e : exn)
| Diverges.                      (* the call never returns *)
Arguments Ok {A} a.
Arguments Throw {A} e.
Arguments Diverges {A}.

Inductive KeyUsage := UseEncrypt | UseDecrypt.

(** The values [JSON.parse] can return. *)
#[local] Unset Elimination Schemes.
Inductive JSONValue :=
| JNull
| JBool (b : bool)
| JNumber (d : double)
| JString (s : jsstring)
| JArray (items : list JSONValue)
| JObject (fields : list (jsstring * JSONValue)).
#[local] Set Elimination Schemes.

(** What the source takes from the browser and does not define itself. *)
Class Platform := {
  (** the stream behind [crypto.getRandomValues] *)
  entropy : nat -> byte;
  (** [crypto.subtle.importKey("raw", raw, {name, length: 128}, false, [usage])] *)
  CryptoKey : Type;
  subtle_importKey : jsstring -> list byte -> KeyUsage -> Result CryptoKey;
  (** [crypto.subtle.encrypt({name, iv, tagLength: 128}, key, data)] *)
  subtle_encrypt : jsstring -> list byte -> CryptoKey -> list byte -> Result (list byte);
  (** [crypto.subtle.decrypt({name, iv, tagLength: 128}, key, data)] *)
  subtle_decrypt : jsstring -> list byte -> CryptoKey -> list byte -> Result (list byte);
  (** [crypto.subtle.digest(name, data)] *)
  subtle_digest : jsstring -> list byte -> Result (list byte);
  (** [JSON.parse(text)] *)
  JSON_parse : jsstring -> Result JSONValue;
  (** [String(d)] for a number that is not a safe integer *)
  float_toString : double -> jsstring;
  (** [Number(s)] *)
  StringToNumber : jsstring -> double;
  (** [uuidv4()] rendered from 16 random bytes *)
  uuid_format : list byte -> jsstring;
  (** [new Date(ms).toISOString()] *)
  toISOString : Z -> jsstring;
  (** [error.message] of an engine error *)
  engine_message : EngineError -> jsstring
}.

Inductive Call :=
| CallGetRandomValues (n : nat)
| CallImportKey
| CallEncrypt
| CallDecrypt
| CallDigest
| CallConsoleError.

(** The state a call can change: how much entropy has been drawn, the
    clock, and the platform calls made so far (latest last). *)
Record World := {
  cursor : nat;
  now : Z;
  calls : list Call }.

Definition M (A : Type) : Type := World -> Result A * World.

Definition ret {A} (a : A) : M A := fun w => (Ok a, w).

Definition bind {A B} (m : M A) (k : A -> M B) : M B :=
  fun w =>
    match m w with
    | (Ok a, w') => k a w'
    | (Throw e, w') => (Throw e, w')
    | (Diverges, w') => (Diverges, w')
    end.

Definition throw {A} (e : exn) : M A := fun w => (Throw e, w).

(** [try { body } catch (error) { handler(error) }] *)
Definition try_catch {A} (body : M A) (handler : exn -> M A) : M A :=
  fun w =>
    match body w with
    | (Throw e, w') => handler e w'
    | r => r
    end.

Definition lift {A} (r : Result A) : M A := fun w => (r, w).

(** The world after one more platform call. *)
Definition logged (c : Call) (w : World) : World :=
  {| cursor := cursor w; now := now w; calls := calls w ++ [c] |}.

Definition record (c : Call) : M unit :=
  fun w => (Ok tt, logged c w).

Declare Scope effect_scope.
Delimit Scope effect_scope with effect.
Notation "x <- m ;; k" := (bind m (fun x => k))
  (at level 61, m at next level, right associativity) : effect_scope.
Notation "m ;;; k" := (bind m (fun _ => k))
  (at level 61, right associativity) : effect_scope.
Local Open Scope effect_scope.

Section Browser.
Context {P : Platform}.

(** [crypto.getRandomValues(new Uint8Array(n))] *)
Definition getRandomValues (n : nat) : M (list byte) :=
  fun w =>
    (Ok (map entropy (seq (cursor w) n)),
     logged (CallGetRandomValues n)
       {| cursor := cursor w + n; now := now w; calls := calls w |}).

Definition importKey (name : jsstring) (raw : list byte) (u : KeyUsage) : M CryptoKey :=
  record CallImportKey ;;; lift (subtle_importKey name raw u).

Definition encrypt (name : jsstring) (iv : list byte) (k : CryptoKey)
    (data : list byte) : M (list byte) :=
  record CallEncrypt ;;; lift (subtle_encrypt name iv k data).

Definition decrypt (name : jsstring) (iv : list byte) (k : CryptoKey)
    (data : list byte) : M (list byte) :=
  record CallDecrypt ;;; lift (subtle_decrypt name iv k data).

Definition digest (name : jsstring) (data : list byte) : M (list byte) :=
  record CallDigest ;;; lift (subtle_digest name data).

Definition console_error : M unit := record CallConsoleError.

(** [String(d)] / a number inside a template literal. *)
Definition Number_toString (d : double) : jsstring :=
  match safe_integer d with
  | Some z => decimalZ z
  | None => float_toString d
  end.

(** [error instanceof Error ? error.message : String(error)] *)
Definition message_of (e : exn) : jsstring :=
  match e with
  | Error m => m
  | Engine err => engine_message err
  end.

End Browser.

(* ================================================================= *)
(** ** Secret splitter / combiner ([lib/audit.ts]) *)

Module Shamir.
Section Shamir.
Context {P : Platform}.

(** [reduce((acc, byte, i) => acc + byte * Math.pow(256, i), 0)] *)
Fixpoint secretValue_from (i : nat) (acc : double) (bytes : list byte) : double :=
  match bytes with
  | [] => acc
  | b :: rest =>
      secretValue_from (S i)
        (fadd acc (fmul (double_of_Z (Z.of_N (Byte.to_N b)))
                        (Math_pow (double_of_Z 256) i)))
        rest
  end.

Definition secretValue (secret : jsstring) : double :=
  secretValue_from 0 (double_of_Z 0) (TextEncoder_encode secret).

(** [new DataView(randomValue.buffer).getUint32(0)]: big-endian. *)
Definition getUint32 (bs : list byte) : Z :=
  fold_left (fun acc b => (acc * 256 + Z.of_N (Byte.to_N b))%Z) (firstn 4 bs) 0%Z.

(** The loop [for (i = 1; i < threshold; i++)] drawing the coefficients. *)
Fixpoint drawCoefficients (n : nat) : M (list double) :=
  match n with
  | O => ret []
  | S k =>
      randomValue <- getRandomValues 4 ;;
      let coefficient := double_of_Z (getUint32 randomValue) in
      rest <- drawCoefficients k ;;
      ret (coefficient :: rest)
  end.

(** [y = 0; for (i ...) y += coefficients[i] * Math.pow(x, i)] *)
Fixpoint evalPolynomial_from (i : nat) (y x : double) (coefficients : list double) : double :=
  match coefficients with
  | [] => y
  | c :: rest => evalPolynomial_from (S i) (fadd y (fmul c (Math_pow x i))) x rest
  end.

Definition formatShare (x y : double) : jsstring :=
  Number_toString x ++ js ":" ++ Number_toString y.

(** [splitKey(secret, numShares, threshold)] *)
Definition splitKey (secret : jsstring) (numShares threshold : Z) : M (list jsstring) :=
  let secretValue := secretValue secret in
  randoms <- drawCoefficients (Z.to_nat (threshold - 1)) ;;
  let coefficients := secretValue :: randoms in
  ret (map (fun x : nat =>
              let x := double_of_Z (Z.of_nat x) in
              formatShare x (evalPolynomial_from 0 (double_of_Z 0) x coefficients))
           (seq 1 (Z.to_nat numShares))).

(** [s.split(sep)] for a one-character separator. *)
Fixpoint split_on (sep : N) (s : jsstring) : list jsstring :=
  match s with
  | [] => [[]]
  | c :: rest =>
      if c =? sep then [] :: split_on sep rest
      else match split_on sep rest with
           | [] => [[c]]
           | first :: others => (c :: first) :: others
           end
  end.

Record Point := { px : double; py : double }.

(** [const [x, y] = share.split(":").map(Number)]; a missing part is
    [undefined], which arithmetic turns into [NaN]. *)
Definition parseShare (share : jsstring) : Point :=
  let parts := map StringToNumber (split_on 58 share) in
  {| px := nth 0 parts NaN; py := nth 1 parts NaN |}.

(** [points[i]], a [TypeError] on the property read if the index is out of
    range. *)
Definition point_at (points : list Point) (i : nat) : Result Point :=
  match nth_error points i with
  | Some p => Ok p
  | None => Throw (Engine NullDereference)
  end.

(** The inner loop [for (j = 0; j < threshold; j++)] from index [j] on,
    [n] iterations left. *)
Fixpoint lagrangeTerm (points : list Point) (pi : Point) (i j n : nat)
    (term : double) : Result double :=
  match n with
  | O => Ok term
  | S k =>
      if Nat.eqb i j then lagrangeTerm points pi i (S j) k term
      else match point_at points j with
           | Ok pj =>
               lagrangeTerm points pi i (S j) k
                 (fmul term (fdiv (px pj) (fsub (px pj) (px pi))))
           | Throw e => Throw e
           | Diverges => Diverges
           end
  end.

(** The outer loop [for (i = 0; i < threshold; i++)] from index [i] on. *)
Fixpoint interpolate (points : list Point) (threshold i n : nat)
    (secret : double) : Result double :=
  match n with
  | O => Ok secret
  | S k =>
      match point_at points i with
      | Ok pi =>
          match lagrangeTerm points pi i 0 threshold (py pi) with
          | Ok term => interpolate points threshold (S i) k (fadd secret term)
          | Throw e => Throw e
          | Diverges => Diverges
          end
      | Throw e => Throw e
      | Diverges => Diverges
      end
  end.

(** [while (tempSecret > 0) { push(tempSecret % 256); tempSecret =
    Math.floor(tempSecret / 256) }] on a positive integer; both operations
    are exact on an integer-valued number. *)
Fixpoint secretBytes_loop (fuel : nat) (tempSecret : Z) : option (list byte) :=
  if (0 <? tempSecret)%Z then
    match fuel with
    | O => None
    | S f =>
        option_map (cons (u8 (Z.to_N (tempSecret mod 256))))
                   (secretBytes_loop f (tempSecret / 256))
    end
  else Some [].

(** The little-endian bytes of the rounded secret.  [+Infinity] stays
    positive under [Math.floor(tempSecret / 256)], so the loop pushes one
    more element at every turn and is left only by [push] itself, which
    throws a [RangeError] when the array's length would reach 2^32
    (ECMA-262, ArraySetLength). *)
Definition secretBytes (r : Rounded) : Result (list byte) :=
  match r with
  | RoundNaN => Ok []
  | RoundInf true => Ok []
  | RoundInf false => Throw (Engine (OtherPlatformError (js "RangeError")))
  | RoundInt z =>
      match secretBytes_loop (S (Z.to_nat (Z.log2 z))) z with
      | Some bs => Ok bs
      | None => Diverges
      end
  end.

Definition notEnoughShares (threshold : Z) (got : nat) : jsstring :=
  js "Not enough shares. Need at least " ++ Number_toString (double_of_Z threshold)
    ++ js ", but got " ++ Number_toString (double_of_Z (Z.of_nat got)).

(** [combineShares(shares, threshold)] *)
Definition combineShares (shares : list jsstring) (threshold : Z) : Result jsstring :=
  if (Z.of_nat (length shares) <? threshold)%Z then
    Throw (Error (notEnoughShares threshold (length shares)))
  else
    let points := map parseShare shares in
    let t := Z.to_nat threshold in
    match interpolate points t 0 t (double_of_Z 0) with
    | Ok secret =>
        match secretBytes (Math_round secret) with
        | Ok bytes => Ok (TextDecoder_decode bytes)
        | Throw e => Throw e
        | Diverges => Diverges
        end
    | Throw e => Throw e
    | Diverges => Diverges
    end.

End Shamir.
End Shamir.

(* ================================================================= *)
(** ** Key & IV utilities: hex keys and base64 *)

(** Line terminators: the characters [.] does not match. *)
Definition is_line_terminator (c : N) : bool :=
  (c =? 0x0A) || (c =? 0x0D) || (c =? 0x2028) || (c =? 0x2029).

(** [s.match(/.{1,2}/g)] as a list of chunks, empty when nothing matches. *)
Fixpoint chunk_pairs (s : jsstring) : list jsstring :=
  match s with
  | [] => []
  | c :: rest =>
      if is_line_terminator c then chunk_pairs rest
      else match rest with
           | [] => [[c]]
           | d :: rest' =>
               if is_line_terminator d then [c] :: chunk_pairs rest'
               else [c; d] :: chunk_pairs rest'
           end
  end.

(** [s.match(/.{1,2}/g)]: [null] ([None]) when nothing matches. *)
Definition match_pairs (s : jsstring) : option (list jsstring) :=
  match chunk_pairs s with
  | [] => None
  | chunks => Some chunks
  end.

(** White space skipped by [parseInt] (StrWhiteSpaceChar). *)
Definition is_white_space (c : N) : bool :=
  ((0x09 <=? c) && (c <=? 0x0D)) || (c =? 0x20) || (c =? 0xA0) || (c =? 0x1680)
  || ((0x2000 <=? c) && (c <=? 0x200A)) || (c =? 0x2028) || (c =? 0x2029)
  || (c =? 0x202F) || (c =? 0x205F) || (c =? 0x3000) || (c =? 0xFEFF).

Fixpoint skip_white_space (s : jsstring) : jsstring :=
  match s with
  | c :: rest => if is_white_space c then skip_white_space rest else s
  | [] => []
  end.

(** The value of a hexadecimal digit, either case. *)
Definition hex_value (c : N) : option N :=
  if (48 <=? c) && (c <=? 57) then Some (c - 48)
  else if (97 <=? c) && (c <=? 102) then Some (c - 87)
  else if (65 <=? c) && (c <=? 70) then Some (c - 55)
  else None.

(** The value of the longest prefix of hex digits, with the number of
    digits read. *)
Fixpoint hex_prefix (s : jsstring) (acc : N) (digits : nat) : N * nat :=
  match s with
  | c :: rest =>
      match hex_value c with
      | Some v => hex_prefix rest (acc * 16 + v) (S digits)
      | None => (acc, digits)
      end
  | [] => (acc, digits)
  end.

(** [Number.parseInt(s, 16)]: [None] is [NaN].  The value is exact for the
    chunks of at most two characters it is applied to. *)
Definition parseInt16 (s : jsstring) : option Z :=
  let s := skip_white_space s in
  let '(negative, s) :=
    match s with
    | 45 :: rest => (true, rest)
    | 43 :: rest => (false, rest)
    | _ => (false, s)
    end in
  let s :=
    match s with
    | 48 :: 120 :: rest => rest
    | 48 :: 88 :: rest => rest
    | _ => s
    end in
  match hex_prefix s 0 0 with
  | (_, O) => None
  | (v, _) => Some (if negative then (- Z.of_N v)%Z else Z.of_N v)
  end.

(** An element written into a [Uint8Array]: [NaN] becomes 0, an integer is
    taken modulo 256. *)
Definition toUint8 (v : option Z) : byte :=
  match v with
  | None => x00
  | Some z => u8 (Z.to_N (z mod 256))
  end.

(** [new Uint8Array(key.match(/.{1,2}/g)!.map((byte) => Number.parseInt(byte, 16)))] *)
Definition hexToBytes (key : jsstring) : Result (list byte) :=
  match match_pairs key with
  | None => Throw (Engine NullDereference)
  | Some chunks => Ok (map (fun chunk => toUint8 (parseInt16 chunk)) chunks)
  end.

(** A hexadecimal digit as [[0-9a-f]] matches it under the [i] flag. *)
Definition is_hex_digit (c : N) : bool :=
  match hex_value c with Some _ => true | None => false end.

(** [/^[0-9a-f]{n}$/i.test(s)] *)
Definition test_hex (n : nat) (s : jsstring) : bool :=
  Nat.eqb (length s) n && forallb is_hex_digit s.

(* ----------------------------------------------------------------- *)
(** *** [btoa] and [atob] (forgiving base64, WHATWG Infra) *)

Definition base64_char (i : N) : N :=
  if i <? 26 then 65 + i
  else if i <? 52 then 97 + (i - 26)
  else if i <? 62 then 48 + (i - 52)
  else if i =? 62 then 43
  else 47.

Definition base64_index (c : N) : option N :=
  if (65 <=? c) && (c <=? 90) then Some (c - 65)
  else if (97 <=? c) && (c <=? 122) then Some (c - 97 + 26)
  else if (48 <=? c) && (c <=? 57) then Some (c - 48 + 52)
  else if c =? 43 then Some 62
  else if c =? 47 then Some 63
  else None.

Fixpoint base64_encode (s : list N) : jsstring :=
  match s with
  | a :: b :: c :: rest =>
      base64_char (a / 4) :: base64_char ((a mod 4) * 16 + b / 16)
        :: base64_char ((b mod 16) * 4 + c / 64) :: base64_char (c mod 64)
        :: base64_encode rest
  | [a; b] =>
      [base64_char (a / 4); base64_char ((a mod 4) * 16 + b / 16);
       base64_char ((b mod 16) * 4); 61]
  | [a] => [base64_char (a / 4); base64_char ((a mod 4) * 16); 61; 61]
  | [] => []
  end.

(** [btoa(s)]: fails on a code unit above 255. *)
Definition btoa (s : jsstring) : Result jsstring :=
  if forallb (fun c => c <=? 255) s then Ok (base64_encode s)
  else Throw (Engine InvalidCharacterError).

Definition is_ascii_whitespace (c : N) : bool :=
  (c =? 0x09) || (c =? 0x0A) || (c =? 0x0C) || (c =? 0x0D) || (c =? 0x20).

(** One or two trailing [=] are dropped. *)
Definition strip_padding (s : jsstring) : jsstring :=
  match rev s with
  | c1 :: r1 =>
      if c1 =? 61 then
        match r1 with
        | c2 :: r2 => if c2 =? 61 then rev r2 else rev r1
        | [] => rev r1
        end
      else s
  | [] => s
  end.

Fixpoint base64_indices (s : jsstring) : option (list N) :=
  match s with
  | [] => Some []
  | c :: rest =>
      match base64_index c, base64_indices rest with
      | Some i, Some others => Some (i :: others)
      | _, _ => None
      end
  end.

(** Groups of four sextets give three bytes; the bits left over in a final
    group of two or three are dropped. *)
Fixpoint base64_decode (sextets : list N) : list N :=
  match sextets with
  | a :: b :: c :: d :: rest =>
      (a * 4 + b / 16) :: ((b mod 16) * 16 + c / 4) :: ((c mod 4) * 64 + d)
        :: base64_decode rest
  | [a; b; c] => [a * 4 + b / 16; (b mod 16) * 16 + c / 4]
  | [a; b] => [a * 4 + b / 16]
  | _ => []
  end.

(** [atob(s)] *)
Definition atob (s : jsstring) : Result jsstring :=
  let data := filter (fun c => negb (is_ascii_whitespace c)) s in
  let data := if Nat.eqb (length data mod 4) 0 then strip_padding data else data in
  if Nat.eqb (length data mod 4) 1 then Throw (Engine InvalidCharacterError)
  else match base64_indices data with
       | None => Throw (Engine InvalidCharacterError)
       | Some sextets => Ok (base64_decode sextets)
       end.

(** [s.charCodeAt(i)] of every position, written into a [Uint8Array]. *)
Definition charCodes (s : jsstring) : list byte := map u8 s.

(* ----------------------------------------------------------------- *)
(** *** [JSON.stringify] of an array of strings *)

Definition hex4 (c : N) : jsstring :=
  padStart 4 (js "0") (toString16 c).

(** QuoteJSONString, one code unit at a time; a surrogate is kept only as
    part of a pair. *)
Fixpoint json_quote_body (s : jsstring) : jsstring :=
  match s with
  | [] => []
  | c :: rest =>
      if c =? 0x08 then js "\b" ++ json_quote_body rest
      else if c =? 0x09 then js "\t" ++ json_quote_body rest
      else if c =? 0x0A then js "\n" ++ json_quote_body rest
      else if c =? 0x0C then js "\f" ++ json_quote_body rest
      else if c =? 0x0D then js "\r" ++ json_quote_body rest
      else if c =? 0x22 then [0x5C; 0x22] ++ json_quote_body rest
      else if c =? 0x5C then [0x5C; 0x5C] ++ json_quote_body rest
      else if c <? 0x20 then js "\u" ++ hex4 c ++ json_quote_body rest
      else if is_high_surrogate c then
        match rest with
        | d :: rest' =>
            if is_low_surrogate d then c :: d :: json_quote_body rest'
            else js "\u" ++ hex4 c ++ json_quote_body rest
        | [] => js "\u" ++ hex4 c
        end
      else if is_low_surrogate c then js "\u" ++ hex4 c ++ json_quote_body rest
      else c :: json_quote_body rest
  end.

Definition json_quote (s : jsstring) : jsstring :=
  [0x22] ++ json_quote_body s ++ [0x22].

Fixpoint join (sep : jsstring) (parts : list jsstring) : jsstring :=
  match parts with
  | [] => []
  | [p] => p
  | p :: rest => p ++ sep ++ join sep rest
  end.

(** [JSON.stringify(strings)] *)
Definition JSON_stringify (strings : list jsstring) : jsstring :=
  js "[" ++ join (js ",") (map json_quote strings) ++ js "]".

(** What the round-trip results need from the browser: AES-GCM decrypts
    what it encrypted under a 128-bit key and a 96-bit nonce, SHA-256
    digests have 32 bytes, and [JSON.parse] reads back the array of hex
    strings [JSON.stringify] wrote. *)
Class PlatformLaws (P : Platform) : Prop := {
  aes_gcm_roundtrip :
    forall raw iv data, length raw = 16%nat -> length iv = 12%nat ->
    exists ke kd ct,
      subtle_importKey (js "AES-GCM") raw UseEncrypt = Ok ke /\
      subtle_importKey (js "AES-GCM") raw UseDecrypt = Ok kd /\
      subtle_encrypt (js "AES-GCM") iv ke data = Ok ct /\
      subtle_decrypt (js "AES-GCM") iv kd ct = Ok data;
  sha256_length :
    forall data, exists h,
      subtle_digest (js "SHA-256") data = Ok h /\ length h = 32%nat;
  json_roundtrip :
    forall keys, Forall (fun k => forallb is_hex_digit k = true) keys ->
    JSON_parse (JSON_stringify keys) = Ok (JArray (map JString keys))
}.

(* ================================================================= *)
(** ** Single-layer encryptor / decryptor ([lib/encryption.ts]) *)

Module Encryption.

Definition ENCRYPTION_ALGORITHM : jsstring := js "AES-GCM".

Record EncryptionMetadata := {
  iv : jsstring;
  algorithm : jsstring;
  originalFileName : option jsstring;
  originalFileSize : option jsstring;
  originalFileType : option jsstring;
  encryptionTimestamp : option jsstring }.

Record File := {
  name : jsstring;
  type : jsstring;
  lastModified : Z;
  content : list byte }.

(** [file.size] *)
Definition size (f : File) : N := N.of_nat (length (content f)).

(** A [File] or a plain [Blob], which has no name. *)
Inductive FileOrBlob :=
| AFile (f : File)
| ABlob (blobType : jsstring) (blobContent : list byte).

Definition arrayBuffer (b : FileOrBlob) : list byte :=
  match b with
  | AFile f => content f
  | ABlob _ c => c
  end.

Definition MAX_ENCRYPTION_SIZE : N := 15 * 1024 * 1024.

Section Encryption.
Context {P : Platform}.

(** [generateEncryptionKey()] *)
Definition generateEncryptionKey : M jsstring :=
  keyBytes <- getRandomValues 16 ;;
  ret (toHex keyBytes).

(** [bufferToBase64(buffer)] *)
Definition bufferToBase64 (buffer : list byte) : Result jsstring :=
  btoa (fromCharCodes buffer).

(** [base64ToBuffer(base64)] *)
Definition base64ToBuffer (base64 : jsstring) : M (list byte) :=
  try_catch
    (binaryString <- lift (atob base64) ;;
     ret (charCodes binaryString))
    (fun error =>
       console_error ;;;
       throw (Error (js "Invalid base64 string"))).

(** [mimeTypes]: the extension table of [guessMimeType]. *)
Definition mimeTypes : list (jsstring * jsstring) :=
  [ (js "pdf", js "application/pdf");
    (js "doc", js "application/msword");
    (js "docx", js "application/vnd.openxmlformats-officedocument.wordprocessingml.document");
    (js "xls", js "application/vnd.ms-excel");
    (js "xlsx", js "application/vnd.openxmlformats-officedocument.spreadsheetml.sheet");
    (js "ppt", js "application/vnd.ms-powerpoint");
    (js "pptx", js "application/vnd.openxmlformats-officedocument.presentationml.presentation");
    (js "jpg", js "image/jpeg");
    (js "jpeg", js "image/jpeg");
    (js "png", js "image/png");
    (js "gif", js "image/gif");
    (js "svg", js "image/svg+xml");
    (js "mp3", js "audio/mpeg");
    (js "mp4", js "video/mp4");
    (js "zip", js "application/zip");
    (js "txt", js "text/plain");
    (js "html", js "text/html");
    (js "css", js "text/css");
    (js "js", js "text/javascript");
    (js "json", js "application/json") ].

(** [s.toLowerCase()] on the ASCII letters; the table of [guessMimeType]
    has only ASCII keys of its own. *)
Definition toLowerCase_ascii (s : jsstring) : jsstring :=
  map (fun c => if (65 <=? c) && (c <=? 90) then c + 32 else c) s.

(** [guessMimeType(filename)], over the table's own keys (the inherited
    property names [constructor] and [__proto__], which [in] also accepts,
    are left out). *)
Definition guessMimeType (filename : jsstring) : jsstring :=
  let extension := toLowerCase_ascii (last (Shamir.split_on 46 filename) []) in
  match find (fun entry => jsstring_eqb (fst entry) extension) mimeTypes with
  | Some entry => snd entry
  | None => []
  end.



(** The [type] a [File] keeps of the one it is constructed with (File API):
    empty if a character lies outside U+0020..U+007E, lower-cased
    otherwise.  The [type] of a [File] the browser hands out is a fixed
    point. *)
Definition blobType (t : jsstring) : jsstring :=
  if forallb (fun c => (32 <=? c) && (c <=? 126)) t then toLowerCase_ascii t else [].

(** [name.replace(/\.enc$/, "")] *)
Definition strip_enc (name : jsstring) : jsstring :=
  match rev name with
  | 99 :: 110 :: 101 :: 46 :: r => rev r
  | _ => name
  end.

(** [a || b] on strings: the empty string is falsy. *)
Definition or_else (a b : jsstring) : jsstring :=
  match a with [] => b | _ => a end.

Definition or_undefined (a : option jsstring) : jsstring :=
  match a with Some s => s | None => [] end.

Definition tooLarge : jsstring :=
  js "File is too large for encryption. Maximum size is "
    ++ Number_toString (double_of_Z (Z.of_N (MAX_ENCRYPTION_SIZE / (1024 * 1024))))
    ++ js "MB.".

(** The size guard that opens the [try] block of [encryptFile]. *)
Definition sizeGuard (file : File) : M unit :=
  if MAX_ENCRYPTION_SIZE <? size file then throw (Error tooLarge) else ret tt.

(** The [try] block of [encryptFile] after the size guard. *)
Definition encryptFile_work (file : File) (encryptionKey : jsstring)
    : M (File * EncryptionMetadata) :=
  let fileBuffer := content file in
  keyBytes <- lift (hexToBytes encryptionKey) ;;
  iv <- getRandomValues 12 ;;
  key <- importKey ENCRYPTION_ALGORITHM keyBytes UseEncrypt ;;
  encryptedBuffer <- encrypt ENCRYPTION_ALGORITHM iv key fileBuffer ;;
  let encryptedFile :=
    {| name := name file ++ js ".enc";
       type := js "application/octet-stream";
       lastModified := lastModified file;
       content := encryptedBuffer |} in
  iv64 <- lift (bufferToBase64 iv) ;;
  fun w =>
    (Ok (encryptedFile,
         {| algorithm := ENCRYPTION_ALGORITHM;
            iv := iv64;
            originalFileName := Some (name file);
            originalFileSize := Some (Number_toString (double_of_Z (Z.of_N (size file))));
            originalFileType := Some (type file);
            encryptionTimestamp := Some (toISOString (now w)) |}), w).

(** [encryptFile(file, encryptionKey)] *)
Definition encryptFile (file : File) (encryptionKey : jsstring)
    : M (File * EncryptionMetadata) :=
  try_catch
    (sizeGuard file ;;; encryptFile_work file encryptionKey)
    (fun error =>
       console_error ;;;
       throw (Error (js "Failed to encrypt file: " ++ message_of error))).

(** [decryptFile(encryptedFile, metadata, encryptionKey)].  The [File]
    constructor keeps [blobType] of the type it is given.  Where no type
    was recorded and the name has an inherited extension
    ([inheritedExtension]), the type the source ends with is the text of
    the inherited object, which [guessMimeType] leaves out. *)
Definition decryptFile (encryptedFile : FileOrBlob) (metadata : EncryptionMetadata)
    (encryptionKey : jsstring) : M File :=
  try_catch
    ((match iv metadata with
      | [] => throw (Error (js "Missing IV in encryption metadata. Cannot decrypt without initialization vector."))
      | _ => ret tt
      end) ;;;
     keyBytes <- lift (hexToBytes encryptionKey) ;;
     iv <- base64ToBuffer (iv metadata) ;;
     key <- importKey ENCRYPTION_ALGORITHM keyBytes UseDecrypt ;;
     let encryptedBuffer := arrayBuffer encryptedFile in
     decryptedBuffer <- decrypt ENCRYPTION_ALGORITHM iv key encryptedBuffer ;;
     let fileName :=
       or_else (or_undefined (originalFileName metadata))
         (match encryptedFile with
          | AFile f => strip_enc (name f)
          | ABlob _ _ => js "decrypted-file"
          end) in
     let mimeType :=
       or_else (or_undefined (originalFileType metadata))
         (or_else (guessMimeType fileName) (js "application/octet-stream")) in
     fun w =>
       (Ok {| name := fileName; type := blobType mimeType; lastModified := now w;
              content := decryptedBuffer |}, w))
    (fun error =>
       console_error ;;;
       throw (Error (js "Failed to decrypt file: " ++ message_of error))).

End Encryption.
End Encryption.

(* ================================================================= *)
(** ** Multi-layer encryptor / decryptor ([lib/audit.ts]) *)

Module MultiLayer.

Record Layer := {
  algorithm : jsstring;
  ivBase64 : jsstring;
  layerIndex : nat }.

(** The [metadata] object of the multi-layer scheme. *)
Record MultiLayerMetadata := {
  version : jsstring;
  layers : list Layer;
  encryptedLayerKeys : jsstring;
  encryptionId : jsstring }.

Record MultiLayerResult := {
  encryptedData : list byte;
  layerKeys : list jsstring;
  metadata : MultiLayerMetadata }.

(** Number of encryption layers. *)
Definition LAYERS : nat := 3.

Section MultiLayer.
Context {P : Platform}.

(** [uuidv4()], the [v4] of the [uuid] package, which is not part of the
    repository.  Assumed of it: the call returns a string, here one the
    platform renders from 16 bytes of the entropy stream.  How much entropy
    the call draws and what the string looks like are used by no property
    below: [multiLayerEncrypt] only stores the id. *)
Definition uuidv4 : M jsstring :=
  bytes <- getRandomValues 16 ;;
  ret (uuid_format bytes).

Definition invalidKeyLength (bytes : nat) : jsstring :=
  js "Invalid key length: " ++ Number_toString (double_of_Z (Z.of_nat (bytes * 8)))
    ++ js " bits. Expected 128 bits.".

(** [if (keyBuffer.length !== 16) throw ...] *)
Definition checkKeyLength (keyBuffer : list byte) : M unit :=
  if Nat.eqb (length keyBuffer) 16 then ret tt
  else throw (Error (invalidKeyLength (length keyBuffer))).

(** The key derivation at the head of [encryptLayerKeys]. *)
Definition encryptLayerKeys_keyBuffer (primaryKey : jsstring) : M (list byte) :=
  if test_hex 32 primaryKey then
    lift (hexToBytes primaryKey)
  else if test_hex 64 primaryKey then
    fullBuffer <- lift (hexToBytes primaryKey) ;;
    ret (firstn 16 fullBuffer)
  else
    let data := TextEncoder_encode primaryKey in
    hashBuffer <- digest (js "SHA-256") data ;;
    ret (firstn 16 hashBuffer).

(** [encryptLayerKeys(layerKeys, primaryKey)] *)
Definition encryptLayerKeys (layerKeys : list jsstring) (primaryKey : jsstring)
    : M jsstring :=
  keyBuffer <- encryptLayerKeys_keyBuffer primaryKey ;;
  cryptoKey <- importKey (js "AES-GCM") keyBuffer UseEncrypt ;;
  let layerKeysJson := JSON_stringify layerKeys in
  iv <- getRandomValues 12 ;;
  encryptedLayerKeys <- encrypt (js "AES-GCM") iv cryptoKey (TextEncoder_encode layerKeysJson) ;;
  keys64 <- lift (btoa (fromCharCodes encryptedLayerKeys)) ;;
  iv64 <- lift (btoa (fromCharCodes iv)) ;;
  ret (keys64 ++ js "." ++ iv64).

(** One turn of the loop of [multiLayerEncrypt]. *)
Definition encryptLayer (i : nat) (currentData : list byte)
    : M (list byte * jsstring * Layer) :=
  keyBytes <- getRandomValues 16 ;;
  let layerKey := toHex keyBytes in
  keyBuffer <- lift (hexToBytes layerKey) ;;
  checkKeyLength keyBuffer ;;;
  cryptoKey <- importKey (js "AES-GCM") keyBuffer UseEncrypt ;;
  iv <- getRandomValues 12 ;;
  encryptedData <- encrypt (js "AES-GCM") iv cryptoKey currentData ;;
  iv64 <- lift (btoa (fromCharCodes iv)) ;;
  ret (encryptedData, layerKey,
       {| algorithm := js "AES-GCM"; ivBase64 := iv64; layerIndex := i |}).

(** The loop [for (i = 0; i < LAYERS; i++)] from turn [i] on, [n] turns
    left; [layerKeys] and [layers] grow at the end, as [push] does. *)
Fixpoint encryptLayers (n i : nat) (currentData : list byte)
    (layerKeys : list jsstring) (layers : list Layer)
    : M (list byte * list jsstring * list Layer) :=
  match n with
  | O => ret (currentData, layerKeys, layers)
  | S k =>
      r <- encryptLayer i currentData ;;
      let '(encryptedData, layerKey, layer) := r in
      encryptLayers k (S i) encryptedData (layerKeys ++ [layerKey]) (layers ++ [layer])
  end.

(** [multiLayerEncrypt(data, primaryKey)] *)
Definition multiLayerEncrypt (data : list byte) (primaryKey : jsstring)
    : M MultiLayerResult :=
  encryptionId <- uuidv4 ;;
  r <- encryptLayers LAYERS 0 data [] [] ;;
  let '(currentData, layerKeys, layers) := r in
  encryptedLayerKeys <- encryptLayerKeys layerKeys primaryKey ;;
  ret {| encryptedData := currentData;
         layerKeys := layerKeys;
         metadata := {| version := js "1.0";
                        layers := layers;
                        encryptedLayerKeys := encryptedLayerKeys;
                        encryptionId := encryptionId |} |}.

(** The key derivation inside [decryptLayerKeys]. *)
Definition decryptLayerKeys_keyBuffer (primaryKey : jsstring) : M (list byte) :=
  if test_hex 32 primaryKey then
    lift (hexToBytes primaryKey)
  else if test_hex 64 primaryKey then
    fullBuffer <- lift (hexToBytes primaryKey) ;;
    ret (firstn 16 fullBuffer)
  else
    let data := TextEncoder_encode primaryKey in
    hashBuffer <- digest (js "SHA-256") data ;;
    ret (firstn 16 hashBuffer).

(** [decryptLayerKeys(encryptedLayerKeysString, primaryKey)]; a missing
    second part is [undefined], which [atob] reads as the text
    "undefined". *)
Definition decryptLayerKeys (encryptedLayerKeysString primaryKey : jsstring)
    : M JSONValue :=
  let parts := Shamir.split_on 46 encryptedLayerKeysString in
  let encryptedLayerKeysBase64 := nth 0 parts (js "undefined") in
  let ivBase64 := nth 1 parts (js "undefined") in
  keysBinary <- lift (atob encryptedLayerKeysBase64) ;;
  let encryptedLayerKeys := charCodes keysBinary in
  ivBinary <- lift (atob ivBase64) ;;
  let iv := charCodes ivBinary in
  keyBuffer <- decryptLayerKeys_keyBuffer primaryKey ;;
  cryptoKey <- importKey (js "AES-GCM") keyBuffer UseDecrypt ;;
  decryptedLayerKeys <- decrypt (js "AES-GCM") iv cryptoKey encryptedLayerKeys ;;
  let layerKeysJson := TextDecoder_decode decryptedLayerKeys in
  lift (JSON_parse layerKeysJson).

(** A looked-up value used as the receiver of [.match(...)]. *)
Definition as_receiver (v : option JSONValue) : Result jsstring :=
  match v with
  | Some (JString s) => Ok s
  | Some JNull | None => Throw (Engine NullDereference)
  | Some _ => Throw (Engine NotAFunction)
  end.

(** The last field of that name: a repeated key overrides. *)
Fixpoint lookup_field (key : jsstring) (fields : list (jsstring * JSONValue))
    : option JSONValue :=
  match fields with
  | [] => None
  | (k, v) :: rest =>
      match lookup_field key rest with
      | Some v' => Some v'
      | None => if jsstring_eqb k key then Some v else None
      end
  end.

(** [layerKeys[i]] on whatever [JSON.parse] returned, then used as the
    receiver of [.match]. *)
Definition layerKey_at (layerKeys : JSONValue) (i : nat) : Result jsstring :=
  match layerKeys with
  | JArray items => as_receiver (nth_error items i)
  | JString s =>
      match nth_error s i with
      | Some c => Ok [c]
      | None => Throw (Engine NullDereference)
      end
  | JObject fields => as_receiver (lookup_field (decimal (N.of_nat i)) fields)
  | JNull => Throw (Engine NullDereference)
  | JBool _ | JNumber _ => Throw (Engine NullDereference)
  end.

(** One turn of the loop of [multiLayerDecrypt], for layer [i]. *)
Definition decryptLayer (layerKeys : JSONValue) (i : nat) (layer : Layer)
    (currentData : list byte) : M (list byte) :=
  layerKey <- lift (layerKey_at layerKeys i) ;;
  keyBuffer <- lift (hexToBytes layerKey) ;;
  checkKeyLength keyBuffer ;;;
  cryptoKey <- importKey (algorithm layer) keyBuffer UseDecrypt ;;
  ivString <- lift (atob (ivBase64 layer)) ;;
  let iv := charCodes ivString in
  decrypt (algorithm layer) iv cryptoKey currentData.

(** The loop [for (i = layers.length - 1; i >= 0; i--)]: [pendingRev] holds
    the layers still to undo, last applied first, so the turn at hand is for
    its head, whose index in [layers] is the number of layers below it. *)
Fixpoint decryptLayers (layerKeys : JSONValue) (pendingRev : list Layer)
    (currentData : list byte) : M (list byte) :=
  match pendingRev with
  | [] => ret currentData
  | layer :: below =>
      decryptedData <- decryptLayer layerKeys (length below) layer currentData ;;
      decryptLayers layerKeys below decryptedData
  end.

(** [multiLayerDecrypt(encryptedData, metadata, primaryKey)] *)
Definition multiLayerDecrypt (encryptedData : list byte)
    (metadata : MultiLayerMetadata) (primaryKey : jsstring) : M (list byte) :=
  layerKeys <- decryptLayerKeys (encryptedLayerKeys metadata) primaryKey ;;
  decryptLayers layerKeys (rev (layers metadata)) encryptedData.

End MultiLayer.
End MultiLayer.

(* ================================================================= *)
(** ** A deterministic test platform

    A seeded stand-in for the browser: an additive stream cipher with a
    16-byte tag in place of AES-GCM, a padding "digest" in place of
    SHA-256, a parser for arrays of plain string literals in place of
    [JSON.parse] and decimal integers in place of the number <-> string
    conversions.  It fails where WebCrypto fails (key length, tag
    mismatch) and with the same error names. *)

Module Fake.

Definition mask (key : list byte) (i : nat) : N :=
  match key with
  | [] => 0
  | _ => Byte.to_N (nth (i mod length key) key x00)
  end.

Fixpoint add_mask (key : list byte) (i : nat) (data : list byte) : list byte :=
  match data with
  | [] => []
  | b :: rest => u8 (Byte.to_N b + mask key i) :: add_mask key (S i) rest
  end.

Fixpoint sub_mask (key : list byte) (i : nat) (data : list byte) : list byte :=
  match data with
  | [] => []
  | b :: rest => u8 (Byte.to_N b + 256 - mask key i) :: sub_mask key (S i) rest
  end.

Definition checksum (data : list byte) : N :=
  fold_right (fun b acc => (Byte.to_N b + acc) mod 256) 0 data.

Definition tag (key iv data : list byte) : list byte :=
  map (fun i => u8 (mask key i + mask iv i + checksum data)) (seq 0 16).

Definition bytes_eqb (a b : list byte) : bool :=
  if list_eq_dec Byte.byte_eq_dec a b then true else false.

Record Key := { raw : list byte; usage : KeyUsage }.

Definition fake_importKey (name : jsstring) (raw : list byte) (u : KeyUsage)
    : Result Key :=
  if jsstring_eqb name (js "AES-GCM") then
    if Nat.eqb (length raw) 16 || Nat.eqb (length raw) 24 || Nat.eqb (length raw) 32
    then Ok {| raw := raw; usage := u |}
    else Throw (Engine DataError)
  else Throw (Engine (OtherPlatformError (js "NotSupportedError"))).

Definition fake_encrypt (name : jsstring) (iv : list byte) (k : Key)
    (data : list byte) : Result (list byte) :=
  match usage k with
  | UseEncrypt =>
      if jsstring_eqb name (js "AES-GCM") then
        Ok (add_mask (raw k) 0 data ++ tag (raw k) iv data)
      else Throw (Engine (OtherPlatformError (js "InvalidAccessError")))
  | UseDecrypt => Throw (Engine (OtherPlatformError (js "InvalidAccessError")))
  end.

Definition fake_decrypt (name : jsstring) (iv : list byte) (k : Key)
    (data : list byte) : Result (list byte) :=
  match usage k with
  | UseDecrypt =>
      if jsstring_eqb name (js "AES-GCM") then
        if (length data <? 16)%nat then Throw (Engine OperationError)
        else
          let n := (length data - 16)%nat in
          let plain := sub_mask (raw k) 0 (firstn n data) in
          if bytes_eqb (skipn n data) (tag (raw k) iv plain) then Ok plain
          else Throw (Engine OperationError)
      else Throw (Engine (OtherPlatformError (js "InvalidAccessError")))
  | UseEncrypt => Throw (Engine (OtherPlatformError (js "InvalidAccessError")))
  end.

Definition fake_digest (name : jsstring) (data : list byte) : Result (list byte) :=
  if jsstring_eqb name (js "SHA-256") then Ok (firstn 32 (data ++ repeat x00 32))
  else Throw (Engine (OtherPlatformError (js "NotSupportedError"))).

(** Where the parser of string arrays stands. *)
Inductive ParseState :=
| AtStart                       (* expects the opening bracket *)
| AfterOpen                     (* expects a string or the closing bracket *)
| InString (acc : jsstring)     (* inside a literal, characters reversed *)
| AfterString                   (* expects a comma or the closing bracket *)
| AfterComma                    (* expects a string *)
| AtEnd.

Fixpoint parse_strings (s : jsstring) (st : ParseState) (items : list jsstring)
    : option (list jsstring) :=
  match s with
  | [] => match st with AtEnd => Some (rev items) | _ => None end
  | c :: rest =>
      match st with
      | AtStart => if c =? 0x5B then parse_strings rest AfterOpen items else None
      | AfterOpen =>
          if c =? 0x5D then parse_strings rest AtEnd items
          else if c =? 0x22 then parse_strings rest (InString []) items
          else None
      | InString acc =>
          if c =? 0x22 then parse_strings rest AfterString (rev acc :: items)
          else if (c =? 0x5C) || (c <? 0x20) then None
          else parse_strings rest (InString (c :: acc)) items
      | AfterString =>
          if c =? 0x5D then parse_strings rest AtEnd items
          else if c =? 0x2C then parse_strings rest AfterComma items
          else None
      | AfterComma =>
          if c =? 0x22 then parse_strings rest (InString []) items else None
      | AtEnd => None
      end
  end.

Definition fake_JSON_parse (text : jsstring) : Result JSONValue :=
  match parse_strings text AtStart [] with
  | Some items => Ok (JArray (map JString items))
  | None => Throw (Engine JSONSyntaxError)
  end.

(** Decimal integers only; anything else is [NaN]. *)
Definition fake_StringToNumber (s : jsstring) : double :=
  match s with
  | [] => double_of_Z 0
  | _ =>
      if forallb (fun c => (48 <=? c) && (c <=? 57)) s
      then double_of_Z (Z.of_N (fold_left (fun acc c => acc * 10 + (c - 48)) s 0))
      else NaN
  end.

(** Integer-valued numbers are printed digit by digit, so that
    [fake_StringToNumber] reads the same number back. *)
Definition fake_float_toString (d : double) : jsstring :=
  match d with
  | S754_finite s m e =>
      if (0 <=? e)%Z then decimalZ ((if s then Zneg m else Zpos m) * 2 ^ e)
      else js "NaN"
  | _ => js "NaN"
  end.

Definition fake_entropy (i : nat) : byte := u8 (N.of_nat (i * 37 + 11)).

#[export] Instance platform : Platform := {|
  entropy := fake_entropy;
  CryptoKey := Key;
  subtle_importKey := fake_importKey;
  subtle_encrypt := fake_encrypt;
  subtle_decrypt := fake_decrypt;
  subtle_digest := fake_digest;
  JSON_parse := fake_JSON_parse;
  float_toString := fake_float_toString;
  StringToNumber := fake_StringToNumber;
  uuid_format := toHex;
  toISOString := decimalZ;
  engine_message := fun _ => js "operation failed"
|}.

Definition world0 : World := {| cursor := 0; now := 1700000000000; calls := [] |}.

End Fake.

(* ================================================================= *)
(** ** The key trichotomy as the specification words it (section 4.1)

    "Hex-string key parsing accepts exactly 32 hex chars (128-bit) or 64
    hex chars (256-bit, then truncated to 128 bits); any other input is
    treated as a passphrase and passed through a fixed one-way digest,
    then truncated to 16 bytes." *)

Module KeySpec.

Definition digit_value (c : N) : N :=
  match hex_value c with Some v => v | None => 0 end.

(** Two hex digits per byte, most significant first. *)
Fixpoint bytes_of_hex (s : jsstring) : list byte :=
  match s with
  | hi :: lo :: rest => u8 (16 * digit_value hi + digit_value lo) :: bytes_of_hex rest
  | _ => []
  end.

Definition hex_chars (n : nat) (s : jsstring) : bool :=
  Nat.eqb (length s) n && forallb is_hex_digit s.

Definition primaryKeyBytes {P : Platform} (primaryKey : jsstring) : M (list byte) :=
  if hex_chars 32 primaryKey then ret (bytes_of_hex primaryKey)
  else if hex_chars 64 primaryKey then ret (firstn 16 (bytes_of_hex primaryKey))
  else
    hash <- digest (js "SHA-256") (TextEncoder_encode primaryKey) ;;
    ret (firstn 16 hash).

End KeySpec.

(* ================================================================= *)
(** ** The two halves of [base64_encode], for the round-trip proof *)

Module Base64Parts.

(** The sextets [base64_encode] spells, without the padding. *)
Fixpoint sextets_of (s : list N) : list N :=
  match s with
  | a :: b :: c :: rest =>
      a / 4 :: (a mod 4) * 16 + b / 16 :: (b mod 16) * 4 + c / 64 :: c mod 64
        :: sextets_of rest
  | [a; b] => [a / 4; (a mod 4) * 16 + b / 16; (b mod 16) * 4]
  | [a] => [a / 4; (a mod 4) * 16]
  | [] => []
  end.

(** The padding [base64_encode] appends. *)
Fixpoint padding_of (s : list N) : jsstring :=
  match s with
  | _ :: _ :: _ :: rest => padding_of rest
  | [_; _] => [61]
  | [_] => [61; 61]
  | [] => []
  end.

End Base64Parts.

(* ================================================================= *)
(** ** Sample inputs *)

Module Samples.
Import Encryption.

(** Layer keys as [multiLayerEncrypt] generates them, and the array
    [JSON.parse] returns for them. *)
Definition hex_keys (keys : list jsstring) : Prop :=
  Forall (fun k => forallb is_hex_digit k = true) keys.

Definition key_array (keys : list jsstring) : JSONValue :=
  JArray (map JString keys).

(** A file one byte above the limit. *)
Definition oversized : File :=
  {| name := js "big.bin"; type := js "application/octet-stream";
     lastModified := 0;
     content := repeat x00 (N.to_nat (MAX_ENCRYPTION_SIZE + 1)) |}.

(** The ten bytes 0..9 of the specification's concrete scenario. *)
Definition ten_bytes : File :=
  {| name := js "ten.bin"; type := js "application/octet-stream";
     lastModified := 0;
     content := [x00; x01; x02; x03; x04; x05; x06; x07; x08; x09] |}.

(** A ciphertext and its metadata as [multiLayerEncrypt] produces them on
    the test platform for the two bytes [0x0a 0x0b] under the passphrase
    "hunter2". *)
Definition sample_plaintext : list byte := [x0a; x0b].

Definition sample_ciphertext : list byte :=
  KeySpec.bytes_of_hex
    (js "3faf891db145d96d019529bd51e5bd5145d93baa1988f766d544b3229100b32241b0f13b85cf1963adf7418bd51fadf7418b").

Definition sample_layers : list MultiLayer.Layer :=
  [ {| MultiLayer.algorithm := js "AES-GCM";
       MultiLayer.ivBase64 := js "q9D1Gj9kia7T+B1C"; MultiLayer.layerIndex := 0 |};
    {| MultiLayer.algorithm := js "AES-GCM";
       MultiLayer.ivBase64 := js "t9wBJktwlbrfBClO"; MultiLayer.layerIndex := 1 |};
    {| MultiLayer.algorithm := js "AES-GCM";
       MultiLayer.ivBase64 := js "w+gNMld8ocbrEDVa"; MultiLayer.layerIndex := 2 |} ].

Definition sample_bundle : jsstring :=
  js "w5ej1p2ikzVjYWVmMTQzOZ3apqfGqpVkZjIxNzNjNjGgq5Cgh6hpOGNiMWQ2ZmIymKmjqsaqmGI0ZDlmZTIzNKCr0q2XlF4iNzM5OGJkZTKYrKDXmqNpNjliYzBlNTBhmtujqJyra2UiXcj6GENZi3BjiK3S92CFqs8=.f6TJ7hM4XYKnzPEW".

Definition sample_metadata (tag : jsstring) : MultiLayer.MultiLayerMetadata :=
  {| MultiLayer.version := tag;
     MultiLayer.layers := sample_layers;
     MultiLayer.encryptedLayerKeys := sample_bundle;
     MultiLayer.encryptionId := js "0b30557a9fc4e90e33587da2c7ec1136" |}.

(** The sample ciphertext with its last byte changed. *)
Definition sample_tampered : list byte :=
  KeySpec.bytes_of_hex
    (js "3faf891db145d96d019529bd51e5bd5145d93baa1988f766d544b3229100b32241b0f13b85cf1963adf7418bd51fadf7418c").

End Samples.

(* ================================================================= *)
(** ** The decryptor component ([components/file-decryptor.tsx]) *)

Module Decryptor.
Import Encryption.

(** The state of [FileDecryptor], and what it has offered for download. *)
Record State := {
  file : option File;
  encryptionKey : jsstring;
  outputFilename : jsstring;
  isDecrypting : bool;
  error : option jsstring;
  success : option jsstring;
  downloads : list File }.

(** [s.startsWith(prefix)] *)
Definition startsWith (prefix s : jsstring) : bool :=
  jsstring_eqb (firstn (length prefix) s) prefix.

Definition setError (message : jsstring) (st : State) : State :=
  {| file := file st; encryptionKey := encryptionKey st;
     outputFilename := outputFilename st; isDecrypting := isDecrypting st;
     error := Some message; success := success st; downloads := downloads st |}.

(** [setIsDecrypting(true); setError(null); setSuccess(null)] *)
Definition started (st : State) : State :=
  {| file := file st; encryptionKey := encryptionKey st;
     outputFilename := outputFilename st; isDecrypting := true;
     error := None; success := None; downloads := downloads st |}.

(** The download of the decrypted file, then [setSuccess(...)]. *)
Definition delivered (decryptedFile : File) (st : State) : State :=
  {| file := file st; encryptionKey := encryptionKey st;
     outputFilename := outputFilename st; isDecrypting := isDecrypting st;
     error := error st;
     success := Some (js "File decrypted successfully: " ++ name decryptedFile);
     downloads := downloads st ++ [decryptedFile] |}.

(** [finally { setIsDecrypting(false) }] *)
Definition finished (st : State) : State :=
  {| file := file st; encryptionKey := encryptionKey st;
     outputFilename := outputFilename st; isDecrypting := false;
     error := error st; success := success st; downloads := downloads st |}.

Section Decryptor.
Context {P : Platform}.

(** What the component knows of the browser's store: [storedMetadata hash]
    is the outcome of reading the "encryption-metadata" item, parsing it
    and looking [hash] up in it; [Ok None] when there is no item or no
    truthy entry, an exception when [JSON.parse] or the lookup throws. *)
Variable storedMetadata : jsstring -> Result (option EncryptionMetadata).

(** The metadata [handleDecrypt] makes up when it has found none. *)
Definition basicMetadata (st : State) (f : File) : EncryptionMetadata :=
  {| algorithm := js "AES-GCM";
     iv := js "";
     originalFileName := Some (or_else (outputFilename st) (strip_enc (name f)));
     originalFileSize := None;
     originalFileType := None;
     encryptionTimestamp := None |}.

(** [handleDecrypt()] *)
Definition handleDecrypt (st : State) : M State :=
  match file st with
  | None => ret (setError (js "Please select a file to decrypt") st)
  | Some f =>
      match encryptionKey st with
      | [] => ret (setError (js "Please enter your encryption key") st)
      | _ =>
          let st := started st in
          st <- try_catch
            (found <-
               (if startsWith (js "baf") (name f) then
                  let ipfsHash := nth 0 (Shamir.split_on 46 (name f)) [] in
                  lift (storedMetadata ipfsHash)
                else ret None) ;;
             let metadata :=
               match found with
               | Some metadata => metadata
               | None => basicMetadata st f
               end in
             let fileContent := content f in
             decryptedFile <-
               decryptFile (ABlob (js "") fileContent) metadata (encryptionKey st) ;;
             ret (delivered decryptedFile st))
            (fun error =>
               console_error ;;;
               ret (setError (js "Failed to decrypt file: " ++ message_of error) st)) ;;
          ret (finished st)
      end
  end.

End Decryptor.
End Decryptor.

(* ================================================================= *)
(** ** Key files: written by the uploader, read by the decryptor *)

Module KeyFile.

(** Whether [c] matches the pattern character [p] under the [i] flag:
    an ASCII letter of the pattern matches itself in either case. *)
Definition same_letter (p c : N) : bool :=
  (c =? p) || ((65 <=? p) && (p <=? 90) && (c =? p + 32)).

(** The rest of [s] after the literal [pattern], if [s] starts with it. *)
Fixpoint match_literal (pattern s : jsstring) : option jsstring :=
  match pattern with
  | [] => Some s
  | p :: pattern' =>
      match s with
      | c :: s' => if same_letter p c then match_literal pattern' s' else None
      | [] => None
      end
  end.

(** A match of [/ENCRYPTION KEY:\s*([0-9a-f]{n})/i] at the start of [s]:
    its captured group. *)
Definition match_key_at (n : nat) (s : jsstring) : option jsstring :=
  match match_literal (js "ENCRYPTION KEY:") s with
  | Some rest =>
      let digits := firstn n (skip_white_space rest) in
      if test_hex n digits then Some digits else None
  | None => None
  end.

(** [content.match(/ENCRYPTION KEY:\s*([0-9a-f]{n})/i)]: the group of the
    leftmost match. *)
Fixpoint find_key (n : nat) (content : jsstring) : option jsstring :=
  match match_key_at n content with
  | Some key => Some key
  | None =>
      match content with
      | [] => None
      | _ :: rest => find_key n rest
      end
  end.

(** [s.trim()] *)
Definition trim (s : jsstring) : jsstring :=
  rev (skip_white_space (rev (skip_white_space s))).

(** The text of the key file of the uploader. *)
Definition keyFileContent (fileName date encryptionKey : jsstring) : jsstring :=
  js "IMPORTANT: KEEP THIS FILE SECURE" ++ [10]
    ++ js "This file contains the encryption key for: " ++ fileName ++ [10]
    ++ js "Encrypted on: " ++ date ++ [10]
    ++ [10]
    ++ js "ENCRYPTION KEY:" ++ [10]
    ++ encryptionKey ++ [10]
    ++ [10]
    ++ js "DECRYPTION INSTRUCTIONS:" ++ [10]
    ++ js "1. You will need this exact key to decrypt your file" ++ [10]
    ++ js "2. Store this file in a secure location" ++ [10]
    ++ js "3. Do not share this key with anyone" ++ [10]
    ++ js "4. If you lose this key, your file cannot be recovered".

(** What precedes the key marker in the key file. *)
Definition keyFileHead (fileName date : jsstring) : jsstring :=
  js "IMPORTANT: KEEP THIS FILE SECURE" ++ [10]
    ++ js "This file contains the encryption key for: " ++ fileName ++ [10]
    ++ js "Encrypted on: " ++ date ++ [10]
    ++ [10].

(** No letter y, of either case, directly before a colon. *)
Fixpoint no_y_colon (s : jsstring) : bool :=
  match s with
  | a :: (b :: _) as rest =>
      negb (((a =? 89) || (a =? 121)) && (b =? 58)) && no_y_colon rest
  | _ => true
  end.

Section KeyFile.
Context {P : Platform}.

(** [handleKeyFileChange(e)] of the decryptor; [selected] is the outcome
    of [file.text()] for the chosen file, [None] when no file was chosen. *)
Definition handleKeyFileChange (selected : option (Result jsstring))
    (st : Decryptor.State) : Result Decryptor.State :=
  match selected with
  | None => Ok st
  | Some (Ok content) =>
      match find_key 32 content with
      | Some (c :: group) =>
          Ok {| Decryptor.file := Decryptor.file st;
                Decryptor.encryptionKey := trim (c :: group);
                Decryptor.outputFilename := Decryptor.outputFilename st;
                Decryptor.isDecrypting := Decryptor.isDecrypting st;
                Decryptor.error := None;
                Decryptor.success := Decryptor.success st;
                Decryptor.downloads := Decryptor.downloads st |}
      | _ =>
          Ok (Decryptor.setError
                (js "Could not find a valid encryption key in the file") st)
      end
  | Some (Throw error) =>
      Ok (Decryptor.setError (js "Failed to read key file: " ++ message_of error) st)
  | Some Diverges => Diverges
  end.

End KeyFile.
End KeyFile.

(* ================================================================= *)
(** ** The uploader component ([components/file-upload.tsx]) *)

Module Uploader.
Import Encryption.

Inductive Status := idle | encrypting | uploading | success | error.

(** The state of [FileUpload] that [handleUpload] reads and sets, and the
    text files it has offered for download (name, then text). *)
Record State := {
  file : option File;
  isUploading : bool;
  progress : nat;
  status : Status;
  errorMessage : jsstring;
  encryptionKey : jsstring;
  encryptionMetadata : option EncryptionMetadata;
  useEncryption : bool;
  downloads : list (jsstring * jsstring) }.

Definition MAX_FILE_SIZE : N := 5 * 1024 * 1024.

(** [name.replace(/\.[^/.]+$/, "")]: a last extension that is not empty
    and has no slash is cut off. *)
Fixpoint split_last_dot (reversed extension : jsstring) : option (jsstring * jsstring) :=
  match reversed with
  | [] => None
  | c :: rest =>
      if c =? 46 then Some (rev rest, extension)
      else split_last_dot rest (c :: extension)
  end.

Definition stripExtension (name : jsstring) : jsstring :=
  match split_last_dot (rev name) [] with
  | Some (stem, c :: extension) =>
      if existsb (fun x => x =? 47) (c :: extension) then name else stem
  | _ => name
  end.

Section Uploader.
Context {P : Platform}.

(** [new Date().toLocaleString()], which depends on the locale. *)
Variable toLocaleString : Z -> jsstring.

Definition tooLarge : jsstring :=
  js "File is too large. Maximum size is "
    ++ Number_toString (double_of_Z (Z.of_N (MAX_FILE_SIZE / (1024 * 1024))))
    ++ js "MB.".

(** The early [return] on an oversized file. *)
Definition refused (st : State) : State :=
  {| file := file st; isUploading := isUploading st; progress := progress st;
     status := error; errorMessage := tooLarge;
     encryptionKey := encryptionKey st; encryptionMetadata := encryptionMetadata st;
     useEncryption := useEncryption st; downloads := downloads st |}.

(** [setUploading(true); setErrorMessage(""); setProgress(10)] *)
Definition begun (st : State) : State :=
  {| file := file st; isUploading := true; progress := 10;
     status := status st; errorMessage := js "";
     encryptionKey := encryptionKey st; encryptionMetadata := encryptionMetadata st;
     useEncryption := useEncryption st; downloads := downloads st |}.

(** The outer [catch]. *)
Definition failed (st : State) (e : exn) : M (State * option (File * option EncryptionMetadata)) :=
  console_error ;;;
  ret ({| file := file st; isUploading := false; progress := progress st;
          status := error;
          errorMessage :=
            or_else (message_of e)
              (js "An unexpected error occurred. Please try again.");
          encryptionKey := encryptionKey st;
          encryptionMetadata := encryptionMetadata st;
          useEncryption := useEncryption st; downloads := downloads st |}, None).

(** [setEncryptionKey(newKey); setErrorMessage(...)] after a key that
    failed the format check. *)
Definition rekeyed (newKey : jsstring) (st : State) : State :=
  {| file := file st; isUploading := isUploading st; progress := progress st;
     status := status st;
     errorMessage :=
       js "Your encryption key was invalid. A new secure key has been generated.";
     encryptionKey := newKey; encryptionMetadata := encryptionMetadata st;
     useEncryption := useEncryption st; downloads := downloads st |}.

(** [setStatus("encrypting")], then the download of the key file. *)
Definition keyFileOffered (fileName date key : jsstring) (st : State) : State :=
  {| file := file st; isUploading := isUploading st; progress := progress st;
     status := encrypting; errorMessage := errorMessage st;
     encryptionKey := encryptionKey st; encryptionMetadata := encryptionMetadata st;
     useEncryption := useEncryption st;
     downloads :=
       downloads st
         ++ [(stripExtension fileName ++ js "_encryption_key.txt",
              KeyFile.keyFileContent fileName date key)] |}.

(** [setEncryptionMetadata(metadata); setProgress(30)] *)
Definition encryptedState (metadata : EncryptionMetadata) (st : State) : State :=
  {| file := file st; isUploading := isUploading st; progress := 30;
     status := status st; errorMessage := errorMessage st;
     encryptionKey := encryptionKey st; encryptionMetadata := Some metadata;
     useEncryption := useEncryption st; downloads := downloads st |}.

(** [handleUpload()] up to the call of [storeFile]: the state it has set
    and, unless it has stopped, the file and the metadata it passes to
    [storeFile].  Within one call [encryptionKey] is the value the
    component was rendered with; [setEncryptionKey] changes the state for
    the next rendering only. *)
Definition handleUpload (st : State) : M (State * option (File * option EncryptionMetadata)) :=
  match file st with
  | None => ret (st, None)
  | Some f =>
      if MAX_FILE_SIZE <? size f then ret (refused st, None)
      else
        let encryptionKey := encryptionKey st in
        let st := begun st in
        if useEncryption st then
          match encryptionKey with
          | [] =>
              failed st
                (Error (js "Encryption key is required when encryption is enabled"))
          | _ =>
              st <- (if negb (test_hex 32 encryptionKey) then
                       newKey <- generateEncryptionKey ;;
                       ret (rekeyed newKey st)
                     else ret st) ;;
              date <- (fun w => (Ok (toLocaleString (now w)), w)) ;;
              let st := keyFileOffered (name f) date encryptionKey st in
              try_catch
                (r <- try_catch (encryptFile f encryptionKey)
                        (fun encryptError =>
                           console_error ;;;
                           throw (Error (js "Failed to encrypt file: "
                                           ++ message_of encryptError))) ;;
                 let '(encryptedFile, encMeta) := r in
                 ret (encryptedState encMeta st, Some (encryptedFile, Some encMeta)))
                (failed st)
          end
        else ret (st, Some (f, None))
  end.

End Uploader.
End Uploader.

(* ================================================================= *)
(** ** Time-limited access tokens ([lib/audit.ts]) *)

Module AccessToken.

(** [Math.floor(d)] *)
Definition Math_floor (d : double) : double :=
  match d with
  | S754_finite s m e =>
      if (0 <=? e)%Z then d
      else double_of_Z ((if s then Zneg m else Zpos m) / 2 ^ (- e))
  | _ => d
  end.

(** [payload.name] for the names the source reads ([exp], [fileId],
    [userAddress]), none of which a string, an array, a number or a
    boolean has: [None] is [undefined]; reading a property of [null] is a
    [TypeError]. *)
Definition getProperty (payload : JSONValue) (name : jsstring)
    : Result (option JSONValue) :=
  match payload with
  | JNull => Throw (Engine NullDereference)
  | JObject fields => Ok (MultiLayer.lookup_field name fields)
  | _ => Ok None
  end.

(** What [verifyAccessToken] returns. *)
Record TokenCheck := {
  valid : bool;
  fileId : option JSONValue;
  userAddress : option JSONValue }.

Definition rejected : TokenCheck :=
  {| valid := false; fileId := None; userAddress := None |}.

Section AccessToken.
Context {P : Platform}.

(** The primitive a parsed value is converted to, as a string
    ([ToPrimitive], then [ToString]).  A parsed object has data properties
    only: its inherited [valueOf] returns the object itself, its inherited
    [toString] gives "[object Object]", and an own [toString] property,
    never callable, hides the inherited one and leaves no conversion, a
    [TypeError].  A parsed array has index properties only: its inherited
    [toString] is [join], which writes [null] elements as the empty string
    and converts the others in order. *)
Fixpoint toStringValue (v : JSONValue) : Result jsstring :=
  match v with
  | JNull => Ok (js "null")
  | JBool true => Ok (js "true")
  | JBool false => Ok (js "false")
  | JNumber d => Ok (Number_toString d)
  | JString s => Ok s
  | JArray items =>
      match
        (fix elements (items : list JSONValue) : Result (list jsstring) :=
           match items with
           | [] => Ok []
           | item :: rest =>
               match (match item with
                      | JNull => Ok []
                      | _ => toStringValue item
                      end) with
               | Ok s =>
                   match elements rest with
                   | Ok ss => Ok (s :: ss)
                   | Throw e => Throw e
                   | Diverges => Diverges
                   end
               | Throw e => Throw e
               | Diverges => Diverges
               end
           end) items
      with
      | Ok parts => Ok (join (js ",") parts)
      | Throw e => Throw e
      | Diverges => Diverges
      end
  | JObject fields =>
      match MultiLayer.lookup_field (js "toString") fields with
      | Some _ => Throw (Engine (OtherPlatformError (js "TypeError")))
      | None => Ok (js "[object Object]")
      end
  end.

(** The number [v < n] compares with a number [n]: [ToNumber] of
    [ToPrimitive(v)], which throws where the conversion of an object or an
    array does. *)
Definition toNumber (v : option JSONValue) : Result double :=
  match v with
  | None => Ok NaN
  | Some JNull => Ok (double_of_Z 0)
  | Some (JBool true) => Ok (double_of_Z 1)
  | Some (JBool false) => Ok (double_of_Z 0)
  | Some (JNumber d) => Ok d
  | Some (JString s) => Ok (StringToNumber s)
  | Some other =>
      match toStringValue other with
      | Ok s => Ok (StringToNumber s)
      | Throw e => Throw e
      | Diverges => Diverges
      end
  end.

(** [Math.floor(Date.now() / 1000)] *)
Definition nowSeconds (w : World) : double :=
  Math_floor (fdiv (double_of_Z (now w)) (double_of_Z 1000)).

(** [verifyAccessToken(token)] *)
Definition verifyAccessToken (token : jsstring) : M TokenCheck :=
  try_catch
    (text <- lift (atob token) ;;
     payload <- lift (JSON_parse text) ;;
     exp <- lift (getProperty payload (js "exp")) ;;
     expiry <- lift (toNumber exp) ;;
     fun w =>
       if SFltb expiry (nowSeconds w) then (Ok rejected, w)
       else
         (fileId <- lift (getProperty payload (js "fileId")) ;;
          userAddress <- lift (getProperty payload (js "userAddress")) ;;
          ret {| valid := true; fileId := fileId; userAddress := userAddress |}) w)
    (fun error => console_error ;;; ret rejected).

End AccessToken.
End AccessToken.

(* ================================================================= *)
(** ** Security settings and the IP allow-list ([lib/audit.ts]) *)

Module Security.
Import AccessToken.

(** An object under construction: its property definitions in evaluation
    order, a later definition of a name overriding an earlier one, as in
    [{...a, ...b, name: value}]. *)
Definition Obj := list (jsstring * JSONValue).

(** [o.name]; [None] is [undefined]. *)
Definition read (o : Obj) (name : jsstring) : option JSONValue :=
  MultiLayer.lookup_field name o.

Definition indexed {A} (f : A -> JSONValue) (l : list A) : Obj :=
  map (fun entry => (decimal (N.of_nat (fst entry)), f (snd entry)))
      (List.combine (seq 0 (length l)) l).

(** The properties [...v] copies: those of an object, the elements of an
    array and the characters of a string under their indices, nothing for
    [undefined], [null], a number or a boolean. *)
Definition ownProperties (v : option JSONValue) : Obj :=
  match v with
  | Some (JObject fields) => fields
  | Some (JArray items) => indexed (fun item => item) items
  | Some (JString s) => indexed (fun c => JString [c]) s
  | _ => []
  end.

Definition number (z : Z) : JSONValue := JNumber (double_of_Z z).

Definition DEFAULT_accessControl : Obj :=
  [ (js "enabled", JBool true);
    (js "defaultPolicy", JString (js "private"));
    (js "ipRestriction", JBool false);
    (js "allowedIPs", JArray []);
    (js "timeLimitedAccess", JBool false) ].

Definition DEFAULT_integrityVerification : Obj :=
  [ (js "automaticChecks", JBool true);
    (js "checkInterval", number 24);
    (js "merkleProofVerification", JBool false) ].

Definition DEFAULT_secureKeyStorage : Obj :=
  [ (js "splitKey", JBool false);
    (js "thresholdShares", number 2);
    (js "totalShares", number 3) ].

Definition DEFAULT_SECURITY_SETTINGS : Obj :=
  [ (js "encryptionStrength", JString (js "AES-128"));
    (js "multiLayerEncryption", JBool false);
    (js "keyRotationEnabled", JBool false);
    (js "keyRotationPeriod", number 90);
    (js "accessControl", JObject DEFAULT_accessControl);
    (js "integrityVerification", JObject DEFAULT_integrityVerification);
    (js "secureKeyStorage", JObject DEFAULT_secureKeyStorage) ].

(** The three nested groups and their defaults. *)
Definition groups : list (jsstring * Obj) :=
  [ (js "accessControl", DEFAULT_accessControl);
    (js "integrityVerification", DEFAULT_integrityVerification);
    (js "secureKeyStorage", DEFAULT_secureKeyStorage) ].

Inductive SecurityLevel := standard | high | maximum.

Definition SECURITY_LEVEL_SETTINGS (level : SecurityLevel) : Obj :=
  match level with
  | standard => []
  | high =>
      [ (js "multiLayerEncryption", JBool true);
        (js "keyRotationEnabled", JBool true);
        (js "keyRotationPeriod", number 60);
        (js "accessControl",
         JObject (DEFAULT_accessControl ++ [(js "ipRestriction", JBool true)]));
        (js "integrityVerification",
         JObject (DEFAULT_integrityVerification ++ [(js "checkInterval", number 12)])) ]
  | maximum =>
      [ (js "multiLayerEncryption", JBool true);
        (js "keyRotationEnabled", JBool true);
        (js "keyRotationPeriod", number 30);
        (js "accessControl",
         JObject (DEFAULT_accessControl
                    ++ [(js "ipRestriction", JBool true);
                        (js "timeLimitedAccess", JBool true)]));
        (js "integrityVerification",
         JObject (DEFAULT_integrityVerification
                    ++ [(js "checkInterval", number 6);
                        (js "merkleProofVerification", JBool true)]));
        (js "secureKeyStorage",
         JObject [ (js "splitKey", JBool true);
                   (js "thresholdShares", number 3);
                   (js "totalShares", number 5) ]) ]
  end.

(** Whether a value is truthy. *)
Definition truthy (v : option JSONValue) : bool :=
  match v with
  | None | Some JNull => false
  | Some (JBool b) => b
  | Some (JNumber d) =>
      match d with
      | S754_zero _ | S754_nan => false
      | _ => true
      end
  | Some (JString s) => negb (Nat.eqb (length s) 0)
  | Some (JArray _) | Some (JObject _) => true
  end.

(** [v || {}] *)
Definition or_empty (v : option JSONValue) : option JSONValue :=
  if truthy v then v else Some (JObject []).

Section Security.
Context {P : Platform}.

(** [loadSecuritySettings()]; [stored] is the outcome of
    [localStorage.getItem("security-settings")], [Ok None] for [null]. *)
Definition loadSecuritySettings (stored : Result (option jsstring)) : M Obj :=
  try_catch
    (storedSettings <- lift stored ;;
     match storedSettings with
     | None | Some [] => ret DEFAULT_SECURITY_SETTINGS
     | Some text =>
         parsedSettings <- lift (JSON_parse text) ;;
         accessControl <- lift (getProperty parsedSettings (js "accessControl")) ;;
         integrityVerification <-
           lift (getProperty parsedSettings (js "integrityVerification")) ;;
         secureKeyStorage <- lift (getProperty parsedSettings (js "secureKeyStorage")) ;;
         ret (DEFAULT_SECURITY_SETTINGS
                ++ ownProperties (Some parsedSettings)
                ++ [ (js "accessControl",
                      JObject (DEFAULT_accessControl ++ ownProperties accessControl));
                     (js "integrityVerification",
                      JObject (DEFAULT_integrityVerification
                                 ++ ownProperties integrityVerification));
                     (js "secureKeyStorage",
                      JObject (DEFAULT_secureKeyStorage
                                 ++ ownProperties secureKeyStorage)) ])
     end)
    (fun error => console_error ;;; ret DEFAULT_SECURITY_SETTINGS).

(** The settings [applySecurityLevel(level)] computes and returns.  The
    call [saveSecuritySettings(newSettings)] in between, which writes them
    to the store and to the audit log, does not bear on the value returned
    and is not part of this definition. *)
Definition applySecurityLevel (stored : Result (option jsstring))
    (level : SecurityLevel) : M Obj :=
  baseSettings <- loadSecuritySettings stored ;;
  let levelSettings := SECURITY_LEVEL_SETTINGS level in
  let part (name : jsstring) :=
    (name,
     JObject (ownProperties (read baseSettings name)
                ++ ownProperties (or_empty (read levelSettings name)))) in
  ret (baseSettings ++ levelSettings
         ++ [ part (js "accessControl");
              part (js "integrityVerification");
              part (js "secureKeyStorage") ]).

(** SameValueZero of an array element and the value looked for. *)
Definition sameValueZero (a : JSONValue) (b : option JSONValue) : bool :=
  match a, b with
  | JNull, Some JNull => true
  | JBool x, Some (JBool y) => Bool.eqb x y
  | JString x, Some (JString y) => jsstring_eqb x y
  | JNumber x, Some (JNumber y) =>
      match x, y with
      | S754_nan, S754_nan => true
      | _, _ => SFeqb x y
      end
  | _, _ => false
  end.

(** [checkIpRestriction(allowedIps)]; [lookup] is the outcome of fetching
    the address service, reading the response as JSON and taking its [ip]
    property. *)
Definition checkIpRestriction (allowedIps : list JSONValue)
    (lookup : Result (option JSONValue)) : M bool :=
  try_catch
    (userIp <- lift lookup ;;
     ret (existsb (fun allowed => sameValueZero allowed userIp) allowedIps
          || Nat.eqb (length allowedIps) 0))
    (fun error => console_error ;;; ret true).

End Security.
End Security.

(* ================================================================= *)
(** ** A test platform that parses JSON objects

    The test platform above with a [JSON.parse] for a subset of JSON:
    objects, arrays, strings without escapes, integers, [true], [false]
    and [null]. *)

Module FakeJSON.

Fixpoint json_ws (s : jsstring) : jsstring :=
  match s with
  | c :: rest =>
      if (c =? 0x20) || (c =? 0x09) || (c =? 0x0A) || (c =? 0x0D) then json_ws rest
      else s
  | [] => []
  end.

Definition strip_prefix (prefix s : jsstring) : option jsstring :=
  if jsstring_eqb (firstn (length prefix) s) prefix
  then Some (skipn (length prefix) s) else None.

Fixpoint take_string (s acc : jsstring) : option (jsstring * jsstring) :=
  match s with
  | [] => None
  | c :: rest =>
      if c =? 0x22 then Some (rev acc, rest)
      else if (c =? 0x5C) || (c <? 0x20) then None
      else take_string rest (c :: acc)
  end.

Fixpoint take_digits (s : jsstring) (acc : N) (digits : nat) : N * nat * jsstring :=
  match s with
  | c :: rest =>
      if (48 <=? c) && (c <=? 57) then take_digits rest (acc * 10 + (c - 48)) (S digits)
      else (acc, digits, s)
  | [] => (acc, digits, [])
  end.

Definition take_number (s : jsstring) : option (JSONValue * jsstring) :=
  let '(negative, body) :=
    match s with
    | c :: rest => if c =? 45 then (true, rest) else (false, s)
    | [] => (false, s)
    end in
  match take_digits body 0 0 with
  | (_, O, _) => None
  | (n, _, rest) =>
      Some (JNumber (double_of_Z (if negative then - Z.of_N n else Z.of_N n)), rest)
  end.

Definition take_literal (s : jsstring) : option (JSONValue * jsstring) :=
  match strip_prefix (js "null") s with
  | Some rest => Some (JNull, rest)
  | None =>
      match strip_prefix (js "true") s with
      | Some rest => Some (JBool true, rest)
      | None =>
          match strip_prefix (js "false") s with
          | Some rest => Some (JBool false, rest)
          | None => take_number s
          end
      end
  end.

Fixpoint parse_value (fuel : nat) (s : jsstring) : option (JSONValue * jsstring) :=
  match fuel with
  | O => None
  | S f =>
      match json_ws s with
      | [] => None
      | c :: rest =>
          if c =? 0x22 then
            match take_string rest [] with
            | Some (text, rest') => Some (JString text, rest')
            | None => None
            end
          else if c =? 0x5B then
            match json_ws rest with
            | d :: rest' =>
                if d =? 0x5D then Some (JArray [], rest') else parse_items f rest []
            | [] => None
            end
          else if c =? 0x7B then
            match json_ws rest with
            | d :: rest' =>
                if d =? 0x7D then Some (JObject [], rest') else parse_members f rest []
            | [] => None
            end
          else take_literal (c :: rest)
      end
  end
with parse_items (fuel : nat) (s : jsstring) (acc : list JSONValue)
    : option (JSONValue * jsstring) :=
  match fuel with
  | O => None
  | S f =>
      match parse_value f s with
      | Some (v, rest) =>
          match json_ws rest with
          | c :: rest' =>
              if c =? 0x2C then parse_items f rest' (v :: acc)
              else if c =? 0x5D then Some (JArray (rev (v :: acc)), rest')
              else None
          | [] => None
          end
      | None => None
      end
  end
with parse_members (fuel : nat) (s : jsstring) (acc : list (jsstring * JSONValue))
    : option (JSONValue * jsstring) :=
  match fuel with
  | O => None
  | S f =>
      match json_ws s with
      | c :: rest =>
          if c =? 0x22 then
            match take_string rest [] with
            | Some (key, rest1) =>
                match json_ws rest1 with
                | colon :: rest2 =>
                    if colon =? 0x3A then
                      match parse_value f rest2 with
                      | Some (v, rest3) =>
                          match json_ws rest3 with
                          | d :: rest4 =>
                              if d =? 0x2C then parse_members f rest4 ((key, v) :: acc)
                              else if d =? 0x7D
                              then Some (JObject (rev ((key, v) :: acc)), rest4)
                              else None
                          | [] => None
                          end
                      | None => None
                      end
                    else None
                | [] => None
                end
            | None => None
            end
          else None
      | [] => None
      end
  end.

Definition parse_json (text : jsstring) : Result JSONValue :=
  match parse_value (S (length text)) text with
  | Some (v, rest) =>
      match json_ws rest with
      | [] => Ok v
      | _ => Throw (Engine JSONSyntaxError)
      end
  | None => Throw (Engine JSONSyntaxError)
  end.

Definition platform : Platform := {|
  entropy := Fake.fake_entropy;
  CryptoKey := Fake.Key;
  subtle_importKey := Fake.fake_importKey;
  subtle_encrypt := Fake.fake_encrypt;
  subtle_decrypt := Fake.fake_decrypt;
  subtle_digest := Fake.fake_digest;
  JSON_parse := parse_json;
  float_toString := Fake.fake_float_toString;
  StringToNumber := Fake.fake_StringToNumber;
  uuid_format := toHex;
  toISOString := decimalZ;
  engine_message := fun _ => js "operation failed"
|}.

End FakeJSON.

(* ================================================================= *)
(** ** Sample stored settings *)

Module SecuritySamples.

(** The stored text [{"accessControl":{"allowedIPs":["10.0.0.1"]}}]. *)
Definition stored_allow_list : jsstring :=
  js "{" ++ json_quote (js "accessControl") ++ js ":{" ++ json_quote (js "allowedIPs")
    ++ js ":[" ++ json_quote (js "10.0.0.1") ++ js "]}}".

End SecuritySamples.

(* ================================================================= *)
(** * Properties *)

(** ** Strings and bytes *)

Lemma jsstring_eqb_eq (a b : jsstring) : jsstring_eqb a b = true <-> a = b.
Proof.
  unfold jsstring_eqb. destruct (list_eq_dec N.eq_dec a b); split; congruence.
Qed.

Lemma jsstring_eqb_refl (a : jsstring) : jsstring_eqb a a = true.
Proof. now apply jsstring_eqb_eq. Qed.

Lemma to_N_lt_256 (b : byte) : Byte.to_N b < 256.
Proof. pose proof (Byte.to_N_bounded b). lia. Qed.

Lemma u8_to_N (b : byte) : u8 (Byte.to_N b) = b.
Proof.
  unfold u8. rewrite N.mod_small by apply to_N_lt_256.
  now rewrite Byte.of_to_N.
Qed.

Lemma to_N_u8 (n : N) : Byte.to_N (u8 n) = n mod 256.
Proof.
  unfold u8. destruct (Byte.of_N (n mod 256)) eqn:E.
  - now apply Byte.to_of_N in E.
  - apply Byte.of_N_None_iff in E. pose proof (N.mod_lt n 256). lia.
Qed.

Lemma to_N_u8_small (n : N) : n < 256 -> Byte.to_N (u8 n) = n.
Proof. intros H. rewrite to_N_u8. now apply N.mod_small. Qed.

Lemma charCodes_fromCharCodes (bs : list byte) : charCodes (fromCharCodes bs) = bs.
Proof.
  unfold charCodes, fromCharCodes. rewrite map_map.
  induction bs as [|b bs IH]; simpl; [reflexivity|].
  now rewrite u8_to_N, IH.
Qed.

(* ================================================================= *)
(** ** Merkle integrity engine *)

Module MerkleFacts.
Import Merkle.

Lemma nextLevel_length :
  forall level, (2 * length (nextLevel level) <= length level + 1)%nat.
Proof.
  fix IH 1. intros [|a [|b rest]]; simpl; try lia.
  specialize (IH rest). lia.
Qed.

Lemma buildTree_enough_fuel :
  forall fuel level tree,
    (length level <= S fuel)%nat ->
    exists t, buildTree fuel level tree = Some t.
Proof.
  induction fuel as [|f IH]; intros level tree Hlen; simpl.
  - destruct (Nat.leb_spec (length level) 1); [eauto | lia].
  - destruct (Nat.leb_spec (length level) 1); [eauto |].
    apply IH. pose proof (nextLevel_length level). lia.
Qed.

(** The [while] loop of [generateMerkleTree] always ends: the function
    returns for every chunk list. *)
Lemma generateMerkleTree_total (chunks : list (list byte)) :
  exists r, generateMerkleTree chunks = Some r.
Proof.
  unfold generateMerkleTree.
  destruct (buildTree_enough_fuel (length (map leafHash chunks))
              (map leafHash chunks) [map leafHash chunks]) as [t Ht]; [lia|].
  rewrite Ht. eauto.
Qed.

(** [proofs.length == chunks.length]. *)
Lemma generateMerkleTree_proofs_length (chunks : list (list byte)) r :
  generateMerkleTree chunks = Some r -> length (proofs r) = length chunks.
Proof.
  unfold generateMerkleTree.
  destruct (buildTree _ _ _); [|discriminate].
  intros [= <-]. simpl. now rewrite length_map, length_seq, length_map.
Qed.

(** A single chunk is its own root and verifies with the empty proof. *)
Lemma single_chunk_verifies (chunk : list byte) :
  generateMerkleTree [chunk]
    = Some {| root := Some (leafHash chunk); proofs := [[]] |}
  /\ verifyMerkleProof chunk [] (leafHash chunk) = true.
Proof.
  split; [reflexivity|].
  unfold verifyMerkleProof. simpl. apply jsstring_eqb_refl.
Qed.

Lemma nextLevel_nonempty level : level <> [] -> nextLevel level <> [].
Proof. destruct level as [|a [|b rest]]; simpl; congruence. Qed.

(** Along the leftmost path the fold of [verifyMerkleProof] retraces
    [nextLevel]: the accumulated hash is always the left operand. *)
Lemma buildTree_leftmost :
  forall fuel level tree t,
    buildTree fuel level tree = Some t ->
    level <> [] ->
    exists ups,
      t = ups ++ tree /\
      hd [] (ups ++ [level]) <> [] /\
      fold_left combine (proofWalk (rev (tl (ups ++ [level]))) 0) (nth 0 level [])
        = nth 0 (hd [] (ups ++ [level])) [].
Proof.
  induction fuel as [|f IH]; intros level tree t Hb Hne; simpl in Hb.
  - destruct (Nat.leb_spec (length level) 1); [|discriminate].
    injection Hb as <-. exists []. simpl. auto.
  - destruct (Nat.leb_spec (length level) 1) as [Hle|Hgt].
    + injection Hb as <-. exists []. simpl. auto.
    + destruct (IH _ _ _ Hb (nextLevel_nonempty level Hne)) as (ups & -> & Hhd & Hfold).
      exists (ups ++ [nextLevel level]).
      rewrite <- !app_assoc. simpl.
      assert (Htl : tl (ups ++ [nextLevel level; level])
                    = tl (ups ++ [nextLevel level]) ++ [level]).
      { destruct ups; simpl; [reflexivity|]. now rewrite <- app_assoc. }
      assert (Hh : hd [] (ups ++ [nextLevel level; level])
                   = hd [] (ups ++ [nextLevel level])).
      { destruct ups; reflexivity. }
      rewrite Htl, Hh, rev_app_distr. simpl.
      destruct level as [|a [|b rest]]; simpl in Hgt; try lia.
      repeat split; auto.
Qed.

(** What does hold: for every non-empty chunk list the leftmost leaf
    verifies against the generated root with its generated proof. *)
Lemma leftmost_leaf_verifies (chunk : list byte) (others : list (list byte)) :
  exists r rootHash proof,
    generateMerkleTree (chunk :: others) = Some r /\
    root r = Some rootHash /\
    nth_error (proofs r) 0 = Some proof /\
    verifyMerkleProof chunk proof rootHash = true.
Proof.
  unfold generateMerkleTree.
  set (leaves := map leafHash (chunk :: others)).
  destruct (buildTree_enough_fuel (length leaves) leaves [leaves]) as [t Ht]; [lia|].
  rewrite Ht.
  destruct (buildTree_leftmost _ _ _ _ Ht) as (ups & -> & Hhd & Hfold);
    [subst leaves; discriminate|].
  destruct (hd [] (ups ++ [leaves])) as [|top tops] eqn:Etop; [congruence|].
  eexists _, top, _. split; [reflexivity|]. cbn [root proofs].
  split; [reflexivity|]. split; [reflexivity|].
  unfold verifyMerkleProof. apply jsstring_eqb_eq.
  exact Hfold.
Qed.

(** C1 (defect): on the two one-byte chunks [0x00] and [0x01] the tree has
    root "34323433" and the proofs ["43"] and ["42"]; the proof of the left
    leaf verifies, while [verifyMerkleProof] rejects the right leaf with its
    own generated proof, because it always folds [hash + sibling] whereas the
    tree was built from [left + right]. *)
Theorem merkle_right_leaf_rejected :
  generateMerkleTree [[x00]; [x01]]
    = Some {| root := Some (js "34323433");
              proofs := [[js "43"]; [js "42"]] |}
  /\ verifyMerkleProof [x00] [js "43"] (js "34323433") = true
  /\ verifyMerkleProof [x01] [js "42"] (js "34323433") = false.
Proof. repeat split; vm_compute; reflexivity. Qed.

End MerkleFacts.

(* ================================================================= *)
(** ** Secret splitter / combiner *)

Module ShamirFacts.
Import Shamir.

Section WithPlatform.
Context {P : Platform}.

Lemma drawCoefficients_ok :
  forall n w, exists cs w',
    drawCoefficients n w = (Ok cs, w') /\ length cs = n.
Proof.
  induction n as [|n IH]; intros w; simpl.
  - eexists _, _. split; reflexivity.
  - unfold bind at 1. simpl.
    match goal with |- context [bind _ _ ?w1] =>
      destruct (IH w1) as (cs & w' & Hcs & Hlen) end.
    unfold bind. rewrite Hcs. simpl.
    eexists _, _. split; [reflexivity|]. simpl. now rewrite Hlen.
Qed.

(** [splitKey] always returns, with [numShares] shares. *)
Lemma splitKey_ok (secret : jsstring) (numShares threshold : Z) (w : World) :
  exists shares w',
    splitKey secret numShares threshold w = (Ok shares, w')
    /\ length shares = Z.to_nat numShares.
Proof.
  unfold splitKey, bind.
  destruct (drawCoefficients_ok (Z.to_nat (threshold - 1)) w) as (cs & w' & -> & _).
  eexists _, _. split; [reflexivity|].
  now rewrite length_map, length_seq.
Qed.

(** The shares are a function of the number [secretValue] alone. *)
Lemma splitKey_secretValue (s1 s2 : jsstring) (numShares threshold : Z) (w : World) :
  secretValue s1 = secretValue s2 ->
  splitKey s1 numShares threshold w = splitKey s2 numShares threshold w.
Proof. intros H. unfold splitKey. now rewrite H. Qed.

Lemma point_at_firstn (points : list Point) (t j : nat) :
  (j < t)%nat -> point_at (firstn t points) j = point_at points j.
Proof.
  intros H. unfold point_at.
  replace (nth_error (firstn t points) j) with (nth_error points j); [reflexivity|].
  revert t j H. induction points as [|p ps IH]; intros [|t] [|j] H; simpl;
    try reflexivity; try lia.
  apply IH. lia.
Qed.

Lemma lagrangeTerm_firstn (points : list Point) (t : nat) (pi : Point) (i : nat) :
  forall n j term,
    (j + n <= t)%nat ->
    lagrangeTerm (firstn t points) pi i j n term = lagrangeTerm points pi i j n term.
Proof.
  induction n as [|n IH]; intros j term H; simpl; [reflexivity|].
  destruct (Nat.eqb i j).
  - apply IH. lia.
  - rewrite point_at_firstn by lia.
    destruct (point_at points j); try reflexivity.
    apply IH. lia.
Qed.

Lemma interpolate_firstn (points : list Point) (t : nat) :
  forall n i secret,
    (i + n <= t)%nat ->
    interpolate (firstn t points) t i n secret = interpolate points t i n secret.
Proof.
  induction n as [|n IH]; intros i secret H; simpl; [reflexivity|].
  rewrite point_at_firstn by lia.
  destruct (point_at points i) as [pi| |]; try reflexivity.
  rewrite lagrangeTerm_firstn by lia.
  destruct (lagrangeTerm points pi i 0 t (py pi)); try reflexivity.
  apply IH. lia.
Qed.

Lemma secretBytes_loop_enough :
  forall fuel z, (z < 2 ^ Z.of_nat fuel)%Z ->
  exists bs, secretBytes_loop fuel z = Some bs.
Proof.
  induction fuel as [|f IH]; intros z Hz; simpl secretBytes_loop.
  - destruct (Z.ltb_spec 0 z); [|eauto]. simpl in Hz. lia.
  - destruct (Z.ltb_spec 0 z); [|eauto].
    destruct (IH (z / 256)%Z) as [bs Hbs].
    + rewrite Nat2Z.inj_succ, Z.pow_succ_r in Hz by lia.
      apply Z.div_lt_upper_bound; lia.
    + rewrite Hbs. simpl. eauto.
Qed.

(** The byte loop of [combineShares] ends on every finite number: only a
    sum that is [+Infinity] keeps it pushing, until [push] throws. *)
Lemma secretBytes_returns (r : Rounded) :
  r <> RoundInf false -> exists bs, secretBytes r = Ok bs.
Proof.
  destruct r as [|[|]|z]; intros H; unfold secretBytes; eauto; [congruence|].
  destruct (secretBytes_loop_enough (S (Z.to_nat (Z.log2 z))) z) as [bs ->]; [|eauto].
  destruct (Z.ltb_spec 0 z) as [Hpos|Hneg].
  - pose proof (Z.log2_spec z Hpos) as [_ Hup].
    pose proof (Z.log2_nonneg z).
    rewrite Nat2Z.inj_succ, Z2Nat.id by lia. exact Hup.
  - pose proof (Z.pow_pos_nonneg 2 (Z.of_nat (S (Z.to_nat (Z.log2 z))))). lia.
Qed.

(** C5: with fewer than [threshold] shares [combineShares] throws the
    "Not enough shares" error, naming the threshold and the number of
    shares it got, and computes nothing. *)
Theorem combineShares_insufficient (shares : list jsstring) (threshold : Z) :
  (Z.of_nat (length shares) < threshold)%Z ->
  combineShares shares threshold
    = Throw (Error (js "Not enough shares. Need at least "
                      ++ Number_toString (double_of_Z threshold)
                      ++ js ", but got "
                      ++ Number_toString (double_of_Z (Z.of_nat (length shares))))).
Proof.
  intros H. unfold combineShares.
  apply Z.ltb_lt in H. rewrite H. reflexivity.
Qed.

(** C10: with at least [threshold] shares, [combineShares] reads only the
    first [threshold] of them. *)
Theorem combineShares_first_shares (shares : list jsstring) (threshold : Z) :
  (threshold <= Z.of_nat (length shares))%Z ->
  combineShares shares threshold
    = combineShares (firstn (Z.to_nat threshold) shares) threshold.
Proof.
  intros H. unfold combineShares.
  assert (H1 : (Z.of_nat (length shares) <? threshold)%Z = false)
    by (apply Z.ltb_ge; lia).
  assert (H2 : (Z.of_nat (length (firstn (Z.to_nat threshold) shares)) <? threshold)%Z = false).
  { apply Z.ltb_ge. rewrite length_firstn. lia. }
  rewrite H1, H2, <- firstn_map.
  rewrite interpolate_firstn by lia.
  reflexivity.
Qed.

(** C4 (defect): the two 32-character keys below differ only in their
    first character, yet [splitKey] turns them into the same number and
    therefore into the same five shares, whatever the random
    coefficients; no selection of shares can then give back both of
    them. *)
Theorem splitKey_cannot_reconstruct (w : World)
    (pick : list jsstring -> list jsstring) :
  let s1 := js "00112233445566778899aabbccddeeff" in
  let s2 := js "10112233445566778899aabbccddeeff" in
  s1 <> s2 /\
  secretValue s1 = secretValue s2 /\
  exists shares w',
    splitKey s1 5 3 w = (Ok shares, w') /\
    splitKey s2 5 3 w = (Ok shares, w') /\
    length shares = 5%nat /\
    ~ (combineShares (pick shares) 3 = Ok s1 /\ combineShares (pick shares) 3 = Ok s2).
Proof.
  intros s1 s2.
  assert (Hne : s1 <> s2) by (vm_compute; discriminate).
  assert (Hv : secretValue s1 = secretValue s2) by (vm_compute; reflexivity).
  split; [exact Hne|]. split; [exact Hv|].
  destruct (splitKey_ok s1 5 3 w) as (shares & w' & Hs & Hlen).
  exists shares, w'. split; [exact Hs|].
  split; [rewrite <- (splitKey_secretValue s1 s2 5 3 w Hv); exact Hs|].
  split; [exact Hlen|].
  intros [H1 H2]. rewrite H1 in H2. apply Hne. congruence.
Qed.

End WithPlatform.

(** On the test platform: the five shares of the sample key and what the
    first three of them combine to, 25 NUL characters followed by the last
    seven characters of the key. *)
Lemma combineShares_sample_key :
  exists shares w',
    splitKey (P := Fake.platform) (js "00112233445566778899aabbccddeeff") 5 3
      Fake.world0 = (Ok shares, w')
    /\ combineShares (P := Fake.platform) (firstn 3 shares) 3
       = Ok (repeat 0 25 ++ js "dddeeff").
Proof.
  eexists _, _. split; [vm_compute; reflexivity|].
  vm_compute. reflexivity.
Qed.

(** A secret of six bytes does survive the trip on the test platform. *)
Lemma combineShares_short_secret :
  exists shares w',
    splitKey (P := Fake.platform) (js "secret") 5 3 Fake.world0 = (Ok shares, w')
    /\ combineShares (P := Fake.platform) (skipn 2 shares) 3 = Ok (js "secret").
Proof.
  eexists _, _. split; [vm_compute; reflexivity|].
  vm_compute. reflexivity.
Qed.

Lemma combineShares_insufficient_witness :
  (Z.of_nat (length [js "1:5"; js "2:7"]) < 3)%Z /\
  combineShares (P := Fake.platform) [js "1:5"; js "2:7"] 3
    = Throw (Error (js "Not enough shares. Need at least "
                      ++ Number_toString (P := Fake.platform) (double_of_Z 3)
                      ++ js ", but got "
                      ++ Number_toString (P := Fake.platform)
                           (double_of_Z (Z.of_nat (length [js "1:5"; js "2:7"]))))).
Proof.
  split.
  - simpl. lia.
  - apply (combineShares_insufficient (P := Fake.platform)). simpl. lia.
Defined.

Lemma combineShares_first_shares_witness :
  (2 <= Z.of_nat (length [js "1:5"; js "2:7"; js "3:9"]))%Z /\
  combineShares (P := Fake.platform) [js "1:5"; js "2:7"; js "3:9"] 2
    = combineShares (P := Fake.platform)
        (firstn (Z.to_nat 2) [js "1:5"; js "2:7"; js "3:9"]) 2.
Proof.
  split.
  - simpl. lia.
  - apply (combineShares_first_shares (P := Fake.platform)). simpl. lia.
Defined.

End ShamirFacts.

(* ================================================================= *)
(** ** Hex keys *)

Module KeyFacts.
Import KeySpec.

Lemma hex_digit_cases (c : N) :
  is_hex_digit c = true -> In c (js "0123456789abcdefABCDEF").
Proof.
  unfold is_hex_digit, hex_value. intros H.
  destruct (N.leb_spec 48 c), (N.leb_spec c 57), (N.leb_spec 97 c),
    (N.leb_spec c 102), (N.leb_spec 65 c), (N.leb_spec c 70);
    simpl in H; try discriminate; cbv [js list_ascii_of_string map N_of_ascii N_of_digits In N.add N.mul]; lia.
Qed.

Lemma hex_digit_not_terminator (c : N) :
  is_hex_digit c = true -> is_line_terminator c = false.
Proof.
  intros H. apply hex_digit_cases in H. simpl in H.
  repeat destruct H as [<-|H]; try reflexivity. contradiction.
Qed.

(** [parseInt] of a chunk of two hex digits is the byte they spell. *)
Lemma parse_two_digits (a b : N) :
  is_hex_digit a = true -> is_hex_digit b = true ->
  toUint8 (parseInt16 [a; b]) = u8 (16 * digit_value a + digit_value b).
Proof.
  intros Ha Hb. apply hex_digit_cases in Ha, Hb. simpl in Ha, Hb.
  repeat destruct Ha as [<-|Ha]; try contradiction;
    repeat destruct Hb as [<-|Hb]; try contradiction; vm_compute; reflexivity.
Qed.

Lemma chunks_of_hex :
  forall s, forallb is_hex_digit s = true -> Nat.even (length s) = true ->
  map (fun chunk => toUint8 (parseInt16 chunk)) (chunk_pairs s) = bytes_of_hex s.
Proof.
  fix IH 1. intros [|a [|b rest]] Hhex Heven; try reflexivity.
  - discriminate.
  - cbn [forallb] in Hhex.
    apply andb_true_iff in Hhex as [Ha Hhex].
    apply andb_true_iff in Hhex as [Hb Hhex].
    cbn [chunk_pairs bytes_of_hex].
    rewrite (hex_digit_not_terminator a Ha), (hex_digit_not_terminator b Hb).
    cbn [map]. rewrite parse_two_digits by assumption.
    f_equal. apply IH; assumption.
Qed.

(** On a non-empty, even-length string of hex digits the source's
    [match]/[parseInt] pipeline is plain hex decoding. *)
Lemma hexToBytes_hex (s : jsstring) :
  forallb is_hex_digit s = true -> Nat.even (length s) = true -> s <> [] ->
  hexToBytes s = Ok (bytes_of_hex s).
Proof.
  intros Hhex Heven Hne. unfold hexToBytes, match_pairs.
  rewrite <- (chunks_of_hex s Hhex Heven).
  destruct s as [|a [|b rest]]; [congruence|discriminate|].
  cbn [forallb] in Hhex.
  apply andb_true_iff in Hhex as [Ha Hhex].
  apply andb_true_iff in Hhex as [Hb Hhex].
  cbn [chunk_pairs].
  rewrite (hex_digit_not_terminator a Ha), (hex_digit_not_terminator b Hb).
  reflexivity.
Qed.

Lemma bytes_of_hex_length :
  forall s, Nat.even (length s) = true -> (2 * length (bytes_of_hex s) = length s)%nat.
Proof.
  fix IH 1. intros [|a [|b rest]] H; try reflexivity; [discriminate|].
  cbn [bytes_of_hex length]. specialize (IH rest H). lia.
Qed.

Lemma test_hex_spec (n : nat) (s : jsstring) :
  test_hex n s = true <-> length s = n /\ forallb is_hex_digit s = true.
Proof.
  unfold test_hex. rewrite andb_true_iff, Nat.eqb_eq. reflexivity.
Qed.

(** A key of 32 hex characters parses to 16 bytes. *)
Lemma hexToBytes_key128 (key : jsstring) :
  test_hex 32 key = true ->
  hexToBytes key = Ok (bytes_of_hex key) /\ length (bytes_of_hex key) = 16%nat.
Proof.
  intros H. apply test_hex_spec in H as [Hlen Hhex].
  assert (Heven : Nat.even (length key) = true) by now rewrite Hlen.
  split.
  - apply hexToBytes_hex; auto. intros ->. discriminate.
  - pose proof (bytes_of_hex_length key Heven). lia.
Qed.

(** A key of 64 hex characters parses to 32 bytes. *)
Lemma hexToBytes_key256 (key : jsstring) :
  test_hex 64 key = true ->
  hexToBytes key = Ok (bytes_of_hex key) /\ length (bytes_of_hex key) = 32%nat.
Proof.
  intros H. apply test_hex_spec in H as [Hlen Hhex].
  assert (Heven : Nat.even (length key) = true) by now rewrite Hlen.
  split.
  - apply hexToBytes_hex; auto. intros ->. discriminate.
  - pose proof (bytes_of_hex_length key Heven). lia.
Qed.

End KeyFacts.

(* ================================================================= *)
(** ** Key derivation of the layer-key bundle *)

Module KeyDerivationFacts.
Import KeySpec KeyFacts MultiLayer.

Section WithPlatform.
Context {P : Platform}.



(** The two hex branches yield exactly 16 bytes. *)
Lemma primaryKeyBytes_hex_length (primaryKey : jsstring) (w : World) :
  hex_chars 32 primaryKey = true \/ hex_chars 64 primaryKey = true ->
  exists key, primaryKeyBytes primaryKey w = (Ok key, w) /\ length key = 16%nat.
Proof.
  unfold primaryKeyBytes. intros [H|H].
  - rewrite H. destruct (hexToBytes_key128 primaryKey H) as [_ Hl].
    eexists. split; [reflexivity | exact Hl].
  - destruct (hex_chars 32 primaryKey) eqn:H32.
    + destruct (hexToBytes_key128 primaryKey H32) as [_ Hl].
      eexists. split; [reflexivity | exact Hl].
    + rewrite H. destruct (hexToBytes_key256 primaryKey H) as [_ Hl].
      eexists. split; [reflexivity|]. rewrite length_firstn. lia.
Qed.

End WithPlatform.
End KeyDerivationFacts.

(* ================================================================= *)
(** ** Base64 *)

Module Base64Facts.
Import Base64Parts.

Ltac euclid := zify; Z.to_euclidean_division_equations; lia.

Lemma base64_char_cases (i : N) :
  i < 64 ->
  In i (map N.of_nat (seq 0 64)).
Proof.
  intros H. apply in_map_iff. exists (N.to_nat i). split; [lia|].
  apply in_seq. lia.
Qed.

Lemma base64_index_char (i : N) :
  i < 64 -> base64_index (base64_char i) = Some i.
Proof.
  intros H. apply base64_char_cases in H. simpl in H.
  repeat destruct H as [<-|H]; try reflexivity. contradiction.
Qed.

Lemma base64_char_plain (i : N) :
  is_ascii_whitespace (base64_char i) = false /\ (base64_char i =? 61) = false.
Proof.
  unfold base64_char, is_ascii_whitespace.
  destruct (i <? 26) eqn:E1; [apply N.ltb_lt in E1|];
  [|destruct (i <? 52) eqn:E2; [apply N.ltb_lt in E2|]];
  [| |destruct (i <? 62) eqn:E3; [apply N.ltb_lt in E3|]];
  [| | |destruct (i =? 62) eqn:E4];
  (split; [repeat (apply orb_false_iff; split)|]; apply N.eqb_neq; lia).
Qed.

Lemma encode_parts :
  forall s, base64_encode s = map base64_char (sextets_of s) ++ padding_of s.
Proof.
  fix IH 1. intros [|a [|b [|c rest]]]; try reflexivity.
  cbn [base64_encode sextets_of padding_of map app]. now rewrite IH.
Qed.

Lemma sextets_small :
  forall s, Forall (fun c => c < 256) s -> Forall (fun x => x < 64) (sextets_of s).
Proof.
  fix IH 1. intros [|a [|b [|c rest]]] H; cbn [sextets_of].
  - constructor.
  - inversion_clear H. repeat constructor; euclid.
  - inversion_clear H as [|? ? Ha H']. inversion_clear H' as [|? ? Hb _].
    repeat constructor; euclid.
  - inversion_clear H as [|? ? Ha H']. inversion_clear H' as [|? ? Hb H''].
    inversion_clear H'' as [|? ? Hc Hrest].
    repeat (constructor; [euclid|]). now apply IH.
Qed.

Lemma decode_sextets :
  forall s, Forall (fun c => c < 256) s -> base64_decode (sextets_of s) = s.
Proof.
  fix IH 1. intros [|a [|b [|c rest]]] H; cbn [sextets_of base64_decode].
  - reflexivity.
  - inversion_clear H. f_equal. euclid.
  - inversion_clear H as [|? ? Ha H']. inversion_clear H' as [|? ? Hb _].
    f_equal; [euclid|]. f_equal. euclid.
  - inversion_clear H as [|? ? Ha H']. inversion_clear H' as [|? ? Hb H''].
    inversion_clear H'' as [|? ? Hc Hrest].
    f_equal; [euclid|]. f_equal; [euclid|]. f_equal; [euclid|]. now apply IH.
Qed.

Lemma indices_of_chars (sx : list N) :
  Forall (fun x => x < 64) sx -> base64_indices (map base64_char sx) = Some sx.
Proof.
  induction 1 as [|x sx Hx _ IH]; simpl; [reflexivity|].
  now rewrite base64_index_char, IH.
Qed.

Lemma sextets_length_mod :
  forall s, (length (sextets_of s) mod 4 <> 1)%nat.
Proof.
  fix IH 1. intros [|a [|b [|c rest]]]; cbn [sextets_of length];
    try (vm_compute; discriminate).
  specialize (IH rest).
  replace (S (S (S (S (length (sextets_of rest))))))
    with (length (sextets_of rest) + 1 * 4)%nat by lia.
  now rewrite Nat.Div0.mod_add.
Qed.

Lemma encode_length_mod :
  forall s, (length (base64_encode s) mod 4 = 0)%nat.
Proof.
  fix IH 1. intros [|a [|b [|c rest]]]; try reflexivity.
  cbn [base64_encode length]. specialize (IH rest).
  replace (S (S (S (S (length (base64_encode rest))))))
    with (length (base64_encode rest) + 1 * 4)%nat by lia.
  now rewrite Nat.Div0.mod_add.
Qed.

Lemma padding_cases (s : list N) :
  padding_of s = [] \/ padding_of s = [61] \/ padding_of s = [61; 61].
Proof.
  revert s. fix IH 1. intros [|a [|b [|c rest]]]; cbn [padding_of]; auto.
Qed.

Lemma encode_no_whitespace (s : list N) :
  filter (fun c => negb (is_ascii_whitespace c)) (base64_encode s) = base64_encode s.
Proof.
  rewrite encode_parts, filter_app. f_equal.
  - induction (sextets_of s) as [|x sx IH]; simpl; [reflexivity|].
    destruct (base64_char_plain x) as [-> _]. simpl. now rewrite IH.
  - destruct (padding_cases s) as [->|[->| ->]]; reflexivity.
Qed.

Lemma strip_padding_encode (s : list N) :
  strip_padding (base64_encode s) = map base64_char (sextets_of s).
Proof.
  rewrite encode_parts. unfold strip_padding. rewrite rev_app_distr.
  set (body := map base64_char (sextets_of s)).
  assert (Hhead : forall c r, rev body = c :: r -> (c =? 61) = false).
  { intros c r Hr.
    assert (Hin : In c body) by (apply in_rev; rewrite Hr; now left).
    apply in_map_iff in Hin as (x & <- & _). apply base64_char_plain. }
  destruct (padding_cases s) as [->|[->| ->]]; simpl.
  - destruct (rev body) as [|c r] eqn:Hr.
    + now rewrite app_nil_r.
    + rewrite (Hhead c r eq_refl). now rewrite app_nil_r.
  - destruct (rev body) as [|c r] eqn:Hr.
    + simpl. apply (f_equal (@rev N)) in Hr. now rewrite rev_involutive in Hr.
    + rewrite (Hhead c r eq_refl). rewrite <- Hr. apply rev_involutive.
  - apply rev_involutive.
Qed.

(** [atob] reads back what [btoa] wrote from bytes. *)
Lemma atob_encode (s : list N) :
  Forall (fun c => c < 256) s -> atob (base64_encode s) = Ok s.
Proof.
  intros H. unfold atob.
  rewrite encode_no_whitespace, encode_length_mod. cbn [Nat.eqb].
  rewrite strip_padding_encode, length_map.
  destruct (Nat.eqb_spec (length (sextets_of s) mod 4) 1) as [E|_].
  - now apply sextets_length_mod in E.
  - rewrite indices_of_chars by now apply sextets_small.
    now rewrite decode_sextets.
Qed.

Lemma fromCharCodes_small (bs : list byte) :
  Forall (fun c => c < 256) (fromCharCodes bs).
Proof.
  unfold fromCharCodes. apply Forall_forall. intros c Hc.
  apply in_map_iff in Hc as (b & <- & _). apply to_N_lt_256.
Qed.

Lemma btoa_bytes (bs : list byte) :
  btoa (fromCharCodes bs) = Ok (base64_encode (fromCharCodes bs)).
Proof.
  unfold btoa.
  replace (forallb (fun c => c <=? 255) (fromCharCodes bs)) with true; [reflexivity|].
  symmetry. apply forallb_forall. intros c Hc.
  pose proof (fromCharCodes_small bs) as H. rewrite Forall_forall in H.
  apply N.leb_le. specialize (H c Hc). lia.
Qed.

(** Base64 round trip on byte buffers, the empty one included. *)
Lemma atob_btoa_bytes (bs : list byte) :
  exists text, btoa (fromCharCodes bs) = Ok text
    /\ atob text = Ok (fromCharCodes bs)
    /\ ~ In 46 text.
Proof.
  eexists. split; [apply btoa_bytes|]. split.
  - apply atob_encode, fromCharCodes_small.
  - rewrite encode_parts. intros Hin. apply in_app_or in Hin as [Hin|Hin].
    + apply in_map_iff in Hin as (x & Hx & _).
      unfold base64_char in Hx.
      destruct (x <? 26) eqn:E1; [apply N.ltb_lt in E1; lia|].
      destruct (x <? 52) eqn:E2; [apply N.ltb_lt in E2; apply N.ltb_ge in E1; lia|].
      destruct (x <? 62) eqn:E3; [apply N.ltb_lt in E3; apply N.ltb_ge in E2; lia|].
      destruct (x =? 62); lia.
    + destruct (padding_cases (fromCharCodes bs)) as [E|[E|E]];
        rewrite E in Hin; simpl in Hin; lia.
Qed.

End Base64Facts.

(* ================================================================= *)
(** ** The test platform satisfies the platform laws *)

Module FakeFacts.
Import Fake KeyFacts.

Lemma u8_of_residue (n : N) (b : byte) : n mod 256 = Byte.to_N b -> u8 n = b.
Proof. intros H. unfold u8. rewrite H. now rewrite Byte.of_to_N. Qed.

Lemma mask_small (key : list byte) (i : nat) : mask key i < 256.
Proof. unfold mask. destruct key; [lia | apply to_N_lt_256]. Qed.

Lemma sub_add_mask (key : list byte) :
  forall data i, sub_mask key i (add_mask key i data) = data.
Proof.
  induction data as [|b rest IH]; intros i; simpl; [reflexivity|].
  rewrite IH. f_equal.
  apply u8_of_residue. rewrite to_N_u8.
  pose proof (mask_small key i). pose proof (to_N_lt_256 b).
  zify; Z.to_euclidean_division_equations; lia.
Qed.

Lemma add_mask_length (key : list byte) :
  forall data i, length (add_mask key i data) = length data.
Proof. induction data; intros i; simpl; auto. Qed.

Lemma bytes_eqb_refl (a : list byte) : bytes_eqb a a = true.
Proof. unfold bytes_eqb. destruct (list_eq_dec Byte.byte_eq_dec a a); congruence. Qed.

Lemma fake_aes_roundtrip (raw iv data : list byte) :
  length raw = 16%nat ->
  exists ke kd ct,
    fake_importKey (js "AES-GCM") raw UseEncrypt = Ok ke /\
    fake_importKey (js "AES-GCM") raw UseDecrypt = Ok kd /\
    fake_encrypt (js "AES-GCM") iv ke data = Ok ct /\
    fake_decrypt (js "AES-GCM") iv kd ct = Ok data.
Proof.
  intros Hraw.
  exists {| raw := raw; usage := UseEncrypt |}, {| raw := raw; usage := UseDecrypt |},
    (add_mask raw 0 data ++ tag raw iv data).
  unfold fake_importKey, fake_encrypt, fake_decrypt.
  rewrite jsstring_eqb_refl, Hraw. cbn [Nat.eqb orb usage Fake.raw].
  repeat split.
  assert (Hlen : length (tag raw iv data) = 16%nat) by reflexivity.
  rewrite length_app, Hlen, add_mask_length.
  destruct (Nat.ltb_spec (length data + 16) 16) as [|_]; [lia|].
  replace (length data + 16 - 16)%nat with (length (add_mask raw 0 data) + 0)%nat
    by (rewrite add_mask_length; lia).
  rewrite firstn_app_2, skipn_app, skipn_all2 by (rewrite add_mask_length; lia).
  rewrite Nat.add_0_r.
  replace (length (add_mask raw 0 data) - length (add_mask raw 0 data))%nat with 0%nat by lia.
  cbn [firstn skipn app]. rewrite app_nil_r, sub_add_mask, bytes_eqb_refl.
  reflexivity.
Qed.

Lemma fake_digest_length (data : list byte) :
  exists h, fake_digest (js "SHA-256") data = Ok h /\ length h = 32%nat.
Proof.
  unfold fake_digest. rewrite jsstring_eqb_refl. eexists. split; [reflexivity|].
  rewrite length_firstn, length_app, repeat_length. lia.
Qed.

Lemma quote_body_hex (k : jsstring) :
  forallb is_hex_digit k = true -> json_quote_body k = k.
Proof.
  induction k as [|c k IH]; intros H; [reflexivity|].
  cbn [forallb] in H. apply andb_true_iff in H as [Hc Hk].
  specialize (IH Hk). apply hex_digit_cases in Hc. simpl in Hc.
  repeat destruct Hc as [<-|Hc]; try contradiction;
    cbn -[json_quote_body]; cbn [json_quote_body]; cbn -[json_quote_body];
    now rewrite IH.
Qed.

Lemma parse_literal (k : jsstring) :
  forallb is_hex_digit k = true ->
  forall acc rest items,
    parse_strings (k ++ 0x22 :: rest) (InString acc) items
    = parse_strings rest AfterString (rev (rev k ++ acc) :: items).
Proof.
  induction k as [|c k IH]; intros H acc rest items.
  - reflexivity.
  - cbn [forallb] in H. apply andb_true_iff in H as [Hc Hk].
    cbn [app parse_strings].
    assert (E1 : (c =? 0x22) = false /\ ((c =? 0x5C) || (c <? 0x20)) = false).
    { apply hex_digit_cases in Hc. simpl in Hc.
      repeat destruct Hc as [<-|Hc]; try contradiction; split; reflexivity. }
    destruct E1 as [-> ->].
    rewrite (IH Hk). cbn [rev]. now rewrite <- app_assoc.
Qed.

Lemma parse_items :
  forall ks k items st,
    st = AfterOpen \/ st = AfterComma ->
    Forall (fun k => forallb is_hex_digit k = true) (k :: ks) ->
    parse_strings (join (js ",") (map json_quote (k :: ks)) ++ js "]") st items
    = Some (rev items ++ k :: ks).
Proof.
  induction ks as [|k2 ks IH]; intros k items st Hst Hall;
    inversion_clear Hall as [|? ? Hk Hks].
  - cbn [map join]. unfold json_quote. rewrite <- !app_assoc.
    rewrite (quote_body_hex k Hk).
    assert (E : parse_strings ([0x22] ++ k ++ [0x22] ++ js "]") st items
                = parse_strings (k ++ 0x22 :: js "]") (InString []) items)
      by (destruct Hst as [-> | ->]; reflexivity).
    rewrite E, (parse_literal k Hk). cbn. now rewrite app_nil_r, rev_involutive.
  - change (map json_quote (k :: k2 :: ks))
      with (json_quote k :: map json_quote (k2 :: ks)).
    change (join (js ",") (json_quote k :: map json_quote (k2 :: ks)))
      with (json_quote k ++ js "," ++ join (js ",") (map json_quote (k2 :: ks))).
    unfold json_quote at 1. rewrite <- !app_assoc.
    rewrite (quote_body_hex k Hk).
    set (tail := join (js ",") (map json_quote (k2 :: ks)) ++ js "]").
    assert (E : parse_strings ([0x22] ++ k ++ [0x22] ++ js "," ++ tail) st items
                = parse_strings (k ++ 0x22 :: js "," ++ tail) (InString []) items)
      by (destruct Hst as [-> | ->]; reflexivity).
    rewrite E, (parse_literal k Hk).
    change (js "," ++ tail) with (0x2C :: tail). cbn [parse_strings N.eqb Pos.eqb].
    subst tail. rewrite (IH k2 _ AfterComma) by auto.
    cbn [rev app]. rewrite app_nil_r, rev_involutive.
    now rewrite <- app_assoc.
Qed.

Lemma fake_json_roundtrip (keys : list jsstring) :
  Forall (fun k => forallb is_hex_digit k = true) keys ->
  fake_JSON_parse (JSON_stringify keys) = Ok (JArray (map JString keys)).
Proof.
  intros H. unfold fake_JSON_parse, JSON_stringify.
  destruct keys as [|k ks].
  - reflexivity.
  - set (body := join (js ",") (map json_quote (k :: ks)) ++ js "]").
    change (js "[" ++ body) with (0x5B :: body).
    change (parse_strings (0x5B :: body) AtStart [])
      with (parse_strings body AfterOpen []).
    subst body.
    pose proof (parse_items ks k [] AfterOpen (or_introl eq_refl) H) as E.
    match goal with
    | |- match ?parsed with _ => _ end = _ =>
        replace parsed with (Some (k :: ks)) by (symmetry; exact E)
    end.
    reflexivity.
Qed.

(** The test platform is a model of the platform laws. *)
Lemma laws : PlatformLaws Fake.platform.
Proof.
  constructor.
  - intros raw iv data Hraw _. exact (fake_aes_roundtrip raw iv data Hraw).
  - exact fake_digest_length.
  - exact fake_json_roundtrip.
Defined.

End FakeFacts.

(* ================================================================= *)
(** ** Hex rendering, ASCII text and [split] *)

Module CodecFacts.
Import KeySpec KeyFacts.

(** A byte is rendered as the two hex digits that spell it. *)
Lemma hex2_spec (b : byte) :
  exists hi lo,
    hex2 b = [hi; lo] /\ is_hex_digit hi = true /\ is_hex_digit lo = true
    /\ u8 (16 * digit_value hi + digit_value lo) = b.
Proof. destruct b; eexists _, _; repeat split. Qed.

Lemma toHex_digits (bs : list byte) : forallb is_hex_digit (toHex bs) = true.
Proof.
  unfold toHex. induction bs as [|b bs IH]; [reflexivity|].
  destruct (hex2_spec b) as (hi & lo & E & Hhi & Hlo & _).
  cbn [map concat]. rewrite E. cbn [app forallb]. now rewrite Hhi, Hlo, IH.
Qed.

Lemma toHex_length (bs : list byte) : length (toHex bs) = (2 * length bs)%nat.
Proof.
  unfold toHex. induction bs as [|b bs IH]; [reflexivity|].
  destruct (hex2_spec b) as (hi & lo & E & _).
  cbn [map concat]. rewrite E. cbn [app length]. rewrite IH. lia.
Qed.

Lemma bytes_of_toHex (bs : list byte) : bytes_of_hex (toHex bs) = bs.
Proof.
  unfold toHex. induction bs as [|b bs IH]; [reflexivity|].
  destruct (hex2_spec b) as (hi & lo & E & _ & _ & Hb).
  cbn [map concat]. rewrite E. cbn [app bytes_of_hex]. now rewrite Hb, IH.
Qed.

(** Parsing the hex rendering of a non-empty buffer gives the buffer back. *)
Lemma hexToBytes_toHex (bs : list byte) :
  bs <> [] -> hexToBytes (toHex bs) = Ok bs.
Proof.
  intros Hne. rewrite hexToBytes_hex.
  - now rewrite bytes_of_toHex.
  - apply toHex_digits.
  - rewrite toHex_length. now rewrite Nat.even_mul.
  - intros E. apply (f_equal (@length N)) in E. rewrite toHex_length in E.
    destruct bs; [congruence | simpl in E; lia].
Qed.

Lemma encode_ascii (s : jsstring) :
  Forall (fun c => c < 128) s -> TextEncoder_encode s = map u8 s.
Proof.
  induction 1 as [|c s Hc _ IH]; [reflexivity|].
  cbn [TextEncoder_encode map]. unfold is_high_surrogate, is_low_surrogate, utf8_bytes.
  destruct (N.leb_spec 0xD800 c); [lia|].
  destruct (N.leb_spec 0xDC00 c); [lia|].
  destruct (N.ltb_spec c 0x80); [|lia].
  cbn [andb app]. now rewrite IH.
Qed.

Lemma utf8_run_ascii (s : jsstring) :
  Forall (fun c => c < 128) s -> utf8_run (map u8 s) None = s.
Proof.
  induction 1 as [|c s Hc _ IH]; [reflexivity|].
  cbn [map utf8_run]. rewrite to_N_u8_small by lia.
  unfold utf8_lead. destruct (N.leb_spec c 0x7F); [|lia].
  now rewrite IH.
Qed.

Lemma units_ascii (s : jsstring) :
  Forall (fun c => c < 128) s -> flat_map utf16_units s = s.
Proof.
  induction 1 as [|c s Hc _ IH]; [reflexivity|].
  change (flat_map utf16_units (c :: s))
    with (utf16_units c ++ flat_map utf16_units s).
  rewrite IH. unfold utf16_units.
  destruct (N.ltb_spec c 0x10000); [reflexivity|lia].
Qed.

(** UTF-8 round trip on ASCII text. *)
Lemma decode_encode_ascii (s : jsstring) :
  Forall (fun c => c < 128) s -> TextDecoder_decode (TextEncoder_encode s) = s.
Proof.
  intros H. rewrite (encode_ascii s H). unfold TextDecoder_decode.
  assert (Hbody : match map u8 s with
                  | b1 :: b2 :: b3 :: rest =>
                      if (Byte.to_N b1 =? 0xEF) && (Byte.to_N b2 =? 0xBB)
                         && (Byte.to_N b3 =? 0xBF)
                      then rest else map u8 s
                  | _ => map u8 s
                  end = map u8 s).
  { destruct s as [|c1 [|c2 [|c3 s']]]; try reflexivity.
    cbn [map]. inversion_clear H as [|? ? H1 _].
    rewrite to_N_u8_small by lia.
    destruct (N.eqb_spec c1 0xEF); [lia | reflexivity]. }
  rewrite Hbody, (utf8_run_ascii s H). now apply units_ascii.
Qed.

Lemma hex_digit_ascii (c : N) : is_hex_digit c = true -> c < 128.
Proof.
  intros H. apply hex_digit_cases in H. simpl in H.
  repeat destruct H as [<-|H]; try contradiction; reflexivity.
Qed.

Lemma stringify_ascii (keys : list jsstring) :
  Forall (fun k => forallb is_hex_digit k = true) keys ->
  Forall (fun c => c < 128) (JSON_stringify keys).
Proof.
  intros H. unfold JSON_stringify.
  apply Forall_app. split; [repeat constructor|].
  apply Forall_app. split; [|repeat constructor].
  induction H as [|k keys Hk Hkeys IH]; [constructor|].
  assert (Hq : Forall (fun c => c < 128) (json_quote k)).
  { unfold json_quote. rewrite (FakeFacts.quote_body_hex k Hk).
    apply Forall_app. split; [repeat constructor|].
    apply Forall_app. split; [|repeat constructor].
    apply Forall_forall. intros c Hc. apply hex_digit_ascii.
    rewrite forallb_forall in Hk. now apply Hk. }
  destruct keys as [|k2 keys']; [exact Hq|].
  change (join (js ",") (map json_quote (k :: k2 :: keys')))
    with (json_quote k ++ js "," ++ join (js ",") (map json_quote (k2 :: keys'))).
  apply Forall_app. split; [exact Hq|].
  apply Forall_app. split; [repeat constructor | exact IH].
Qed.

Lemma split_on_absent (sep : N) (s : jsstring) :
  ~ In sep s -> Shamir.split_on sep s = [s].
Proof.
  induction s as [|c s IH]; intros H; [reflexivity|].
  cbn [Shamir.split_on].
  destruct (N.eqb_spec c sep) as [->|_]; [exfalso; apply H; now left|].
  rewrite IH by (intros Hin; apply H; now right). reflexivity.
Qed.

(** [(a + "." + b).split(".")] is [[a, b]] when neither part has a dot. *)
Lemma split_on_two (sep : N) (a b : jsstring) :
  ~ In sep a -> ~ In sep b ->
  Shamir.split_on sep (a ++ sep :: b) = [a; b].
Proof.
  intros Ha Hb. induction a as [|c a IH].
  - cbn [app Shamir.split_on]. rewrite N.eqb_refl.
    now rewrite split_on_absent.
  - cbn [app Shamir.split_on].
    destruct (N.eqb_spec c sep) as [->|_]; [exfalso; apply Ha; now left|].
    rewrite IH by (intros Hin; apply Ha; now right). reflexivity.
Qed.

End CodecFacts.

(* ================================================================= *)
(** ** Merkle proofs of right-hand leaves *)

Module MerkleRightLeaf.
Import Merkle KeySpec KeyFacts CodecFacts.

Lemma toHex_injective : forall a b, toHex a = toHex b -> a = b.
Proof.
  intros a b H. rewrite <- (bytes_of_toHex a), <- (bytes_of_toHex b). now rewrite H.
Qed.

Lemma toHex_ascii (bs : list byte) : Forall (fun c => c < 128) (toHex bs).
Proof.
  apply Forall_forall. intros c Hc. apply hex_digit_ascii.
  pose proof (toHex_digits bs) as H. rewrite forallb_forall in H. now apply H.
Qed.

Lemma map_u8_injective :
  forall s t, Forall (fun c => c < 128) s -> Forall (fun c => c < 128) t ->
  map u8 s = map u8 t -> s = t.
Proof.
  induction s as [|c s IH]; intros [|d t] Hs Ht H; try discriminate; [reflexivity|].
  inversion_clear Hs as [|? ? Hc Hs']. inversion_clear Ht as [|? ? Hd Ht'].
  injection H as Hcd Hst. f_equal; [|now apply IH].
  apply (f_equal Byte.to_N) in Hcd.
  rewrite !to_N_u8_small in Hcd by lia. exact Hcd.
Qed.

(** The pair hash is injective on hex strings. *)
Lemma combine_injective (a b c d : list byte) :
  combine (toHex a) (toHex b) = combine (toHex c) (toHex d) ->
  toHex a ++ toHex b = toHex c ++ toHex d.
Proof.
  unfold combine. intros H. apply toHex_injective in H.
  assert (Hab : Forall (fun x => x < 128) (toHex a ++ toHex b))
    by (apply Forall_app; split; apply toHex_ascii).
  assert (Hcd : Forall (fun x => x < 128) (toHex c ++ toHex d))
    by (apply Forall_app; split; apply toHex_ascii).
  rewrite !encode_ascii in H by assumption.
  now apply map_u8_injective.
Qed.

Lemma xor42_involutive (b : byte) : xor42 (xor42 b) = b.
Proof. destruct b; reflexivity. Qed.

Lemma leafHash_injective (a b : list byte) : leafHash a = leafHash b -> a = b.
Proof.
  unfold leafHash. intros H. apply toHex_injective in H.
  apply (f_equal (map xor42)) in H. rewrite !map_map in H.
  rewrite !(map_ext _ (fun x => x) xor42_involutive), !map_id in H.
  exact H.
Qed.

Lemma app_same_length {A} (x y u v : list A) :
  length x = length y -> x ++ u = y ++ v -> x = y.
Proof.
  revert y. induction x as [|c x IH]; intros [|d y] Hl H; try discriminate;
    [reflexivity|].
  injection H as -> H. injection Hl as Hl. f_equal. now apply IH.
Qed.

Lemma leafHash_length (a : list byte) : length (leafHash a) = (2 * length a)%nat.
Proof. unfold leafHash. now rewrite toHex_length, length_map. Qed.

(** The defect is not tied to particular bytes: of any two different
    chunks of the same length, the right one is rejected with its own
    proof. *)
Lemma right_leaf_of_two_rejected (a b : list byte) :
  length a = length b -> a <> b ->
  generateMerkleTree [a; b]
    = Some {| root := Some (combine (leafHash a) (leafHash b));
              proofs := [[leafHash b]; [leafHash a]] |}
  /\ verifyMerkleProof a [leafHash b] (combine (leafHash a) (leafHash b)) = true
  /\ verifyMerkleProof b [leafHash a] (combine (leafHash a) (leafHash b)) = false.
Proof.
  intros Hlen Hne. split; [reflexivity|]. split.
  - unfold verifyMerkleProof. cbn [fold_left]. apply jsstring_eqb_refl.
  - unfold verifyMerkleProof. cbn [fold_left].
    destruct (jsstring_eqb (combine (leafHash b) (leafHash a))
                (combine (leafHash a) (leafHash b))) eqn:E; [|reflexivity].
    exfalso. apply jsstring_eqb_eq in E.
    unfold leafHash in E. apply combine_injective in E. fold (leafHash a) in E.
    fold (leafHash b) in E.
    apply Hne. apply leafHash_injective. symmetry.
    apply (app_same_length _ _ _ _) in E; [exact E|].
    rewrite !leafHash_length. lia.
Qed.

End MerkleRightLeaf.

(* ================================================================= *)
(** ** The effect monad *)

Module EffectFacts.
Section WithPlatform.
Context {P : Platform}.

Lemma bind_Ok {A B} (m : M A) (k : A -> M B) (w w' : World) (a : A) :
  m w = (Ok a, w') -> bind m k w = k a w'.
Proof. intros H. unfold bind. now rewrite H. Qed.

Lemma bind_Throw {A B} (m : M A) (k : A -> M B) (w w' : World) (e : exn) :
  m w = (Throw e, w') -> bind m k w = (Throw e, w').
Proof. intros H. unfold bind. now rewrite H. Qed.

Lemma try_Ok {A} (m : M A) (h : exn -> M A) (w w' : World) (a : A) :
  m w = (Ok a, w') -> try_catch m h w = (Ok a, w').
Proof. intros H. unfold try_catch. now rewrite H. Qed.

Lemma lift_Ok {A} (r : Result A) (a : A) (w : World) :
  r = Ok a -> lift r w = (Ok a, w).
Proof. now intros ->. Qed.

Lemma importKey_Ok name raw u k w :
  subtle_importKey name raw u = Ok k ->
  importKey name raw u w = (Ok k, logged CallImportKey w).
Proof. intros H. unfold importKey, bind, record, lift. now rewrite H. Qed.

Lemma encrypt_Ok name iv k data ct w :
  subtle_encrypt name iv k data = Ok ct ->
  encrypt name iv k data w = (Ok ct, logged CallEncrypt w).
Proof. intros H. unfold encrypt, bind, record, lift. now rewrite H. Qed.

Lemma decrypt_Ok name iv k data pt w :
  subtle_decrypt name iv k data = Ok pt ->
  decrypt name iv k data w = (Ok pt, logged CallDecrypt w).
Proof. intros H. unfold decrypt, bind, record, lift. now rewrite H. Qed.

Lemma digest_Ok name data h w :
  subtle_digest name data = Ok h ->
  digest name data w = (Ok h, logged CallDigest w).
Proof. intros H. unfold digest, bind, record, lift. now rewrite H. Qed.

Lemma getRandomValues_length n w :
  exists bytes w',
    getRandomValues n w = (Ok bytes, w') /\ length bytes = n.
Proof.
  eexists _, _. split; [reflexivity|]. now rewrite length_map, length_seq.
Qed.

End WithPlatform.
End EffectFacts.

(* ================================================================= *)
(** ** Single-layer encryptor / decryptor *)

Module EncryptionFacts.
Import Encryption KeySpec KeyFacts Base64Facts EffectFacts Samples.

Lemma oversized_size : size oversized = MAX_ENCRYPTION_SIZE + 1.
Proof.
  unfold size, oversized. cbn [content].
  rewrite repeat_length. apply N2Nat.id.
Qed.

Section WithPlatform.
Context {P : Platform}.

Lemma tooLarge_text :
  tooLarge = js "File is too large for encryption. Maximum size is 15MB.".
Proof. reflexivity. Qed.

(** [encryptFile] is its size guard followed by the guarded work. *)
Lemma encryptFile_guarded (file : File) (encryptionKey : jsstring) (w : World) :
  encryptFile file encryptionKey w =
    if MAX_ENCRYPTION_SIZE <? size file then
      (Throw (Error (js "Failed to encrypt file: " ++ tooLarge)),
       logged CallConsoleError w)
    else
      try_catch (encryptFile_work file encryptionKey)
        (fun error =>
           console_error ;;;
           throw (Error (js "Failed to encrypt file: " ++ message_of error))) w.
Proof.
  unfold encryptFile, try_catch at 1, bind at 1, sizeGuard.
  destruct (MAX_ENCRYPTION_SIZE <? size file); reflexivity.
Qed.

(** C8: [encryptFile] rejects a file of more than 15 * 1024 * 1024 bytes
    with the size-limit error, having drawn no entropy and made no call to
    the platform other than logging the error; on any other file the guard
    lets the call through to the rest of the [try] block. *)
Theorem encryptFile_size_guard (file : File) (encryptionKey : jsstring) (w : World) :
  encryptFile file encryptionKey w =
    if 15 * 1024 * 1024 <? size file then
      (Throw (Error (js "Failed to encrypt file: File is too large for encryption. Maximum size is 15MB.")),
       {| cursor := cursor w; now := now w; calls := calls w ++ [CallConsoleError] |})
    else
      try_catch (encryptFile_work file encryptionKey)
        (fun error =>
           console_error ;;;
           throw (Error (js "Failed to encrypt file: " ++ message_of error))) w.
Proof.
  unfold encryptFile, try_catch at 1, bind at 1, sizeGuard.
  change MAX_ENCRYPTION_SIZE with (15 * 1024 * 1024).
  destruct (15 * 1024 * 1024 <? size file); reflexivity.
Qed.

(** The oversized sample is turned away. *)
Lemma encryptFile_rejects_oversized (encryptionKey : jsstring) (w : World) :
  encryptFile oversized encryptionKey w =
    (Throw (Error (js "Failed to encrypt file: File is too large for encryption. Maximum size is 15MB.")),
     logged CallConsoleError w).
Proof.
  rewrite encryptFile_guarded, oversized_size.
  change (MAX_ENCRYPTION_SIZE <? MAX_ENCRYPTION_SIZE + 1) with true.
  reflexivity.
Qed.

(** A generated key is a valid 128-bit key: 32 hex characters. *)
Lemma generateEncryptionKey_valid (w : World) :
  exists key w',
    generateEncryptionKey w = (Ok key, w') /\ hex_chars 32 key = true.
Proof.
  destruct (getRandomValues_length 16 w) as (keyBytes & w' & Hk & Hlen).
  exists (toHex keyBytes), w'. split.
  - unfold generateEncryptionKey. erewrite bind_Ok by exact Hk. reflexivity.
  - unfold hex_chars.
    rewrite CodecFacts.toHex_length, Hlen, CodecFacts.toHex_digits. reflexivity.
Qed.

End WithPlatform.

Section WithLaws.
Context {P : Platform} {L : PlatformLaws P}.

(** The round trip, whether the ciphertext is handed to [decryptFile] as
    the [File] that [encryptFile] returned or as a [Blob] of its bytes. *)
Lemma encryptFile_decryptFile_carrier (file : File) (key : jsstring) (w w1 : World)
    (carrier : FileOrBlob) :
  size file <= MAX_ENCRYPTION_SIZE ->
  hex_chars 32 key = true ->
  exists encryptedFile metadata w',
    encryptFile file key w = (Ok (encryptedFile, metadata), w') /\
    (arrayBuffer carrier = content encryptedFile ->
     exists decrypted w1',
       decryptFile carrier metadata key w1 = (Ok decrypted, w1') /\
       content decrypted = content file).
Proof.
  intros Hsize Hkey.
  destruct (hexToBytes_key128 key Hkey) as [Hbytes Hlen].
  set (nonce := map entropy (seq (cursor w) 12)).
  assert (Hnonce : length nonce = 12%nat)
    by (unfold nonce; now rewrite length_map, length_seq).
  destruct (aes_gcm_roundtrip (bytes_of_hex key) nonce (content file) Hlen Hnonce)
    as (ke & kd & ct & Hke & Hkd & Henc & Hdec).
  destruct (atob_btoa_bytes nonce) as (text & Hbtoa & Hatob & _).
  assert (Htext : text <> []).
  { intros ->. rewrite btoa_bytes in Hbtoa. discriminate Hbtoa. }
  eexists _, _, _. split.
  - rewrite encryptFile_guarded.
    destruct (N.ltb_spec MAX_ENCRYPTION_SIZE (size file)) as [Hgt|_]; [lia|].
    apply try_Ok. unfold encryptFile_work.
    erewrite bind_Ok by (apply lift_Ok; exact Hbytes).
    erewrite bind_Ok by reflexivity.
    erewrite bind_Ok by (apply importKey_Ok; exact Hke).
    erewrite bind_Ok by (apply encrypt_Ok; exact Henc).
    erewrite bind_Ok by (apply lift_Ok; exact Hbtoa).
    reflexivity.
  - cbn [content iv originalFileName originalFileType]. intros Hcarrier.
    eexists _, _. split.
    + unfold decryptFile. apply try_Ok.
      destruct text as [|c text']; [congruence|].
      erewrite bind_Ok by reflexivity.
      erewrite bind_Ok by (apply lift_Ok; exact Hbytes).
      erewrite bind_Ok.
      2:{ unfold base64ToBuffer. apply try_Ok.
          erewrite bind_Ok by (apply lift_Ok; exact Hatob). reflexivity. }
      rewrite charCodes_fromCharCodes.
      erewrite bind_Ok by (apply importKey_Ok; exact Hkd).
      rewrite Hcarrier.
      erewrite bind_Ok by (apply decrypt_Ok; exact Hdec).
      reflexivity.
    + reflexivity.
Qed.

(** C2 (amended): a file of at most 15 MB is encrypted by [encryptFile]
    under any key of 32 hex characters, and [decryptFile], under the same
    key and with the metadata [encryptFile] returned, gives back a file
    with exactly the original bytes. *)
Theorem encryptFile_decryptFile (file : File) (key : jsstring) (w w1 : World) :
  size file <= MAX_ENCRYPTION_SIZE ->
  hex_chars 32 key = true ->
  exists encryptedFile metadata w' decrypted w1',
    encryptFile file key w = (Ok (encryptedFile, metadata), w') /\
    decryptFile (AFile encryptedFile) metadata key w1 = (Ok decrypted, w1') /\
    content decrypted = content file.
Proof.
  intros Hsize Hkey.
  destruct (encryptFile_decryptFile_carrier file key w w1 (ABlob [] []) Hsize Hkey)
    as (e & m & w' & He & _).
  destruct (encryptFile_decryptFile_carrier file key w w1 (AFile e) Hsize Hkey)
    as (e' & m' & w'' & He' & Hd).
  rewrite He in He'. injection He' as <- <- <-.
  destruct (Hd eq_refl) as (d & w1' & Hdec & Hcontent).
  exists e, m, w', d, w1'. auto.
Qed.

End WithLaws.

Lemma encryptFile_decryptFile_witness :
  size ten_bytes <= MAX_ENCRYPTION_SIZE /\
  hex_chars 32 (js "00112233445566778899aabbccddeeff") = true /\
  exists encryptedFile metadata w' decrypted w1',
    encryptFile (P := Fake.platform) ten_bytes
      (js "00112233445566778899aabbccddeeff") Fake.world0
      = (Ok (encryptedFile, metadata), w') /\
    decryptFile (P := Fake.platform) (AFile encryptedFile) metadata
      (js "00112233445566778899aabbccddeeff") Fake.world0 = (Ok decrypted, w1') /\
    content decrypted = content ten_bytes.
Proof.
  assert (H1 : size ten_bytes <= MAX_ENCRYPTION_SIZE) by (vm_compute; discriminate).
  assert (H2 : hex_chars 32 (js "00112233445566778899aabbccddeeff") = true)
    by reflexivity.
  split; [exact H1|]. split; [exact H2|].
  exact (encryptFile_decryptFile (P := Fake.platform) (L := FakeFacts.laws)
           ten_bytes (js "00112233445566778899aabbccddeeff")
           Fake.world0 Fake.world0 H1 H2).
Defined.

(** C2 as stated fails: a buffer of 15 MB + 1 byte is a byte buffer, and
    [encryptFile] returns nothing that could be decrypted. *)
Lemma encryptFile_oversized_no_output :
  ~ exists encryptedFile metadata w',
      encryptFile (P := Fake.platform) oversized
        (js "00112233445566778899aabbccddeeff") Fake.world0
        = (Ok (encryptedFile, metadata), w').
Proof.
  intros (e & m & w' & H).
  rewrite encryptFile_guarded, oversized_size in H.
  change (MAX_ENCRYPTION_SIZE <? MAX_ENCRYPTION_SIZE + 1) with true in H.
  discriminate H.
Qed.

End EncryptionFacts.

(* ================================================================= *)
(** ** Multi-layer encryptor / decryptor *)

Module MultiLayerFacts.
Import MultiLayer KeySpec KeyFacts Base64Facts EffectFacts CodecFacts Samples.

Section WithPlatform.
Context {P : Platform}.

(** The loop of [multiLayerEncrypt] adds one layer per turn. *)
Lemma encryptLayers_length :
  forall n i data keys layers w enc keys' layers' w',
    encryptLayers n i data keys layers w = (Ok (enc, keys', layers'), w') ->
    length layers' = (length layers + n)%nat.
Proof.
  induction n as [|n IH]; intros i data keys layers w enc keys' layers' w' H.
  - injection H as <- <- <- <-. lia.
  - cbn [encryptLayers] in H. unfold bind at 1 in H.
    destruct (encryptLayer i data w) as [[[[e k] l]| |] wa]; try discriminate.
    apply IH in H. rewrite length_app in H. simpl in H. lia.
Qed.

(** Every run of [multiLayerEncrypt] that returns has applied exactly
    [LAYERS] = 3 layers and tagged the metadata "1.0". *)
Lemma multiLayerEncrypt_three_layers data primaryKey w r w' :
  multiLayerEncrypt data primaryKey w = (Ok r, w') ->
  length (layers (metadata r)) = 3%nat /\ version (metadata r) = js "1.0".
Proof.
  unfold multiLayerEncrypt. intros H.
  unfold bind at 1 in H.
  destruct (uuidv4 w) as [[id| |] w1]; try discriminate.
  unfold bind at 1 in H.
  destruct (encryptLayers LAYERS 0 data [] [] w1) as [[[[enc keys] ls]| |] w2] eqn:E;
    try discriminate.
  unfold bind at 1 in H.
  destruct (encryptLayerKeys keys primaryKey w2) as [[text| |] w3]; try discriminate.
  injection H as <- <-. cbn [metadata layers version].
  apply encryptLayers_length in E. simpl in E. auto.
Qed.

(** Layers are undone last applied first: the turn for the outermost
    layer comes first and uses the key at that layer's index. *)
Lemma decryptLayers_outermost_first layerKeys inner outer data w :
  decryptLayers layerKeys (rev (inner ++ [outer])) data w
  = bind (decryptLayer layerKeys (length inner) outer data)
         (decryptLayers layerKeys (rev inner)) w.
Proof.
  rewrite rev_app_distr. cbn [rev app decryptLayers]. now rewrite length_rev.
Qed.

End WithPlatform.

Section WithLaws.
Context {P : Platform} {L : PlatformLaws P}.

(** Both sides derive the same 16 key bytes from the primary key. *)
Lemma keyBuffer_ok (primaryKey : jsstring) (w : World) :
  exists keyBuffer w',
    encryptLayerKeys_keyBuffer primaryKey w = (Ok keyBuffer, w') /\
    length keyBuffer = 16%nat /\
    forall w1, exists w1',
      decryptLayerKeys_keyBuffer primaryKey w1 = (Ok keyBuffer, w1').
Proof.
  unfold encryptLayerKeys_keyBuffer, decryptLayerKeys_keyBuffer.
  destruct (test_hex 32 primaryKey) eqn:H32.
  - destruct (hexToBytes_key128 primaryKey H32) as [Hb Hl].
    eexists _, _. rewrite Hb. split; [reflexivity|]. split; [exact Hl|].
    intros w1. eexists. reflexivity.
  - destruct (test_hex 64 primaryKey) eqn:H64.
    + destruct (hexToBytes_key256 primaryKey H64) as [Hb Hl].
      eexists _, _. rewrite Hb. split; [reflexivity|].
      split; [rewrite length_firstn; lia|].
      intros w1. eexists. reflexivity.
    + destruct (sha256_length (TextEncoder_encode primaryKey)) as (h & Hh & Hl).
      eexists _, _. split.
      * erewrite bind_Ok by (apply digest_Ok; exact Hh). reflexivity.
      * split; [rewrite length_firstn; lia|].
        intros w1. eexists.
        erewrite bind_Ok by (apply digest_Ok; exact Hh). reflexivity.
Qed.

(** The layer-key bundle written by [encryptLayerKeys] is read back by
    [decryptLayerKeys] under the same primary key. *)
Lemma layerKeys_roundtrip (keys : list jsstring) (primaryKey : jsstring) (w : World) :
  hex_keys keys ->
  exists text w',
    encryptLayerKeys keys primaryKey w = (Ok text, w') /\
    forall w1, exists w1',
      decryptLayerKeys text primaryKey w1 = (Ok (key_array keys), w1').
Proof.
  intros Hkeys.
  destruct (keyBuffer_ok primaryKey w) as (kb & w2 & Hkb & Hlen & Hdec).
  destruct (getRandomValues_length 12 (logged CallImportKey w2))
    as (nonce & w4 & Hnonce & Hnlen).
  destruct (aes_gcm_roundtrip kb nonce (TextEncoder_encode (JSON_stringify keys))
              Hlen Hnlen) as (ke & kd & ct & Hke & Hkd & Henc & Hdecr).
  destruct (atob_btoa_bytes ct) as (ct64 & Hct64 & Hct & Hctdot).
  destruct (atob_btoa_bytes nonce) as (iv64 & Hiv64 & Hiv & Hivdot).
  eexists _, _. split.
  - unfold encryptLayerKeys.
    erewrite bind_Ok by exact Hkb.
    erewrite bind_Ok by (apply importKey_Ok; exact Hke).
    erewrite bind_Ok by exact Hnonce.
    erewrite bind_Ok by (apply encrypt_Ok; exact Henc).
    erewrite bind_Ok by (apply lift_Ok; exact Hct64).
    erewrite bind_Ok by (apply lift_Ok; exact Hiv64).
    reflexivity.
  - intros w1. destruct (Hdec w1) as (w1a & Hkb1).
    eexists. unfold decryptLayerKeys.
    change (ct64 ++ js "." ++ iv64) with (ct64 ++ 46 :: iv64).
    rewrite (split_on_two 46 ct64 iv64 Hctdot Hivdot). cbn [nth].
    erewrite bind_Ok by (apply lift_Ok; exact Hct).
    erewrite bind_Ok by (apply lift_Ok; exact Hiv).
    erewrite bind_Ok by exact Hkb1.
    erewrite bind_Ok by (apply importKey_Ok; exact Hkd).
    rewrite !charCodes_fromCharCodes.
    erewrite bind_Ok by (apply decrypt_Ok; exact Hdecr).
    rewrite decode_encode_ascii by now apply stringify_ascii.
    rewrite (json_roundtrip keys Hkeys). reflexivity.
Qed.

(** One layer: what [encryptLayer] wraps, [decryptLayer] unwraps, given
    the layer's key at the layer's index. *)
Lemma layer_roundtrip (i : nat) (data : list byte) (w : World) :
  exists enc key layer w',
    encryptLayer i data w = (Ok (enc, key, layer), w') /\
    forallb is_hex_digit key = true /\
    forall layerKeys j w1,
      layerKey_at layerKeys j = Ok key ->
      exists w1', decryptLayer layerKeys j layer enc w1 = (Ok data, w1').
Proof.
  destruct (getRandomValues_length 16 w) as (keyBytes & w2 & Hkey & Hklen).
  assert (Hne : keyBytes <> []) by (intros ->; discriminate).
  destruct (getRandomValues_length 12 (logged CallImportKey w2))
    as (nonce & w4 & Hnonce & Hnlen).
  destruct (aes_gcm_roundtrip keyBytes nonce data Hklen Hnlen)
    as (ke & kd & ct & Hke & Hkd & Henc & Hdec).
  destruct (atob_btoa_bytes nonce) as (iv64 & Hiv64 & Hiv & _).
  assert (Hcheck : forall w0, checkKeyLength keyBytes w0 = (Ok tt, w0)).
  { intros w0. unfold checkKeyLength. now rewrite Hklen. }
  eexists _, _, _, _. split; [|split].
  - unfold encryptLayer.
    erewrite bind_Ok by exact Hkey.
    erewrite bind_Ok by (apply lift_Ok; apply hexToBytes_toHex; exact Hne).
    erewrite bind_Ok by apply Hcheck.
    erewrite bind_Ok by (apply importKey_Ok; exact Hke).
    erewrite bind_Ok by exact Hnonce.
    erewrite bind_Ok by (apply encrypt_Ok; exact Henc).
    erewrite bind_Ok by (apply lift_Ok; exact Hiv64).
    reflexivity.
  - apply toHex_digits.
  - intros layerKeys j w1 Hat. eexists. unfold decryptLayer.
    cbn [algorithm ivBase64].
    erewrite bind_Ok by (apply lift_Ok; exact Hat).
    erewrite bind_Ok by (apply lift_Ok; apply hexToBytes_toHex; exact Hne).
    erewrite bind_Ok by apply Hcheck.
    erewrite bind_Ok by (apply importKey_Ok; exact Hkd).
    erewrite bind_Ok by (apply lift_Ok; exact Hiv).
    rewrite charCodes_fromCharCodes.
    apply decrypt_Ok. exact Hdec.
Qed.

Lemma key_array_at (before after : list jsstring) (key : jsstring) :
  layerKey_at (key_array (before ++ key :: after)) (length before) = Ok key.
Proof.
  unfold key_array, layerKey_at.
  rewrite map_app, nth_error_app2 by (rewrite length_map; lia).
  rewrite length_map, Nat.sub_diag. reflexivity.
Qed.

(** The loop of [multiLayerEncrypt] always completes, and the loop of
    [multiLayerDecrypt] peels the layers it added, given the keys it
    generated at their indices. *)
Lemma layers_roundtrip :
  forall n i data keys layers w,
    length keys = length layers ->
    exists enc newKeys newLayers w',
      encryptLayers n i data keys layers w
        = (Ok (enc, keys ++ newKeys, layers ++ newLayers), w') /\
      hex_keys newKeys /\
      forall moreKeys w1, exists w1',
        decryptLayers (key_array (keys ++ newKeys ++ moreKeys))
          (rev (layers ++ newLayers)) enc w1
        = decryptLayers (key_array (keys ++ newKeys ++ moreKeys))
            (rev layers) data w1'.
Proof.
  induction n as [|n IH]; intros i data keys layers w Hlen.
  - exists data, [], [], w. rewrite !app_nil_r. split; [reflexivity|].
    split; [constructor|]. intros moreKeys w1. now exists w1.
  - destruct (layer_roundtrip i data w) as (enc1 & key & layer & wa & He & Hhex & Hd).
    destruct (IH (S i) enc1 (keys ++ [key]) (layers ++ [layer]) wa)
      as (enc & newKeys & newLayers & w' & Hrest & Hnew & Hpeel).
    { rewrite !length_app. simpl. lia. }
    exists enc, (key :: newKeys), (layer :: newLayers), w'.
    split; [|split].
    + cbn [encryptLayers]. erewrite bind_Ok by exact He.
      cbv beta iota. rewrite Hrest. now rewrite <- !app_assoc.
    + constructor; assumption.
    + intros moreKeys w1.
      destruct (Hpeel moreKeys w1) as (w1a & Hp).
      rewrite <- !app_assoc in Hp. cbn [app] in Hp.
      cbn [app]. rewrite Hp.
      rewrite decryptLayers_outermost_first.
      destruct (Hd (key_array (keys ++ key :: newKeys ++ moreKeys))
                  (length layers) w1a) as (w1b & Hlayer).
      { rewrite <- Hlen. apply key_array_at. }
      exists w1b. now erewrite bind_Ok by exact Hlayer.
Qed.

(** C3 (amended): [multiLayerEncrypt] always returns, having applied
    exactly three layers (the constant [LAYERS]); [multiLayerDecrypt] with
    the returned metadata and the same primary key, whatever string it is,
    returns exactly the original bytes. *)
Theorem multiLayer_roundtrip (data : list byte) (primaryKey : jsstring) (w w1 : World) :
  exists r w' w1',
    multiLayerEncrypt data primaryKey w = (Ok r, w') /\
    length (layers (metadata r)) = 3%nat /\
    multiLayerDecrypt (encryptedData r) (metadata r) primaryKey w1 = (Ok data, w1').
Proof.
  destruct (getRandomValues_length 16 w) as (idBytes & wa & Hid & _).
  destruct (layers_roundtrip LAYERS 0 data [] [] wa eq_refl)
    as (enc & keys & ls & wb & Hloop & Hhex & Hpeel).
  cbn [app] in Hloop, Hpeel.
  destruct (layerKeys_roundtrip keys primaryKey wb Hhex) as (text & wc & Henc & Hdec).
  destruct (Hdec w1) as (w1a & Hkeys).
  destruct (Hpeel [] w1a) as (w1b & Hlayers). rewrite app_nil_r in Hlayers.
  eexists _, _, w1b. split; [|split].
  - unfold multiLayerEncrypt, uuidv4.
    erewrite bind_Ok.
    2:{ erewrite bind_Ok by exact Hid. reflexivity. }
    erewrite bind_Ok by exact Hloop. cbv beta iota.
    erewrite bind_Ok by exact Henc. reflexivity.
  - cbn [metadata layers].
    apply encryptLayers_length in Hloop. exact Hloop.
  - cbn [metadata encryptedData]. unfold multiLayerDecrypt.
    cbn [encryptedLayerKeys layers].
    erewrite bind_Ok by exact Hkeys. exact Hlayers.
Qed.

End WithLaws.

Section WithPlatform2.
Context {P : Platform}.

(** The error of a failing layer leaves [multiLayerDecrypt] as it was
    thrown. *)
Lemma layer_error_propagates (encryptedData : list byte)
    (metadata : MultiLayerMetadata) (primaryKey : jsstring) (w w1 w' : World)
    (layerKeys : JSONValue) (e : exn) :
  decryptLayerKeys (encryptedLayerKeys metadata) primaryKey w = (Ok layerKeys, w1) ->
  decryptLayers layerKeys (rev (layers metadata)) encryptedData w1 = (Throw e, w') ->
  multiLayerDecrypt encryptedData metadata primaryKey w = (Throw e, w').
Proof.
  intros H1 H2. unfold multiLayerDecrypt. now erewrite bind_Ok by exact H1.
Qed.

(** C6 (amended): when [decryptLayerKeys] fails, [multiLayerDecrypt] fails
    with that very error, whatever it is, in the world [decryptLayerKeys]
    left: it neither wraps the error nor touches any layer.  The error
    carries no mark of the step it comes from: in every run in which the
    layer keys are recovered and a layer then fails with the same error,
    [multiLayerDecrypt] throws the same value. *)
Theorem key_recovery_error_propagates (encryptedData : list byte)
    (metadata : MultiLayerMetadata) (primaryKey : jsstring) (w w' : World) (e : exn) :
  decryptLayerKeys (encryptedLayerKeys metadata) primaryKey w = (Throw e, w') ->
  multiLayerDecrypt encryptedData metadata primaryKey w = (Throw e, w') /\
  (forall (otherData : list byte) (otherMetadata : MultiLayerMetadata)
          (otherKey : jsstring) (v v1 v' : World) (layerKeys : JSONValue),
     decryptLayerKeys (encryptedLayerKeys otherMetadata) otherKey v = (Ok layerKeys, v1) ->
     decryptLayers layerKeys (rev (layers otherMetadata)) otherData v1 = (Throw e, v') ->
     multiLayerDecrypt otherData otherMetadata otherKey v = (Throw e, v')).
Proof.
  intros H. split.
  - unfold multiLayerDecrypt. now erewrite bind_Throw by exact H.
  - intros otherData otherMetadata otherKey v v1 v' layerKeys.
    apply layer_error_propagates.
Qed.

(** C7 (amended): [multiLayerDecrypt] never reads [metadata.version]: the
    outcome is the same for every version tag. *)
Theorem multiLayerDecrypt_ignores_version (encryptedData : list byte)
    (metadata : MultiLayerMetadata) (primaryKey : jsstring) (w : World)
    (tag : jsstring) :
  multiLayerDecrypt encryptedData
    {| version := tag;
       layers := layers metadata;
       encryptedLayerKeys := encryptedLayerKeys metadata;
       encryptionId := encryptionId metadata |} primaryKey w
  = multiLayerDecrypt encryptedData metadata primaryKey w.
Proof. reflexivity. Qed.

End WithPlatform2.

Lemma multiLayer_roundtrip_witness :
  exists r w' w1',
    multiLayerEncrypt (P := Fake.platform) sample_plaintext (js "hunter2") Fake.world0
      = (Ok r, w') /\
    length (layers (metadata r)) = 3%nat /\
    multiLayerDecrypt (P := Fake.platform) (encryptedData r) (metadata r)
      (js "hunter2") Fake.world0 = (Ok sample_plaintext, w1').
Proof.
  exact (multiLayer_roundtrip (P := Fake.platform) (L := FakeFacts.laws)
           sample_plaintext (js "hunter2") Fake.world0 Fake.world0).
Defined.

(** C3 as stated fails: no run of [multiLayerEncrypt], on any platform and
    any input, yields one layer (nor two, nor five); the layer count is not
    an input. *)
Lemma layer_count_not_configurable :
  ~ (forall layerCount, In layerCount [1; 2; 3; 5]%nat ->
     exists (P : Platform) data primaryKey w r w',
       multiLayerEncrypt data primaryKey w = (Ok r, w') /\
       length (layers (metadata r)) = layerCount).
Proof.
  intros H.
  destruct (H 1%nat (or_introl eq_refl)) as (P & data & pk & w & r & w' & E & Hl).
  apply multiLayerEncrypt_three_layers in E. destruct E as [E _].
  rewrite E in Hl. discriminate Hl.
Qed.

(** What [multiLayerEncrypt] returns for the sample on the test platform. *)
Lemma sample_is_encryption :
  exists w',
    multiLayerEncrypt (P := Fake.platform) sample_plaintext (js "hunter2") Fake.world0
    = (Ok {| encryptedData := sample_ciphertext;
             layerKeys := [js "5b80a5caef14395e83a8cdf2173c6186";
                           js "678cb1d6fb20456a8fb4d9fe23486d92";
                           js "7398bde2072c51769bc0e50a2f54799e"];
             metadata := sample_metadata (js "1.0") |}, w').
Proof. eexists. vm_compute. reflexivity. Qed.

Lemma key_recovery_error_propagates_witness :
  decryptLayerKeys (P := Fake.platform)
    (encryptedLayerKeys (sample_metadata (js "1.0"))) (js "hunter3") Fake.world0
  = (Throw (Engine OperationError),
     logged CallDecrypt (logged CallImportKey (logged CallDigest Fake.world0)))
  /\
  multiLayerDecrypt (P := Fake.platform) sample_ciphertext
    (sample_metadata (js "1.0")) (js "hunter3") Fake.world0
  = (Throw (Engine OperationError),
     logged CallDecrypt (logged CallImportKey (logged CallDigest Fake.world0)))
  /\
  (forall (otherData : list byte) (otherMetadata : MultiLayerMetadata)
          (otherKey : jsstring) (v v1 v' : World) (layerKeys : JSONValue),
     decryptLayerKeys (P := Fake.platform) (encryptedLayerKeys otherMetadata) otherKey v
       = (Ok layerKeys, v1) ->
     decryptLayers (P := Fake.platform) layerKeys (rev (layers otherMetadata)) otherData v1
       = (Throw (Engine OperationError), v') ->
     multiLayerDecrypt (P := Fake.platform) otherData otherMetadata otherKey v
       = (Throw (Engine OperationError), v')).
Proof.
  assert (H : decryptLayerKeys (P := Fake.platform)
                (encryptedLayerKeys (sample_metadata (js "1.0"))) (js "hunter3")
                Fake.world0
              = (Throw (Engine OperationError),
                 logged CallDecrypt (logged CallImportKey (logged CallDigest Fake.world0))))
    by (vm_compute; reflexivity).
  split; [exact H|].
  exact (key_recovery_error_propagates (P := Fake.platform) sample_ciphertext
           (sample_metadata (js "1.0")) (js "hunter3") Fake.world0 _ _ H).
Defined.

(** C6 as stated fails: with the wrong primary key the bundle of layer
    keys is rejected, with the right key and a corrupted ciphertext a layer
    is rejected, and [multiLayerDecrypt] throws the same value in both
    cases. *)
Lemma key_recovery_error_not_distinct :
  fst (decryptLayerKeys (P := Fake.platform) sample_bundle (js "hunter3") Fake.world0)
    = Throw (Engine OperationError)
  /\ fst (multiLayerDecrypt (P := Fake.platform) sample_ciphertext
            (sample_metadata (js "1.0")) (js "hunter3") Fake.world0)
    = Throw (Engine OperationError)
  /\ fst (decryptLayerKeys (P := Fake.platform) sample_bundle (js "hunter2") Fake.world0)
    = Ok (key_array [js "5b80a5caef14395e83a8cdf2173c6186";
                     js "678cb1d6fb20456a8fb4d9fe23486d92";
                     js "7398bde2072c51769bc0e50a2f54799e"])
  /\ fst (multiLayerDecrypt (P := Fake.platform) sample_tampered
            (sample_metadata (js "1.0")) (js "hunter2") Fake.world0)
    = Throw (Engine OperationError).
Proof. repeat split; vm_compute; reflexivity. Qed.

(** C7 as stated fails: metadata tagged "2.0" is decrypted like any
    other, and decryption calls are made. *)
Lemma version_2_0_is_decrypted :
  version (sample_metadata (js "2.0")) <> js "1.0"
  /\ multiLayerDecrypt (P := Fake.platform) sample_ciphertext
       (sample_metadata (js "2.0")) (js "hunter2") Fake.world0
     = (Ok sample_plaintext,
        {| cursor := 0; now := 1700000000000;
           calls := [CallDigest; CallImportKey; CallDecrypt;
                     CallImportKey; CallDecrypt;
                     CallImportKey; CallDecrypt;
                     CallImportKey; CallDecrypt] |}).
Proof. split; [vm_compute; discriminate | vm_compute; reflexivity]. Qed.

End MultiLayerFacts.

(* ================================================================= *)
(** ** Further properties of the effect monad *)

Module EffectInversion.

Lemma bind_Ok_inv {A B} (m : M A) (k : A -> M B) (w w' : World) (b : B) :
  bind m k w = (Ok b, w') ->
  exists a w1, m w = (Ok a, w1) /\ k a w1 = (Ok b, w').
Proof.
  unfold bind. destruct (m w) as [[a| |] w1]; intros H; try discriminate. eauto.
Qed.

Lemma lift_Ok_inv {A} (r : Result A) (a : A) (w w' : World) :
  lift r w = (Ok a, w') -> r = Ok a /\ w' = w.
Proof. unfold lift. intros [= -> ->]. auto. Qed.


Lemma try_rethrow_Throw_inv {A} (m : M A) (h : exn -> exn) (w w' : World) (e : exn) :
  try_catch m (fun e => console_error ;;; throw (h e)) w = (Throw e, w') ->
  exists e0 w0, m w = (Throw e0, w0) /\ e = h e0 /\ w' = logged CallConsoleError w0.
Proof.
  unfold try_catch. destruct (m w) as [[x| |] w1]; intros H; try discriminate.
  injection H as <- <-. eauto.
Qed.

End EffectInversion.

(* ================================================================= *)
(** ** Base64 buffers *)

Module BufferFacts.
Import Encryption Base64Facts EffectFacts.

Section WithPlatform.
Context {P : Platform}.


(** X1: [base64ToBuffer(bufferToBase64(buffer))] is [buffer], for every byte
    buffer, the empty one included, and nothing is logged. *)
Theorem buffer_base64_roundtrip (buffer : list byte) (w : World) :
  exists text,
    bufferToBase64 buffer = Ok text /\
    base64ToBuffer text w = (Ok buffer, w).
Proof.
  destruct (atob_btoa_bytes buffer) as (text & Hb & Ha & _).
  exists text. split; [exact Hb|].
  unfold base64ToBuffer. apply try_Ok.
  erewrite bind_Ok by (apply lift_Ok; exact Ha).
  unfold ret. now rewrite charCodes_fromCharCodes.
Qed.

Lemma strip_padding_keeps (c : N) (s : jsstring) :
  In c s -> c <> 61 -> In c (strip_padding s).
Proof.
  intros Hin Hc. unfold strip_padding.
  apply in_rev in Hin.
  destruct (rev s) as [|c1 r1] eqn:E; [contradiction|].
  destruct (N.eqb_spec c1 61) as [->|_].
  - destruct Hin as [Heq|Hin]; [congruence|].
    destruct r1 as [|c2 r2]; [contradiction|].
    destruct (N.eqb_spec c2 61) as [->|_].
    + destruct Hin as [Heq|Hin]; [congruence|]. now apply in_rev in Hin.
    + now apply in_rev in Hin.
  - apply in_rev. rewrite E. exact Hin.
Qed.

Lemma indices_none (c : N) (s : jsstring) :
  In c s -> base64_index c = None -> base64_indices s = None.
Proof.
  induction s as [|d s IH]; intros Hin Hc; [contradiction|].
  cbn [base64_indices]. destruct Hin as [->|Hin].
  - now rewrite Hc.
  - rewrite (IH Hin Hc). now destruct (base64_index d).
Qed.

(** A character outside the base64 alphabet makes [atob] fail. *)
Lemma atob_rejects (s : jsstring) (c : N) :
  In c s -> base64_index c = None -> c <> 61 -> is_ascii_whitespace c = false ->
  atob s = Throw (Engine InvalidCharacterError).
Proof.
  intros Hin Hidx Hpad Hws. unfold atob.
  set (data := filter (fun c => negb (is_ascii_whitespace c)) s).
  assert (Hdata : In c data) by (apply filter_In; now rewrite Hws).
  set (data' := if Nat.eqb (length data mod 4) 0 then strip_padding data else data).
  assert (Hdata' : In c data').
  { unfold data'. destruct (Nat.eqb (length data mod 4) 0); [|exact Hdata].
    now apply strip_padding_keeps. }
  destruct (Nat.eqb (length data' mod 4) 1); [reflexivity|].
  now rewrite (indices_none c data' Hdata' Hidx).
Qed.

(** X2: [base64ToBuffer] turns away every string that holds a character which
    is neither in the base64 alphabet nor [=] nor ASCII white space: it
    logs the failure and throws "Invalid base64 string". *)
Theorem base64ToBuffer_rejects (base64 : jsstring) (c : N) (w : World) :
  In c base64 -> base64_index c = None -> c <> 61 ->
  is_ascii_whitespace c = false ->
  base64ToBuffer base64 w
    = (Throw (Error (js "Invalid base64 string")), logged CallConsoleError w).
Proof.
  intros Hin Hidx Hpad Hws. unfold base64ToBuffer, try_catch, bind at 1, lift.
  now rewrite (atob_rejects base64 c Hin Hidx Hpad Hws).
Qed.

End WithPlatform.

Lemma base64ToBuffer_rejects_witness :
  In 45 (js "ab-d") /\ base64_index 45 = None /\ 45 <> 61 /\
  is_ascii_whitespace 45 = false /\
  base64ToBuffer (js "ab-d") Fake.world0
    = (Throw (Error (js "Invalid base64 string")),
       logged CallConsoleError Fake.world0).
Proof.
  assert (H1 : In 45 (js "ab-d")) by (simpl; auto).
  assert (H2 : base64_index 45 = None) by reflexivity.
  assert (H3 : 45 <> 61) by discriminate.
  assert (H4 : is_ascii_whitespace 45 = false) by reflexivity.
  repeat (split; [assumption|]).
  exact (base64ToBuffer_rejects (js "ab-d") 45 Fake.world0 H1 H2 H3 H4).
Defined.

End BufferFacts.

(* ================================================================= *)
(** ** What [encryptFile] and [decryptFile] return and throw *)

Module FileFacts.
Import Encryption KeySpec KeyFacts Base64Facts EffectFacts EffectInversion Samples.

Section WithPlatform.
Context {P : Platform}.

Lemma importKey_Ok_inv name raw u k w w' :
  importKey name raw u w = (Ok k, w') ->
  subtle_importKey name raw u = Ok k /\ w' = logged CallImportKey w.
Proof.
  unfold importKey, bind, record, lift.
  destruct (subtle_importKey name raw u); intros H; try discriminate.
  injection H as <- <-. auto.
Qed.

Lemma encrypt_Ok_inv name nonce k data ct w w' :
  encrypt name nonce k data w = (Ok ct, w') ->
  subtle_encrypt name nonce k data = Ok ct /\ w' = logged CallEncrypt w.
Proof.
  unfold encrypt, bind, record, lift.
  destruct (subtle_encrypt name nonce k data); intros H; try discriminate.
  injection H as <- <-. auto.
Qed.


(** Every failure of [encryptFile] reaches the caller as an [Error] whose
    message starts "Failed to encrypt file: ", after one [console.error];
    no platform exception gets through as it is. *)
Lemma encryptFile_wraps_errors (file : File) (encryptionKey : jsstring)
    (w w' : World) (e : exn) :
  encryptFile file encryptionKey w = (Throw e, w') ->
  exists cause w0,
    e = Error (js "Failed to encrypt file: " ++ message_of cause) /\
    w' = logged CallConsoleError w0.
Proof.
  unfold encryptFile. intros H.
  apply (try_rethrow_Throw_inv _
           (fun error => Error (js "Failed to encrypt file: " ++ message_of error))) in H.
  destruct H as (e0 & w0 & _ & -> & ->). eauto.
Qed.

(** Every failure of [decryptFile] reaches the caller as an [Error] whose
    message starts "Failed to decrypt file: ", after a [console.error]. *)
Lemma decryptFile_wraps_errors (encryptedFile : FileOrBlob)
    (metadata : EncryptionMetadata) (encryptionKey : jsstring)
    (w w' : World) (e : exn) :
  decryptFile encryptedFile metadata encryptionKey w = (Throw e, w') ->
  exists cause w0,
    e = Error (js "Failed to decrypt file: " ++ message_of cause) /\
    w' = logged CallConsoleError w0.
Proof.
  unfold decryptFile. intros H.
  apply (try_rethrow_Throw_inv _
           (fun error => Error (js "Failed to decrypt file: " ++ message_of error))) in H.
  destruct H as (e0 & w0 & _ & -> & ->). eauto.
Qed.







(** With no IV in the metadata [decryptFile] fails before it looks at the
    key or the data: no platform call is made apart from the log. *)
Lemma decryptFile_missing_iv (carrier : FileOrBlob) (metadata : EncryptionMetadata)
    (key : jsstring) (w : World) :
  iv metadata = [] ->
  decryptFile carrier metadata key w =
    (Throw (Error (js "Failed to decrypt file: Missing IV in encryption metadata. Cannot decrypt without initialization vector.")),
     logged CallConsoleError w).
Proof.
  intros H. unfold decryptFile. rewrite H. reflexivity.
Qed.

(** [encryptFile] and [decryptFile] use the key only through the bytes
    the [match]/[parseInt] pipeline reads from it. *)
Lemma encryptFile_key_bytes (file : File) (key key' : jsstring) (w : World) :
  hexToBytes key = hexToBytes key' ->
  encryptFile file key w = encryptFile file key' w.
Proof.
  intros H. unfold encryptFile, encryptFile_work. now rewrite H.
Qed.

Lemma decryptFile_key_bytes (carrier : FileOrBlob) (metadata : EncryptionMetadata)
    (key key' : jsstring) (w : World) :
  hexToBytes key = hexToBytes key' ->
  decryptFile carrier metadata key w = decryptFile carrier metadata key' w.
Proof.
  intros H. unfold decryptFile. now rewrite H.
Qed.

(** X5: For a file of at most 15 MB (a larger one is refused before the key
    is read), a key made of line terminators only, the empty key included,
    makes [match] return [null]: [encryptFile] fails on the [TypeError]
    without drawing entropy or touching the platform. *)
Theorem encryptFile_blank_key (file : File) (key : jsstring) (w : World) :
  size file <= MAX_ENCRYPTION_SIZE ->
  forallb is_line_terminator key = true ->
  encryptFile file key w =
    (Throw (Error (js "Failed to encrypt file: " ++ engine_message NullDereference)),
     logged CallConsoleError w).
Proof.
  intros Hsize Hblank.
  rewrite EncryptionFacts.encryptFile_guarded.
  destruct (N.ltb_spec MAX_ENCRYPTION_SIZE (size file)) as [Hgt|_]; [lia|].
  assert (Hchunks : chunk_pairs key = []).
  { induction key as [|c rest IH]; [reflexivity|].
    cbn [forallb] in Hblank. apply andb_true_iff in Hblank as [Hc Hrest].
    cbn [chunk_pairs]. rewrite Hc. auto. }
  unfold try_catch, encryptFile_work, bind at 1, lift, hexToBytes, match_pairs.
  rewrite Hchunks. reflexivity.
Qed.

End WithPlatform.

Lemma encryptFile_wraps_errors_witness :
  exists e w',
    encryptFile (P := Fake.platform) ten_bytes (js "") Fake.world0 = (Throw e, w') /\
    exists cause w0,
      e = Error (js "Failed to encrypt file: " ++ message_of (P := Fake.platform) cause) /\
      w' = logged CallConsoleError w0.
Proof.
  eexists _, _. split; [vm_compute; reflexivity|].
  eapply (encryptFile_wraps_errors (P := Fake.platform) ten_bytes (js "") Fake.world0).
  vm_compute. reflexivity.
Defined.

Lemma decryptFile_wraps_errors_witness :
  exists e w',
    decryptFile (P := Fake.platform) (ABlob [] sample_tampered)
      {| iv := js "q9D1Gj9kia7T+B1C"; algorithm := js "AES-GCM";
         originalFileName := None; originalFileSize := None;
         originalFileType := None; encryptionTimestamp := None |}
      (js "00112233445566778899aabbccddeeff") Fake.world0 = (Throw e, w') /\
    exists cause w0,
      e = Error (js "Failed to decrypt file: " ++ message_of (P := Fake.platform) cause) /\
      w' = logged CallConsoleError w0.
Proof.
  eexists _, _. split; [vm_compute; reflexivity|].
  eapply (decryptFile_wraps_errors (P := Fake.platform) (ABlob [] sample_tampered)
            {| iv := js "q9D1Gj9kia7T+B1C"; algorithm := js "AES-GCM";
               originalFileName := None; originalFileSize := None;
               originalFileType := None; encryptionTimestamp := None |}
            (js "00112233445566778899aabbccddeeff") Fake.world0).
  vm_compute. reflexivity.
Defined.

End FileFacts.

(* ================================================================= *)
(** ** How key strings are read *)

Module KeyHandlingFacts.
Import Encryption KeySpec KeyFacts CodecFacts EffectFacts FileFacts Samples.

(** The key of 32 zeros. *)
Lemma zero_key_hex : hex_chars 32 (repeat 48 32) = true.
Proof. reflexivity. Qed.

Lemma letter_cases (c : N) :
  103 <= c <= 122 ->
  In c [103; 104; 105; 106; 107; 108; 109; 110; 111; 112;
        113; 114; 115; 116; 117; 118; 119; 120; 121; 122].
Proof. cbv [In]. lia. Qed.

(** A chunk that starts with a letter from g to z is not a number. *)
Lemma parse_letter_chunk (c : N) (rest : jsstring) :
  103 <= c <= 122 -> parseInt16 (c :: rest) = None.
Proof.
  intros H. apply letter_cases in H. cbv [In] in H.
  repeat destruct H as [<-|H]; try contradiction; reflexivity.
Qed.

Lemma letter_not_terminator (c : N) : 103 <= c <= 122 -> is_line_terminator c = false.
Proof.
  intros H. apply letter_cases in H. cbv [In] in H.
  repeat destruct H as [<-|H]; try contradiction; reflexivity.
Qed.

Lemma chunks_of_letters :
  forall key, Forall (fun c => 103 <= c <= 122) key ->
  map (fun chunk => toUint8 (parseInt16 chunk)) (chunk_pairs key)
  = map (fun chunk => toUint8 (parseInt16 chunk)) (chunk_pairs (repeat 48 (length key))).
Proof.
  fix IH 1. intros [|c [|d rest]] H; try reflexivity.
  - inversion H as [|? ? Hc _]; subst.
    cbn [chunk_pairs length repeat]. rewrite (letter_not_terminator c Hc).
    cbn [map]. now rewrite parse_letter_chunk.
  - inversion H as [|? ? Hc H']; subst. inversion H' as [|? ? Hd H'']; subst.
    cbn [chunk_pairs length repeat].
    rewrite (letter_not_terminator c Hc), (letter_not_terminator d Hd).
    change (is_line_terminator 48) with false. cbn [map].
    rewrite parse_letter_chunk by assumption.
    f_equal. apply IH. assumption.
Qed.

Lemma chunk_pairs_nonempty (c : N) (rest : jsstring) :
  is_line_terminator c = false -> chunk_pairs (c :: rest) <> [].
Proof.
  intros H. cbn [chunk_pairs]. rewrite H.
  destruct rest as [|d r]; [discriminate|].
  destruct (is_line_terminator d); discriminate.
Qed.

Lemma hexToBytes_chunks (key : jsstring) :
  chunk_pairs key <> [] ->
  hexToBytes key = Ok (map (fun chunk => toUint8 (parseInt16 chunk)) (chunk_pairs key)).
Proof.
  intros H. unfold hexToBytes, match_pairs.
  destruct (chunk_pairs key); [congruence | reflexivity].
Qed.

Lemma hexToBytes_letters (key : jsstring) :
  Forall (fun c => 103 <= c <= 122) key ->
  hexToBytes key = hexToBytes (repeat 48 (length key)).
Proof.
  intros H. destruct key as [|c rest]; [reflexivity|].
  inversion H as [|? ? Hc Hrest]; subst.
  rewrite (hexToBytes_chunks (c :: rest))
    by (apply chunk_pairs_nonempty, letter_not_terminator, Hc).
  rewrite (hexToBytes_chunks (repeat 48 (length (c :: rest))))
    by (apply chunk_pairs_nonempty; reflexivity).
  f_equal. now apply chunks_of_letters.
Qed.

Lemma digit_value_of_hex_value (a b : N) :
  hex_value a = hex_value b -> digit_value a = digit_value b.
Proof. unfold digit_value. now intros ->. Qed.

Lemma bytes_of_same_digits :
  forall k1 k2, map hex_value k1 = map hex_value k2 -> bytes_of_hex k1 = bytes_of_hex k2.
Proof.
  fix IH 1. intros [|a [|b r1]] [|a' [|b' r2]] H; try reflexivity; try discriminate H.
  cbn [map] in H. injection H as Ha Hb Hr.
  cbn [bytes_of_hex].
  rewrite (digit_value_of_hex_value _ _ Ha), (digit_value_of_hex_value _ _ Hb).
  f_equal. now apply IH.
Qed.

Lemma hex_digits_same_digits :
  forall k1 k2, map hex_value k1 = map hex_value k2 ->
  forallb is_hex_digit k1 = forallb is_hex_digit k2.
Proof.
  induction k1 as [|a r1 IH]; intros [|b r2] H; try reflexivity; try discriminate H.
  cbn [map] in H. injection H as Ha Hr.
  cbn [forallb]. unfold is_hex_digit at 1 3. rewrite Ha. f_equal. now apply IH.
Qed.

Lemma hex_chars_same_digits (n : nat) (k1 k2 : jsstring) :
  map hex_value k1 = map hex_value k2 -> hex_chars n k1 = hex_chars n k2.
Proof.
  intros H. unfold hex_chars. f_equal.
  - f_equal. rewrite <- (length_map hex_value k1), H. apply length_map.
  - now apply hex_digits_same_digits.
Qed.

Section WithPlatform.
Context {P : Platform}.

(** X6: [generateEncryptionKey] draws 16 bytes and returns them as 32 hex
    characters: a key that passes the uploader's format check and that the
    key parser of [encryptFile] reads back as exactly the 16 bytes drawn. *)
Theorem generateEncryptionKey_parses_back (w : World) :
  exists key w',
    generateEncryptionKey w = (Ok key, w') /\
    test_hex 32 key = true /\
    hexToBytes key = Ok (map entropy (seq (cursor w) 16)) /\
    cursor w' = (cursor w + 16)%nat /\
    calls w' = calls w ++ [CallGetRandomValues 16].
Proof.
  eexists _, _. split; [reflexivity|].
  set (bytes := map entropy (seq (cursor w) 16)).
  assert (Hlen : length bytes = 16%nat)
    by (unfold bytes; now rewrite length_map, length_seq).
  split; [|split; [|split; reflexivity]].
  - apply test_hex_spec. split.
    + rewrite toHex_length, Hlen. reflexivity.
    + apply toHex_digits.
  - apply hexToBytes_toHex. intros E. rewrite E in Hlen. discriminate Hlen.
Qed.

(** X7: Two keys of 32 hex characters that agree digit by digit, whatever the
    case of their letters, are the same key to [encryptFile] and
    [decryptFile]. *)
Theorem hex_key_case_insensitive (key key' : jsstring) :
  test_hex 32 key = true ->
  map hex_value key = map hex_value key' ->
  (forall file w, encryptFile file key w = encryptFile file key' w) /\
  (forall carrier metadata w,
     decryptFile carrier metadata key w = decryptFile carrier metadata key' w).
Proof.
  intros Hkey Hsame.
  assert (Hkey' : test_hex 32 key' = true).
  { change (hex_chars 32 key' = true). rewrite <- (hex_chars_same_digits 32 key key' Hsame).
    exact Hkey. }
  assert (Hbytes : hexToBytes key = hexToBytes key').
  { destruct (hexToBytes_key128 key Hkey) as [-> _].
    destruct (hexToBytes_key128 key' Hkey') as [-> _].
    f_equal. now apply bytes_of_same_digits. }
  split; intros.
  - now apply encryptFile_key_bytes.
  - now apply decryptFile_key_bytes.
Qed.

End WithPlatform.

Section WithLaws.
Context {P : Platform} {L : PlatformLaws P}.

(** X8: The key is not validated: a key of 32 letters from g to z, none of
    them a hex digit, is read as sixteen zero bytes.  For a file of at most
    15 MB [encryptFile] accepts it, and what it returns is decrypted by the
    key of 32 zeros. *)
Theorem letters_key_is_zero_key (file : File) (key : jsstring) (w w1 : World) :
  size file <= MAX_ENCRYPTION_SIZE ->
  length key = 32%nat ->
  Forall (fun c => 103 <= c <= 122) key ->
  hexToBytes key = Ok (repeat x00 16) /\
  exists encryptedFile metadata w' decrypted w1',
    encryptFile file key w = (Ok (encryptedFile, metadata), w') /\
    decryptFile (AFile encryptedFile) metadata (repeat 48 32) w1 = (Ok decrypted, w1') /\
    content decrypted = content file.
Proof.
  intros Hsize Hlen Hletters.
  pose proof (hexToBytes_letters key Hletters) as Hbytes. rewrite Hlen in Hbytes.
  split; [rewrite Hbytes; reflexivity|].
  destruct (EncryptionFacts.encryptFile_decryptFile_carrier file (repeat 48 32) w w1
              (ABlob [] []) Hsize zero_key_hex) as (e & m & w' & He & _).
  destruct (EncryptionFacts.encryptFile_decryptFile_carrier file (repeat 48 32) w w1
              (AFile e) Hsize zero_key_hex) as (e' & m' & w'' & He' & Hd).
  rewrite He in He'. injection He' as <- <- <-.
  destruct (Hd eq_refl) as (d & w1' & Hdec & Hcontent).
  exists e, m, w', d, w1'.
  rewrite (encryptFile_key_bytes file key (repeat 48 32) w Hbytes). auto.
Qed.

End WithLaws.

Lemma hex_key_case_insensitive_witness :
  test_hex 32 (js "00112233445566778899AABBCCDDEEFF") = true /\
  map hex_value (js "00112233445566778899AABBCCDDEEFF")
    = map hex_value (js "00112233445566778899aabbccddeeff") /\
  (forall file w,
     encryptFile (P := Fake.platform) file (js "00112233445566778899AABBCCDDEEFF") w
     = encryptFile (P := Fake.platform) file (js "00112233445566778899aabbccddeeff") w) /\
  (forall carrier metadata w,
     decryptFile (P := Fake.platform) carrier metadata
       (js "00112233445566778899AABBCCDDEEFF") w
     = decryptFile (P := Fake.platform) carrier metadata
         (js "00112233445566778899aabbccddeeff") w).
Proof.
  assert (H1 : test_hex 32 (js "00112233445566778899AABBCCDDEEFF") = true)
    by reflexivity.
  assert (H2 : map hex_value (js "00112233445566778899AABBCCDDEEFF")
               = map hex_value (js "00112233445566778899aabbccddeeff"))
    by reflexivity.
  split; [exact H1|]. split; [exact H2|].
  exact (hex_key_case_insensitive (P := Fake.platform) _ _ H1 H2).
Defined.

Lemma letters_key_is_zero_key_witness :
  size ten_bytes <= MAX_ENCRYPTION_SIZE /\
  length (js "youknowthiskingwillgrowstormynow") = 32%nat /\
  Forall (fun c => 103 <= c <= 122) (js "youknowthiskingwillgrowstormynow") /\
  hexToBytes (js "youknowthiskingwillgrowstormynow") = Ok (repeat x00 16) /\
  exists encryptedFile metadata w' decrypted w1',
    encryptFile (P := Fake.platform) ten_bytes (js "youknowthiskingwillgrowstormynow")
      Fake.world0 = (Ok (encryptedFile, metadata), w') /\
    decryptFile (P := Fake.platform) (AFile encryptedFile) metadata (repeat 48 32)
      Fake.world0 = (Ok decrypted, w1') /\
    content decrypted = content ten_bytes.
Proof.
  assert (H1 : size ten_bytes <= MAX_ENCRYPTION_SIZE) by (vm_compute; discriminate).
  assert (H2 : length (js "youknowthiskingwillgrowstormynow") = 32%nat) by reflexivity.
  assert (H3 : Forall (fun c => 103 <= c <= 122) (js "youknowthiskingwillgrowstormynow")).
  { repeat (constructor; [split; discriminate|]). constructor. }
  split; [exact H1|]. split; [exact H2|]. split; [exact H3|].
  exact (letters_key_is_zero_key (P := Fake.platform) (L := FakeFacts.laws)
           ten_bytes (js "youknowthiskingwillgrowstormynow")
           Fake.world0 Fake.world0 H1 H2 H3).
Defined.

End KeyHandlingFacts.

(* ================================================================= *)
(** ** The file properties on the test platform *)

Module FileWitnesses.
Import Encryption FileFacts Samples.



Lemma encryptFile_blank_key_witness :
  size ten_bytes <= MAX_ENCRYPTION_SIZE /\
  forallb is_line_terminator (js "") = true /\
  encryptFile (P := Fake.platform) ten_bytes (js "") Fake.world0 =
    (Throw (Error (js "Failed to encrypt file: "
                     ++ engine_message (Platform := Fake.platform) NullDereference)),
     logged CallConsoleError Fake.world0).
Proof.
  assert (H1 : size ten_bytes <= MAX_ENCRYPTION_SIZE) by (vm_compute; discriminate).
  split; [exact H1|]. split; [reflexivity|].
  exact (encryptFile_blank_key (P := Fake.platform) ten_bytes (js "") Fake.world0
           H1 eq_refl).
Defined.

End FileWitnesses.

(* ================================================================= *)
(** ** [guessMimeType] *)

Module MimeFacts.
Import Encryption CodecFacts.

Lemma split_on_nonempty (sep : N) (s : jsstring) : Shamir.split_on sep s <> [].
Proof.
  induction s as [|c rest IH]; cbn [Shamir.split_on]; [discriminate|].
  destruct (c =? sep); [discriminate|].
  destruct (Shamir.split_on sep rest); discriminate.
Qed.

(** The parts after a separator are the parts of what follows it. *)
Lemma split_on_after (sep : N) (b : jsstring) :
  forall a, exists first others,
    Shamir.split_on sep (a ++ sep :: b) = (first :: others) ++ Shamir.split_on sep b.
Proof.
  induction a as [|c a IH]; cbn [app Shamir.split_on].
  - rewrite N.eqb_refl. exists [], []. reflexivity.
  - destruct IH as (first & others & ->).
    destruct (c =? sep).
    + exists [], (first :: others). reflexivity.
    + exists (c :: first), others. reflexivity.
Qed.

Lemma last_app_nonempty {A} (l1 l2 : list A) (d : A) :
  l2 <> [] -> last (l1 ++ l2) d = last l2 d.
Proof.
  intros H. induction l1 as [|x l1 IH]; [reflexivity|].
  cbn [app]. destruct (l1 ++ l2) eqn:E.
  - destruct l1; [cbn in E; congruence | discriminate E].
  - exact IH.
Qed.

Lemma last_part_after (sep : N) (a b : jsstring) :
  last (Shamir.split_on sep (a ++ sep :: b)) [] = last (Shamir.split_on sep b) [].
Proof.
  destruct (split_on_after sep b a) as (first & others & ->).
  apply last_app_nonempty, split_on_nonempty.
Qed.

(** X9: Only what follows the last dot of the name counts, and its case does
    not: a name whose extension, lower-cased, is a key of the table gets
    that key's MIME type, whatever precedes the dot. *)
Theorem guessMimeType_by_extension (base extension mime : jsstring) :
  ~ In 46 extension ->
  In (toLowerCase_ascii extension, mime) mimeTypes ->
  guessMimeType (base ++ js "." ++ extension) = mime.
Proof.
  intros Hdot Hin. unfold guessMimeType.
  change (base ++ js "." ++ extension) with (base ++ 46 :: extension).
  rewrite last_part_after, (split_on_absent 46 extension Hdot).
  cbn [last].
  set (e := toLowerCase_ascii extension) in *. clearbody e.
  unfold mimeTypes in Hin. cbn [In] in Hin.
  repeat (destruct Hin as [Hin|Hin];
          [injection Hin as <- <-; reflexivity|]).
  contradiction.
Qed.

Lemma guessMimeType_by_extension_witness :
  ~ In 46 (js "PDF") /\
  In (toLowerCase_ascii (js "PDF"), js "application/pdf") mimeTypes /\
  guessMimeType (js "Report.final" ++ js "." ++ js "PDF") = js "application/pdf".
Proof.
  assert (H1 : ~ In 46 (js "PDF")).
  { cbv [js list_ascii_of_string map N_of_ascii N_of_digits In N.add N.mul]. lia. }
  assert (H2 : In (toLowerCase_ascii (js "PDF"), js "application/pdf") mimeTypes)
    by (left; reflexivity).
  split; [exact H1|]. split; [exact H2|].
  exact (guessMimeType_by_extension (js "Report.final") (js "PDF")
           (js "application/pdf") H1 H2).
Defined.

End MimeFacts.

(* ================================================================= *)
(** ** The Merkle tree and its proofs *)

Module MerkleProofFacts.
Import Merkle KeySpec KeyFacts CodecFacts MerkleFacts MerkleRightLeaf.

(** An ASCII prefix is encoded byte for byte, whatever follows it. *)
Lemma encode_ascii_app (h s : jsstring) :
  Forall (fun c => c < 128) h ->
  TextEncoder_encode (h ++ s) = map u8 h ++ TextEncoder_encode s.
Proof.
  induction 1 as [|c h Hc _ IH]; [reflexivity|].
  cbn [TextEncoder_encode map app].
  unfold is_high_surrogate, is_low_surrogate, utf8_bytes.
  destruct (N.leb_spec 0xD800 c); [lia|].
  destruct (N.leb_spec 0xDC00 c); [lia|].
  destruct (N.ltb_spec c 0x80); [|lia].
  cbn [andb app]. now rewrite IH.
Qed.

Lemma combine_ascii (h s : jsstring) : Forall (fun c => c < 128) (combine h s).
Proof. apply toHex_ascii. Qed.

(** With the sibling fixed, the pair hash determines the running hash. *)
Lemma combine_left_injective (h h' s : jsstring) :
  Forall (fun c => c < 128) h -> Forall (fun c => c < 128) h' ->
  combine h s = combine h' s -> h = h'.
Proof.
  intros Hh Hh' H. unfold combine in H. apply toHex_injective in H.
  rewrite !encode_ascii_app in H by assumption.
  apply app_inv_tail in H. now apply map_u8_injective.
Qed.

Lemma fold_combine_injective :
  forall proof h h',
    Forall (fun c => c < 128) h -> Forall (fun c => c < 128) h' ->
    fold_left combine proof h = fold_left combine proof h' -> h = h'.
Proof.
  induction proof as [|s proof IH]; intros h h' Hh Hh' H; [exact H|].
  cbn [fold_left] in H.
  apply IH in H; try apply combine_ascii.
  now apply (combine_left_injective h h' s).
Qed.

Lemma leafHash_ascii (chunk : list byte) : Forall (fun c => c < 128) (leafHash chunk).
Proof. apply toHex_ascii. Qed.

(** X10: [generateMerkleTree] returns for every list of chunks, with one proof
    per chunk.  Without chunks the root is [undefined]; otherwise the root
    is a hash and the first chunk verifies against it with the first of the
    generated proofs. *)
Theorem generateMerkleTree_shape (chunks : list (list byte)) :
  exists r,
    generateMerkleTree chunks = Some r /\
    length (proofs r) = length chunks /\
    match chunks with
    | [] => root r = None
    | chunk :: _ =>
        exists rootHash proof,
          root r = Some rootHash /\
          nth_error (proofs r) 0 = Some proof /\
          verifyMerkleProof chunk proof rootHash = true
    end.
Proof.
  destruct (generateMerkleTree_total chunks) as [r Hr].
  exists r. split; [exact Hr|].
  split; [now apply generateMerkleTree_proofs_length|].
  destruct chunks as [|chunk others].
  - injection Hr as <-. reflexivity.
  - destruct (leftmost_leaf_verifies chunk others) as (r' & h & p & Hr' & Hroot & Hp & Hv).
    rewrite Hr in Hr'. injection Hr' as <-. eauto.
Qed.

(** X11: Of two different chunks of the same length, the second is rejected
    with its own generated proof: [verifyMerkleProof] always hashes
    [hash + sibling], the tree was built from [left + right]. *)
Theorem second_chunk_of_two_rejected (a b : list byte) :
  length a = length b -> a <> b ->
  exists r rootHash proof,
    generateMerkleTree [a; b] = Some r /\
    root r = Some rootHash /\
    nth_error (proofs r) 1 = Some proof /\
    verifyMerkleProof b proof rootHash = false.
Proof.
  intros Hlen Hne.
  eexists _, _, _. split; [reflexivity|]. cbn [root proofs].
  split; [reflexivity|]. split; [reflexivity|].
  unfold verifyMerkleProof. cbn.
  match goal with |- jsstring_eqb ?x ?y = false =>
    destruct (jsstring_eqb x y) eqn:E; [|reflexivity] end.
  exfalso. apply jsstring_eqb_eq in E.
  change (combine (leafHash b) (leafHash a) = combine (leafHash a) (leafHash b)) in E.
  unfold leafHash in E. apply combine_injective in E.
  fold (leafHash a) in E. fold (leafHash b) in E.
  apply Hne. apply leafHash_injective. symmetry.
  apply (app_same_length _ _ _ _) in E; [exact E|].
  rewrite !leafHash_length. lia.
Qed.

(** X12: A proof and a root admit at most one chunk: a chunk that differs from
    the one a proof was issued for never verifies with that proof against
    the same root. *)
Theorem verifyMerkleProof_binds_chunk (chunk chunk' : list byte)
    (proof : list jsstring) (rootHash : jsstring) :
  verifyMerkleProof chunk proof rootHash = true ->
  verifyMerkleProof chunk' proof rootHash = true ->
  chunk = chunk'.
Proof.
  unfold verifyMerkleProof. intros H H'.
  apply jsstring_eqb_eq in H, H'. rewrite <- H' in H.
  apply fold_combine_injective in H; try apply leafHash_ascii.
  now apply leafHash_injective.
Qed.

Lemma second_chunk_of_two_rejected_witness :
  length [x00; x01] = length [x00; x02] /\ [x00; x01] <> [x00; x02] /\
  exists r rootHash proof,
    generateMerkleTree [[x00; x01]; [x00; x02]] = Some r /\
    root r = Some rootHash /\
    nth_error (proofs r) 1 = Some proof /\
    verifyMerkleProof [x00; x02] proof rootHash = false.
Proof.
  assert (H1 : length [x00; x01] = length [x00; x02]) by reflexivity.
  assert (H2 : [x00; x01] <> [x00; x02]) by discriminate.
  split; [exact H1|]. split; [exact H2|].
  exact (second_chunk_of_two_rejected [x00; x01] [x00; x02] H1 H2).
Defined.

Lemma verifyMerkleProof_binds_chunk_witness :
  verifyMerkleProof [x00] [js "43"] (js "34323433") = true /\
  [x00] = [x00].
Proof.
  assert (H : verifyMerkleProof [x00] [js "43"] (js "34323433") = true)
    by (vm_compute; reflexivity).
  split; [exact H|].
  exact (verifyMerkleProof_binds_chunk [x00] [x00] [js "43"] (js "34323433") H H).
Defined.

End MerkleProofFacts.

(* ================================================================= *)
(** ** Key splitting: what [splitKey] draws and what [combineShares] accepts *)

Module ShareFacts.
Import Shamir ShamirFacts.

Section WithPlatform.
Context {P : Platform}.



Lemma lagrangeTerm_in_range (points : list Point) (pi : Point) (i : nat) :
  forall n j term,
    (j + n <= length points)%nat ->
    exists t, lagrangeTerm points pi i j n term = Ok t.
Proof.
  induction n as [|n IH]; intros j term Hlen; cbn [lagrangeTerm]; [eauto|].
  destruct (Nat.eqb i j); [apply IH; lia|].
  unfold point_at.
  destruct (nth_error points j) as [pj|] eqn:E.
  - apply IH. lia.
  - apply nth_error_None in E. lia.
Qed.

Lemma interpolate_in_range (points : list Point) (threshold : nat) :
  (threshold <= length points)%nat ->
  forall n i secret,
    (i + n <= length points)%nat ->
    exists s, interpolate points threshold i n secret = Ok s.
Proof.
  intros Ht. induction n as [|n IH]; intros i secret Hlen; cbn [interpolate]; [eauto|].
  unfold point_at.
  destruct (nth_error points i) as [pi|] eqn:E.
  - destruct (lagrangeTerm_in_range points pi i threshold 0 (py pi)) as [t ->]; [lia|].
    apply IH. lia.
  - apply nth_error_None in E. lia.
Qed.

(** X14: Given at least [threshold] shares, [combineShares] checks none of
    them: malformed or inconsistent shares are interpolated like any
    others, and no error of the function's own is thrown.  It returns a
    string, unless the interpolated sum rounds to [+Infinity] (as two shares
    with the same x give): then the byte loop fills its array until [push]
    throws a [RangeError], which leaves [combineShares]. *)
Theorem combineShares_checks_no_share (shares : list jsstring) (threshold : Z) :
  (threshold <= Z.of_nat (length shares))%Z ->
  exists sum,
    interpolate (map parseShare shares) (Z.to_nat threshold) 0 (Z.to_nat threshold)
      (double_of_Z 0) = Ok sum /\
    (if match Math_round sum with RoundInf false => true | _ => false end
     then combineShares shares threshold
          = Throw (Engine (OtherPlatformError (js "RangeError")))
     else exists secret, combineShares shares threshold = Ok secret).
Proof.
  intros H.
  destruct (interpolate_in_range (map parseShare shares) (Z.to_nat threshold))
    with (n := Z.to_nat threshold) (i := 0%nat) (secret := double_of_Z 0) as [sum Hsum];
    try (rewrite length_map; lia).
  exists sum. split; [exact Hsum|].
  unfold combineShares.
  destruct (Z.ltb_spec (Z.of_nat (length shares)) threshold); [lia|].
  rewrite Hsum.
  destruct (Math_round sum) as [|[|]|z] eqn:Er.
  - eexists. reflexivity.
  - eexists. reflexivity.
  - reflexivity.
  - destruct (secretBytes_returns (RoundInt z)) as [bs ->]; [discriminate|].
    eexists. reflexivity.
Qed.

(** A threshold of zero or less asks for no share at all: [combineShares]
    then returns the empty string for any list of shares, the empty list
    included. *)
Lemma combineShares_no_threshold (shares : list jsstring) (threshold : Z) :
  (threshold <= 0)%Z ->
  combineShares shares threshold = Ok [].
Proof.
  intros H. unfold combineShares.
  destruct (Z.ltb_spec (Z.of_nat (length shares)) threshold); [lia|].
  replace (Z.to_nat threshold) with 0%nat by lia.
  reflexivity.
Qed.

End WithPlatform.

Lemma combineShares_checks_no_share_witness :
  (2 <= Z.of_nat (length [js "1:5"; js "1:7"]))%Z /\
  exists sum,
    interpolate (map (parseShare (P := Fake.platform)) [js "1:5"; js "1:7"])
      (Z.to_nat 2) 0 (Z.to_nat 2) (double_of_Z 0) = Ok sum /\
    (if match Math_round sum with RoundInf false => true | _ => false end
     then combineShares (P := Fake.platform) [js "1:5"; js "1:7"] 2
          = Throw (Engine (OtherPlatformError (js "RangeError")))
     else exists secret,
         combineShares (P := Fake.platform) [js "1:5"; js "1:7"] 2 = Ok secret).
Proof.
  assert (H : (2 <= Z.of_nat (length [js "1:5"; js "1:7"]))%Z)
    by (simpl; lia).
  split; [exact H|].
  exact (combineShares_checks_no_share (P := Fake.platform)
           [js "1:5"; js "1:7"] 2 H).
Defined.

Lemma combineShares_no_threshold_witness :
  (0 <= 0)%Z /\ combineShares (P := Fake.platform) [] 0 = Ok [].
Proof.
  assert (H : (0 <= 0)%Z) by lia.
  split; [exact H|].
  exact (combineShares_no_threshold (P := Fake.platform) [] 0 H).
Defined.

End ShareFacts.

(* ================================================================= *)
(** ** The multi-layer scheme: what is produced and what is rejected *)

Module LayerFacts.
Import MultiLayer KeySpec KeyFacts Base64Facts CodecFacts EffectFacts EffectInversion
       FileFacts Samples.

Lemma bytes_of_hex_firstn :
  forall n s, firstn n (bytes_of_hex s) = bytes_of_hex (firstn (2 * n) s).
Proof.
  induction n as [|n IH]; intros s; [reflexivity|].
  replace (2 * S n)%nat with (S (S (2 * n))) by lia.
  destruct s as [|a [|b rest]]; try reflexivity.
  cbn [bytes_of_hex firstn]. f_equal. apply IH.
Qed.

Lemma test_hex_firstn (key : jsstring) :
  test_hex 64 key = true -> test_hex 32 (firstn 32 key) = true.
Proof.
  intros H. apply test_hex_spec in H as [Hlen Hhex]. apply test_hex_spec. split.
  - rewrite length_firstn, Hlen. reflexivity.
  - rewrite forallb_forall in *. intros c Hc. apply Hhex.
    rewrite <- (firstn_skipn 32 key). apply in_or_app. now left.
Qed.

Lemma test_hex_lengths (key : jsstring) :
  test_hex 64 key = true -> test_hex 32 key = false.
Proof.
  intros H. apply test_hex_spec in H as [Hlen _].
  unfold test_hex. rewrite Hlen. reflexivity.
Qed.

Lemma toHex_key128 (bytes : list byte) :
  length bytes = 16%nat -> test_hex 32 (toHex bytes) = true.
Proof.
  intros H. apply test_hex_spec. split.
  - now rewrite toHex_length, H.
  - apply toHex_digits.
Qed.

(** [atob] fails in one way only. *)
Lemma atob_outcome (s : jsstring) :
  (exists text, atob s = Ok text) \/ atob s = Throw (Engine InvalidCharacterError).
Proof.
  unfold atob.
  destruct (Nat.eqb (length _ mod 4) 1); [now right|].
  destruct (base64_indices _); [left; eauto | now right].
Qed.

Section WithPlatform.
Context {P : Platform}.

Lemma keyBuffer_prefix (primaryKey : jsstring) (w : World) :
  test_hex 64 primaryKey = true ->
  decryptLayerKeys_keyBuffer (firstn 32 primaryKey) w
  = decryptLayerKeys_keyBuffer primaryKey w.
Proof.
  intros H. unfold decryptLayerKeys_keyBuffer.
  rewrite (test_hex_firstn primaryKey H), (test_hex_lengths primaryKey H), H.
  destruct (hexToBytes_key128 _ (test_hex_firstn primaryKey H)) as [-> _].
  destruct (hexToBytes_key256 primaryKey H) as [Hb _].
  unfold bind, lift. rewrite Hb. unfold ret.
  now rewrite (bytes_of_hex_firstn 16 primaryKey).
Qed.

(** X15: Of a primary key of 64 hex characters only the first 32 count: that
    half alone opens the bundle of layer keys, and so decrypts the data,
    exactly as the whole key does. *)
Theorem long_key_first_half_suffices (primaryKey : jsstring) :
  test_hex 64 primaryKey = true ->
  (forall bundle w,
     decryptLayerKeys bundle (firstn 32 primaryKey) w
     = decryptLayerKeys bundle primaryKey w) /\
  (forall encryptedData metadata w,
     multiLayerDecrypt encryptedData metadata (firstn 32 primaryKey) w
     = multiLayerDecrypt encryptedData metadata primaryKey w).
Proof.
  intros H.
  assert (Hkeys : forall bundle w,
             decryptLayerKeys bundle (firstn 32 primaryKey) w
             = decryptLayerKeys bundle primaryKey w).
  { intros bundle w. unfold decryptLayerKeys, bind at 1 3, lift at 1 3.
    destruct (atob (nth 0 _ _)); try reflexivity.
    unfold bind at 1 3, lift at 1 3.
    destruct (atob (nth 1 _ _)); try reflexivity.
    unfold bind at 1 3. now rewrite keyBuffer_prefix. }
  split; [exact Hkeys|].
  intros encryptedData metadata w. unfold multiLayerDecrypt, bind.
  now rewrite Hkeys.
Qed.

(** X16: A bundle of layer keys without a "." has no IV part; [atob] is then
    given [undefined] and rejects it, if it has not already rejected the
    first part: decryption fails on [InvalidCharacterError] before any key
    is derived. *)
Theorem decryptLayerKeys_needs_iv_part (bundle primaryKey : jsstring) (w : World) :
  ~ In 46 bundle ->
  decryptLayerKeys bundle primaryKey w = (Throw (Engine InvalidCharacterError), w).
Proof.
  intros H. unfold decryptLayerKeys.
  rewrite (split_on_absent 46 bundle H). cbn [nth].
  unfold bind at 1, lift at 1.
  destruct (atob_outcome bundle) as [[text ->]| ->]; [|reflexivity].
  reflexivity.
Qed.

(** X17: When the recovered array holds fewer keys than the metadata lists
    layers, the first turn of the loop reads [undefined] as its key and
    fails on the [TypeError]; no layer has been decrypted. *)
Theorem multiLayerDecrypt_missing_key (encryptedData : list byte)
    (metadata : MultiLayerMetadata) (primaryKey : jsstring) (w w1 : World)
    (items : list JSONValue) :
  decryptLayerKeys (encryptedLayerKeys metadata) primaryKey w = (Ok (JArray items), w1) ->
  (length items < length (layers metadata))%nat ->
  multiLayerDecrypt encryptedData metadata primaryKey w
  = (Throw (Engine NullDereference), w1).
Proof.
  intros Hkeys Hlen. unfold multiLayerDecrypt.
  erewrite bind_Ok by exact Hkeys.
  destruct (rev (layers metadata)) as [|layer below] eqn:E.
  - apply (f_equal (@length _)) in E. rewrite length_rev in E. simpl in E. lia.
  - cbn [decryptLayers]. unfold bind at 1, decryptLayer, bind at 1, lift at 1.
    cbn [layerKey_at].
    assert (Hnone : nth_error items (length below) = None).
    { apply nth_error_None.
      apply (f_equal (@length _)) in E. rewrite length_rev in E. simpl in E. lia. }
    rewrite Hnone. reflexivity.
Qed.

Lemma getRandomValues_inv (n : nat) (w w' : World) (bytes : list byte) :
  getRandomValues n w = (Ok bytes, w') ->
  bytes = map entropy (seq (cursor w) n) /\
  cursor w' = (cursor w + n)%nat.
Proof. unfold getRandomValues. intros H. injection H as <- <-. auto. Qed.

(** What one successful turn of the encryption loop has done. *)
Lemma encryptLayer_Ok_inv (i : nat) (data enc : list byte) (key : jsstring)
    (layer : Layer) (w w' : World) :
  encryptLayer i data w = (Ok (enc, key, layer), w') ->
  key = toHex (map entropy (seq (cursor w) 16)) /\
  algorithm layer = js "AES-GCM" /\
  layerIndex layer = i /\
  atob (ivBase64 layer) = Ok (fromCharCodes (map entropy (seq (cursor w + 16) 12))) /\
  cursor w' = (cursor w + 28)%nat.
Proof.
  unfold encryptLayer. intros H.
  apply bind_Ok_inv in H as (keyBytes & w1 & Hk & H).
  apply getRandomValues_inv in Hk as [-> Hc1].
  apply bind_Ok_inv in H as (keyBuffer & w2 & Hb & H).
  apply lift_Ok_inv in Hb as [_ ->].
  apply bind_Ok_inv in H as ([] & w3 & Hchk & H).
  assert (w3 = w1) as ->.
  { unfold checkKeyLength in Hchk. destruct (Nat.eqb _ _); [|discriminate Hchk].
    now injection Hchk as <-. }
  apply bind_Ok_inv in H as (ck & w4 & Hck & H).
  apply importKey_Ok_inv in Hck as [_ ->].
  apply bind_Ok_inv in H as (nonce & w5 & Hn & H).
  apply getRandomValues_inv in Hn as [-> Hc5].
  apply bind_Ok_inv in H as (ct & w6 & Hct & H).
  apply encrypt_Ok_inv in Hct as [_ ->].
  apply bind_Ok_inv in H as (iv64 & w7 & Hiv & H).
  apply lift_Ok_inv in Hiv as [Hiv ->].
  injection H as <- <- <- <-.
  cbn [algorithm layerIndex ivBase64 cursor logged] in *.
  repeat (split; [reflexivity|]).
  split.
  - destruct (atob_btoa_bytes (map entropy (seq (cursor w1) 12))) as (t & Ht & Ha & _).
    rewrite Ht in Hiv. injection Hiv as <-. now rewrite <- Hc1.
  - lia.
Qed.

Lemma keyBuffer_cursor (primaryKey : jsstring) (w w' : World) (kb : list byte) :
  encryptLayerKeys_keyBuffer primaryKey w = (Ok kb, w') -> cursor w' = cursor w.
Proof.
  unfold encryptLayerKeys_keyBuffer.
  destruct (test_hex 32 primaryKey).
  - intros H. apply lift_Ok_inv in H as [_ ->]. reflexivity.
  - destruct (test_hex 64 primaryKey).
    + intros H. apply bind_Ok_inv in H as (b & w1 & Hb & H).
      apply lift_Ok_inv in Hb as [_ ->]. now injection H as _ <-.
    + intros H. apply bind_Ok_inv in H as (b & w1 & Hb & H).
      unfold digest, bind, record, lift in Hb.
      destruct (subtle_digest _ _); try discriminate Hb.
      injection Hb as _ <-. now injection H as _ <-.
Qed.

Lemma encryptLayerKeys_Ok_inv (keys : list jsstring) (primaryKey bundle : jsstring)
    (w w' : World) :
  encryptLayerKeys keys primaryKey w = (Ok bundle, w') ->
  cursor w' = (cursor w + 12)%nat /\
  exists keys64 iv64,
    bundle = keys64 ++ js "." ++ iv64 /\
    atob iv64 = Ok (fromCharCodes (map entropy (seq (cursor w) 12))) /\
    ~ In 46 keys64 /\ ~ In 46 iv64.
Proof.
  unfold encryptLayerKeys. intros H.
  apply bind_Ok_inv in H as (kb & w1 & Hkb & H).
  apply keyBuffer_cursor in Hkb.
  apply bind_Ok_inv in H as (ck & w2 & Hck & H).
  apply importKey_Ok_inv in Hck as [_ ->].
  apply bind_Ok_inv in H as (nonce & w3 & Hn & H).
  apply getRandomValues_inv in Hn as [-> Hc3].
  apply bind_Ok_inv in H as (ct & w4 & Hct & H).
  apply encrypt_Ok_inv in Hct as [_ ->].
  apply bind_Ok_inv in H as (keys64 & w5 & Hk64 & H).
  apply lift_Ok_inv in Hk64 as [Hk64 ->].
  apply bind_Ok_inv in H as (iv64 & w6 & Hiv & H).
  apply lift_Ok_inv in Hiv as [Hiv ->].
  injection H as <- <-.
  cbn [cursor logged] in *.
  split; [lia|].
  exists keys64, iv64. split; [reflexivity|].
  destruct (atob_btoa_bytes ct) as (t & Ht & _ & Hdot).
  rewrite Ht in Hk64. injection Hk64 as <-.
  destruct (atob_btoa_bytes (map entropy (seq (cursor w1) 12))) as (t' & Ht' & Ha & Hdot').
  rewrite Ht' in Hiv. injection Hiv as <-.
  rewrite <- Hkb. auto.
Qed.

(** X18: What a successful [multiLayerEncrypt] returns, counted from the
    world [w1] in which [uuidv4()] has returned the id, whatever that call
    does: the id as the metadata's [encryptionId]; three layers numbered
    0, 1, 2, all AES-GCM; three layer keys, each the hex of 16 bytes of
    entropy of its own (those at offsets 0, 28 and 56 from [w1]), handed
    back to the caller in the clear; a bundle of the form [keys.iv] with a
    single dot; and the function's own draws come to 96 bytes of entropy
    (16 + 12 per layer, 12 for the bundle). *)
Theorem multiLayerEncrypt_output (data : list byte) (primaryKey : jsstring)
    (w w' : World) (r : MultiLayerResult) :
  multiLayerEncrypt data primaryKey w = (Ok r, w') ->
  exists w1,
    uuidv4 w = (Ok (encryptionId (metadata r)), w1) /\
    map layerIndex (layers (metadata r)) = [0; 1; 2]%nat /\
    map algorithm (layers (metadata r)) = [js "AES-GCM"; js "AES-GCM"; js "AES-GCM"] /\
    layerKeys r =
      map (fun i => toHex (map entropy (seq (cursor w1 + 28 * i) 16))) [0; 1; 2]%nat /\
    Forall (fun key => test_hex 32 key = true) (layerKeys r) /\
    length (Shamir.split_on 46 (encryptedLayerKeys (metadata r))) = 2%nat /\
    cursor w' = (cursor w1 + 96)%nat.
Proof.
  unfold multiLayerEncrypt. intros H.
  apply bind_Ok_inv in H as (id & w1 & Hid & H).
  exists w1.
  apply bind_Ok_inv in H as ([[enc keys] ls] & w2 & Hl & H).
  unfold LAYERS in Hl. cbn [encryptLayers] in Hl.
  apply bind_Ok_inv in Hl as ([[e0 k0] l0] & wa & H0 & Hl).
  apply encryptLayer_Ok_inv in H0 as (-> & Ha0 & Hi0 & _ & Hca).
  apply bind_Ok_inv in Hl as ([[e1 k1] l1] & wb & H1 & Hl).
  apply encryptLayer_Ok_inv in H1 as (-> & Ha1 & Hi1 & _ & Hcb).
  apply bind_Ok_inv in Hl as ([[e2 k2] l2] & wc & H2 & Hl).
  apply encryptLayer_Ok_inv in H2 as (-> & Ha2 & Hi2 & _ & Hcc).
  injection Hl as <- <- <- <-.
  apply bind_Ok_inv in H as (bundle & w3 & Hbundle & H).
  apply encryptLayerKeys_Ok_inv in Hbundle
    as (Hc3 & keys64 & iv64 & -> & _ & Hdot & Hdot').
  injection H as <- <-.
  cbn [metadata layers layerKeys encryptedLayerKeys encryptionId app].
  split; [exact Hid|].
  split; [cbn [map]; now rewrite Hi0, Hi1, Hi2|].
  split; [cbn [map]; now rewrite Ha0, Ha1, Ha2|].
  split.
  { replace (cursor wa) with (cursor w1 + 28 * 1)%nat by lia.
    replace (cursor wb) with (cursor w1 + 28 * 2)%nat by lia.
    cbn [map]. now rewrite Nat.mul_0_r, Nat.add_0_r. }
  split.
  { repeat (apply Forall_cons; [apply toHex_key128; reflexivity|]).
    apply Forall_nil. }
  split.
  { change (keys64 ++ js "." ++ iv64) with (keys64 ++ [46] ++ iv64).
    rewrite (split_on_two 46 keys64 iv64 Hdot Hdot'). reflexivity. }
  lia.
Qed.

End WithPlatform.

Lemma long_key_first_half_suffices_witness :
  test_hex 64 (js "00112233445566778899aabbccddeeff0123456789abcdef0123456789abcdef")
    = true /\
  (forall bundle w,
     decryptLayerKeys (P := Fake.platform) bundle
       (firstn 32 (js "00112233445566778899aabbccddeeff0123456789abcdef0123456789abcdef")) w
     = decryptLayerKeys (P := Fake.platform) bundle
         (js "00112233445566778899aabbccddeeff0123456789abcdef0123456789abcdef") w) /\
  (forall encryptedData metadata w,
     multiLayerDecrypt (P := Fake.platform) encryptedData metadata
       (firstn 32 (js "00112233445566778899aabbccddeeff0123456789abcdef0123456789abcdef")) w
     = multiLayerDecrypt (P := Fake.platform) encryptedData metadata
         (js "00112233445566778899aabbccddeeff0123456789abcdef0123456789abcdef") w).
Proof.
  assert (H : test_hex 64
                (js "00112233445566778899aabbccddeeff0123456789abcdef0123456789abcdef")
              = true) by reflexivity.
  split; [exact H|].
  exact (long_key_first_half_suffices (P := Fake.platform) _ H).
Defined.

Lemma decryptLayerKeys_needs_iv_part_witness :
  ~ In 46 (js "q9D1Gj9kia7T+B1C") /\
  decryptLayerKeys (P := Fake.platform) (js "q9D1Gj9kia7T+B1C") (js "hunter2") Fake.world0
  = (Throw (Engine InvalidCharacterError), Fake.world0).
Proof.
  assert (H : ~ In 46 (js "q9D1Gj9kia7T+B1C")).
  { cbv [js list_ascii_of_string map N_of_ascii N_of_digits In N.add N.mul]. lia. }
  split; [exact H|].
  exact (decryptLayerKeys_needs_iv_part (P := Fake.platform) _ (js "hunter2")
           Fake.world0 H).
Defined.

Lemma multiLayerDecrypt_missing_key_witness :
  exists items w1,
    decryptLayerKeys (P := Fake.platform) sample_bundle (js "hunter2") Fake.world0
      = (Ok (JArray items), w1) /\
    (length items < length (sample_layers ++ sample_layers))%nat /\
    multiLayerDecrypt (P := Fake.platform) sample_ciphertext
      {| version := js "1.0"; layers := sample_layers ++ sample_layers;
         encryptedLayerKeys := sample_bundle;
         encryptionId := js "0b30557a9fc4e90e33587da2c7ec1136" |}
      (js "hunter2") Fake.world0
    = (Throw (Engine NullDereference), w1).
Proof.
  assert (H : decryptLayerKeys (P := Fake.platform) sample_bundle (js "hunter2")
                Fake.world0
              = (Ok (JArray (map JString [js "5b80a5caef14395e83a8cdf2173c6186";
                                          js "678cb1d6fb20456a8fb4d9fe23486d92";
                                          js "7398bde2072c51769bc0e50a2f54799e"])),
                 logged CallDecrypt (logged CallImportKey (logged CallDigest Fake.world0))))
    by (vm_compute; reflexivity).
  assert (Hlen : (length (map JString [js "5b80a5caef14395e83a8cdf2173c6186";
                                       js "678cb1d6fb20456a8fb4d9fe23486d92";
                                       js "7398bde2072c51769bc0e50a2f54799e"])
                  < length (sample_layers ++ sample_layers))%nat)
    by (simpl; lia).
  eexists _, _. split; [exact H|]. split; [exact Hlen|].
  exact (multiLayerDecrypt_missing_key (P := Fake.platform) sample_ciphertext
           {| version := js "1.0"; layers := sample_layers ++ sample_layers;
              encryptedLayerKeys := sample_bundle;
              encryptionId := js "0b30557a9fc4e90e33587da2c7ec1136" |}
           (js "hunter2") Fake.world0 _ _ H Hlen).
Defined.

Lemma multiLayerEncrypt_output_witness :
  exists r w',
    multiLayerEncrypt (P := Fake.platform) sample_plaintext (js "hunter2") Fake.world0
      = (Ok r, w') /\
    exists w1,
      uuidv4 (P := Fake.platform) Fake.world0 = (Ok (encryptionId (metadata r)), w1) /\
      map layerIndex (layers (metadata r)) = [0; 1; 2]%nat /\
      map algorithm (layers (metadata r))
        = [js "AES-GCM"; js "AES-GCM"; js "AES-GCM"] /\
      layerKeys r =
        map (fun i => toHex (map (entropy (Platform := Fake.platform))
                               (seq (cursor w1 + 28 * i) 16)))
            [0; 1; 2]%nat /\
      Forall (fun key => test_hex 32 key = true) (layerKeys r) /\
      length (Shamir.split_on 46 (encryptedLayerKeys (metadata r))) = 2%nat /\
      cursor w' = (cursor w1 + 96)%nat.
Proof.
  eexists _, _. split; [vm_compute; reflexivity|].
  apply (multiLayerEncrypt_output (P := Fake.platform) sample_plaintext (js "hunter2")
           Fake.world0).
  vm_compute. reflexivity.
Defined.

End LayerFacts.

(* ================================================================= *)
(** ** The decryptor component *)

Module DecryptorFacts.
Import Encryption Decryptor KeySpec KeyFacts EffectFacts FileFacts Samples.

Section WithPlatform.
Context {P : Platform}.
Variable storedMetadata : jsstring -> Result (option EncryptionMetadata).

(** X19: With a file selected and a non-empty key entered, but without stored
    metadata, that is for every file whose name does not start with "baf"
    and for every file with no entry in the store, [handleDecrypt] cannot
    succeed, whatever the key: it hands [decryptFile] an empty IV, and ends
    with the "Missing IV" error, no download, and two logged errors. *)
Theorem handleDecrypt_without_metadata (st : State) (f : File) (w : World) :
  file st = Some f ->
  encryptionKey st <> [] ->
  startsWith (js "baf") (name f) = false \/
    storedMetadata (nth 0 (Shamir.split_on 46 (name f)) []) = Ok None ->
  exists st',
    handleDecrypt storedMetadata st w
      = (Ok st', logged CallConsoleError (logged CallConsoleError w)) /\
    error st' = Some (js "Failed to decrypt file: Failed to decrypt file: Missing IV in encryption metadata. Cannot decrypt without initialization vector.") /\
    success st' = None /\
    downloads st' = downloads st /\
    isDecrypting st' = false.
Proof.
  intros Hfile Hkey Hnone. unfold handleDecrypt. rewrite Hfile.
  destruct (encryptionKey st) as [|c key] eqn:Ekey; [congruence|].
  assert (Hfound :
    (if startsWith (js "baf") (name f)
     then lift (storedMetadata (nth 0 (Shamir.split_on 46 (name f)) []))
     else ret None) w = (Ok None, w)).
  { destruct Hnone as [-> | Hnone]; [reflexivity|].
    destruct (startsWith _ _); [|reflexivity]. now rewrite Hnone. }
  eexists. split.
  - unfold bind at 1, try_catch. erewrite bind_Ok by exact Hfound.
    cbv beta iota. unfold bind at 1.
    rewrite decryptFile_missing_iv by reflexivity.
    reflexivity.
  - cbn. repeat split.
Qed.

End WithPlatform.

Section WithLaws.
Context {P : Platform} {L : PlatformLaws P}.
Variable storedMetadata : jsstring -> Result (option EncryptionMetadata).


End WithLaws.

Lemma handleDecrypt_without_metadata_witness :
  exists st',
    handleDecrypt (P := Fake.platform) (fun _ => Ok None)
      {| file := Some ten_bytes; encryptionKey := js "00112233445566778899aabbccddeeff";
         outputFilename := js ""; isDecrypting := false; error := None;
         success := None; downloads := [] |} Fake.world0
      = (Ok st', logged CallConsoleError (logged CallConsoleError Fake.world0)) /\
    error st' = Some (js "Failed to decrypt file: Failed to decrypt file: Missing IV in encryption metadata. Cannot decrypt without initialization vector.") /\
    success st' = None /\
    downloads st' = [] /\
    isDecrypting st' = false.
Proof.
  apply (handleDecrypt_without_metadata (P := Fake.platform) (fun _ => Ok None)
           {| file := Some ten_bytes;
              encryptionKey := js "00112233445566778899aabbccddeeff";
              outputFilename := js ""; isDecrypting := false; error := None;
              success := None; downloads := [] |} ten_bytes Fake.world0).
  - reflexivity.
  - discriminate.
  - left. reflexivity.
Defined.


End DecryptorFacts.

(* ================================================================= *)
(** ** Access tokens *)

Module TokenFacts.
Import AccessToken Base64Facts EffectFacts MultiLayer.

Section WithPlatform.
Context {P : Platform}.

(** The conversion of a parsed value to a string returns or throws. *)
Lemma toStringValue_returns : forall v, toStringValue v <> Diverges.
Proof.
  refine (fix IH (v : JSONValue) : toStringValue v <> Diverges :=
            match v with
            | JArray items =>
                (fun Hel => _)
                  ((fix IHl (l : list JSONValue) :
                      Forall (fun item => toStringValue item <> Diverges) l :=
                      match l with
                      | [] => Forall_nil _
                      | item :: rest => Forall_cons item (IH item) (IHl rest)
                      end) items)
            | _ => _
            end); cbn [toStringValue]; try discriminate.
  - destruct b; discriminate.
  - match goal with
    | |- match ?elements items with _ => _ end <> _ =>
        assert (Hok : elements items <> Diverges);
        [|destruct (elements items); congruence]
    end.
    clear IH. induction Hel as [|item rest Hitem _ IHrest]; [discriminate|].
    assert (Hitem' : match item with JNull => Ok [] | _ => toStringValue item end
                     <> Diverges) by (destruct item; try discriminate; exact Hitem).
    destruct (match item with JNull => Ok [] | _ => toStringValue item end)
      as [s| |]; [|discriminate|congruence].
    match goal with
    | |- match ?t with _ => _ end <> _ => destruct t; congruence
    end.
  - match goal with
    | |- match ?found with _ => _ end <> _ => destruct found; discriminate
    end.
Qed.

Lemma toNumber_returns (v : option JSONValue) : toNumber v <> Diverges.
Proof.
  destruct v as [[|[|]|d|s|items|fields]|]; cbn [toNumber]; try discriminate.
  - pose proof (toStringValue_returns (JArray items)).
    destruct (toStringValue (JArray items)); congruence.
  - pose proof (toStringValue_returns (JObject fields)).
    destruct (toStringValue (JObject fields)); congruence.
Qed.

(** X21: [verifyAccessToken] lets no exception out: whatever the token, it
    returns (or the platform's parser does not), and a verdict of invalid
    carries neither [fileId] nor [userAddress]. *)
Theorem verifyAccessToken_never_throws (token : jsstring) (w : World) :
  (exists check w',
     verifyAccessToken token w = (Ok check, w') /\
     (valid check = false -> check = rejected)) \/
  (exists w', verifyAccessToken token w = (Diverges, w')).
Proof.
  unfold verifyAccessToken, try_catch, bind, lift, ret, console_error, record.
  destruct (atob token) as [text| |]; cbv beta iota zeta;
    [|left; eexists _, _; split; reflexivity | right; eexists; reflexivity].
  destruct (JSON_parse text) as [payload| |]; cbv beta iota zeta;
    [|left; eexists _, _; split; reflexivity | right; eexists; reflexivity].
  destruct (getProperty payload (js "exp")) as [exp| |] eqn:Eexp; cbv beta iota zeta;
    [|left; eexists _, _; split; reflexivity | right; eexists; reflexivity].
  pose proof (toNumber_returns exp) as Hnum.
  destruct (toNumber exp) as [expiry| |]; cbv beta iota zeta;
    [|left; eexists _, _; split; reflexivity | congruence].
  destruct (SFltb expiry (nowSeconds w)); cbv beta iota zeta;
    [left; eexists _, _; split; reflexivity|].
  assert (Hget : forall name, exists v, getProperty payload name = Ok v).
  { intros name. destruct payload; try (eexists; reflexivity). discriminate Eexp. }
  destruct (Hget (js "fileId")) as [f ->]. destruct (Hget (js "userAddress")) as [u ->].
  cbv beta iota zeta.
  left. eexists _, _. split; [reflexivity|].
  cbn [valid]. discriminate.
Qed.

(** X22: Tokens are not signed and need not expire: the base64 of any JSON
    object without an [exp] property is accepted at any time, with the
    [fileId] and [userAddress] its author chose. *)
Theorem token_without_exp_accepted (text : jsstring)
    (fields : list (jsstring * JSONValue)) (w : World) :
  Forall (fun c => c < 256) text ->
  JSON_parse text = Ok (JObject fields) ->
  lookup_field (js "exp") fields = None ->
  btoa text = Ok (base64_encode text) /\
  verifyAccessToken (base64_encode text) w =
    (Ok {| valid := true;
           fileId := lookup_field (js "fileId") fields;
           userAddress := lookup_field (js "userAddress") fields |}, w).
Proof.
  intros Htext Hparse Hexp. split.
  - unfold btoa.
    replace (forallb (fun c => c <=? 255) text) with true; [reflexivity|].
    symmetry. apply forallb_forall. intros c Hc.
    rewrite Forall_forall in Htext. specialize (Htext c Hc). apply N.leb_le. lia.
  - unfold verifyAccessToken. apply try_Ok.
    erewrite bind_Ok by (apply lift_Ok, atob_encode, Htext).
    erewrite bind_Ok by (apply lift_Ok, Hparse).
    erewrite bind_Ok by (apply lift_Ok; reflexivity).
    cbn [getProperty]. rewrite Hexp.
    erewrite bind_Ok by (apply lift_Ok; reflexivity).
    reflexivity.
Qed.

(** X23: A numeric [exp] is compared with the clock in whole seconds, and only
    a strictly smaller [exp] is refused: the token is still accepted during
    the second [exp] names. *)
Theorem token_expiry (token text : jsstring) (fields : list (jsstring * JSONValue))
    (exp : double) (w : World) :
  atob token = Ok text ->
  JSON_parse text = Ok (JObject fields) ->
  lookup_field (js "exp") fields = Some (JNumber exp) ->
  exists check,
    verifyAccessToken token w = (Ok check, w) /\
    valid check = negb (SFltb exp (nowSeconds w)).
Proof.
  intros Hatob Hparse Hexp.
  unfold verifyAccessToken, try_catch.
  erewrite bind_Ok by (apply lift_Ok, Hatob).
  erewrite bind_Ok by (apply lift_Ok, Hparse).
  erewrite bind_Ok by (apply lift_Ok; reflexivity).
  cbn [getProperty]. rewrite Hexp.
  erewrite bind_Ok by (apply lift_Ok; reflexivity).
  destruct (SFltb exp (nowSeconds w)); eexists; split; reflexivity.
Qed.

End WithPlatform.

(** The text [{"fileId":"7","userAddress":"0xabc"}]. *)
Lemma token_without_exp_accepted_witness :
  let text := js "{" ++ json_quote (js "fileId") ++ js ":" ++ json_quote (js "7")
              ++ js "," ++ json_quote (js "userAddress") ++ js ":"
              ++ json_quote (js "0xabc") ++ js "}" in
  let fields := [(js "fileId", JString (js "7"));
                 (js "userAddress", JString (js "0xabc"))] in
  Forall (fun c => c < 256) text /\
  JSON_parse (Platform := FakeJSON.platform) text = Ok (JObject fields) /\
  lookup_field (js "exp") fields = None /\
  btoa text = Ok (base64_encode text) /\
  verifyAccessToken (P := FakeJSON.platform) (base64_encode text) Fake.world0 =
    (Ok {| valid := true;
           fileId := lookup_field (js "fileId") fields;
           userAddress := lookup_field (js "userAddress") fields |}, Fake.world0).
Proof.
  intros text fields.
  assert (H1 : Forall (fun c => c < 256) text).
  { apply Forall_forall. intros c Hc. vm_compute in Hc.
    repeat (destruct Hc as [<-|Hc]; [reflexivity|]). contradiction. }
  assert (H2 : JSON_parse (Platform := FakeJSON.platform) text = Ok (JObject fields))
    by (vm_compute; reflexivity).
  assert (H3 : lookup_field (js "exp") fields = None) by reflexivity.
  split; [exact H1|]. split; [exact H2|]. split; [exact H3|].
  exact (token_without_exp_accepted (P := FakeJSON.platform) text fields Fake.world0
           H1 H2 H3).
Defined.

(** The text [{"exp":1700000000}] at the clock time 1700000000000 ms: the
    token names the current second and is accepted. *)
Lemma token_expiry_witness :
  let text := js "{" ++ json_quote (js "exp") ++ js ":1700000000}" in
  atob (base64_encode text) = Ok text /\
  JSON_parse (Platform := FakeJSON.platform) text
    = Ok (JObject [(js "exp", JNumber (double_of_Z 1700000000))]) /\
  lookup_field (js "exp") [(js "exp", JNumber (double_of_Z 1700000000))]
    = Some (JNumber (double_of_Z 1700000000)) /\
  exists check,
    verifyAccessToken (P := FakeJSON.platform) (base64_encode text) Fake.world0
      = (Ok check, Fake.world0) /\
    valid check = negb (SFltb (double_of_Z 1700000000) (nowSeconds Fake.world0)).
Proof.
  intros text.
  assert (H1 : atob (base64_encode text) = Ok text) by (vm_compute; reflexivity).
  assert (H2 : JSON_parse (Platform := FakeJSON.platform) text
               = Ok (JObject [(js "exp", JNumber (double_of_Z 1700000000))]))
    by (vm_compute; reflexivity).
  assert (H3 : lookup_field (js "exp") [(js "exp", JNumber (double_of_Z 1700000000))]
               = Some (JNumber (double_of_Z 1700000000))) by reflexivity.
  split; [exact H1|]. split; [exact H2|]. split; [exact H3|].
  exact (token_expiry (P := FakeJSON.platform) (base64_encode text) text
           [(js "exp", JNumber (double_of_Z 1700000000))]
           (double_of_Z 1700000000) Fake.world0 H1 H2 H3).
Defined.

End TokenFacts.

(* ================================================================= *)
(** ** Security settings *)

Module SecurityFacts.
Import AccessToken Security SecuritySamples EffectFacts EffectInversion MultiLayer.

Lemma read_app (a b : Obj) (name : jsstring) :
  read (a ++ b) name =
    match read b name with
    | Some v => Some v
    | None => read a name
    end.
Proof.
  unfold read. induction a as [|[k v] a IH]; cbn [app lookup_field].
  - destruct (lookup_field name b); reflexivity.
  - rewrite IH. destruct (lookup_field name b); reflexivity.
Qed.

Lemma read_app_present (a b : Obj) (name : jsstring) :
  read a name <> None -> read (a ++ b) name <> None.
Proof.
  intros H. rewrite read_app. destruct (read b name); [discriminate | exact H].
Qed.

Section WithPlatform.
Context {P : Platform}.

(** What [loadSecuritySettings] returns when it returns: the defaults, or
    the merge of the defaults with what was parsed. *)
Lemma loadSecuritySettings_Ok_inv (stored : Result (option jsstring))
    (settings : Obj) (w w' : World) :
  loadSecuritySettings stored w = (Ok settings, w') ->
  settings = DEFAULT_SECURITY_SETTINGS \/
  exists parsed accessControl integrityVerification secureKeyStorage,
    settings =
      DEFAULT_SECURITY_SETTINGS ++ ownProperties (Some parsed)
        ++ [ (js "accessControl",
              JObject (DEFAULT_accessControl ++ ownProperties accessControl));
             (js "integrityVerification",
              JObject (DEFAULT_integrityVerification
                         ++ ownProperties integrityVerification));
             (js "secureKeyStorage",
              JObject (DEFAULT_secureKeyStorage ++ ownProperties secureKeyStorage)) ].
Proof.
  unfold loadSecuritySettings, try_catch. intros H.
  destruct (bind (lift stored) _ w) as [[o|e|] w1] eqn:E.
  - injection H as <- <-.
    apply bind_Ok_inv in E as (item & w2 & Hitem & E).
    destruct item as [[|c text]|];
      try (unfold ret in E; injection E as <- _; now left).
    apply bind_Ok_inv in E as (parsed & w3 & _ & E).
    apply bind_Ok_inv in E as (ac & w4 & _ & E).
    apply bind_Ok_inv in E as (iv & w5 & _ & E).
    apply bind_Ok_inv in E as (sks & w6 & _ & E).
    unfold ret in E. injection E as <- _. right.
    exists parsed, ac, iv, sks. reflexivity.
  - unfold bind, console_error, record, ret in H. injection H as <- _. now left.
  - discriminate H.
Qed.

(** When the store cannot be read, or holds text that is not JSON, or
    holds the JSON [null], [loadSecuritySettings] logs the error and
    returns the default settings. *)
Lemma loadSecuritySettings_falls_back (stored : Result (option jsstring)) (w : World) :
  (exists e, stored = Throw e) \/
  (exists c text,
     stored = Ok (Some (c :: text)) /\
     ((exists e, JSON_parse (c :: text) = Throw e) \/ JSON_parse (c :: text) = Ok JNull)) ->
  loadSecuritySettings stored w
  = (Ok DEFAULT_SECURITY_SETTINGS, logged CallConsoleError w).
Proof.
  unfold loadSecuritySettings, try_catch, bind, lift.
  intros [[e ->] | (c & text & -> & [[e He] | He])]; cbv beta iota zeta;
    try reflexivity; rewrite He; reflexivity.
Qed.

(** Each of the three groups of the loaded settings is an object that has
    every property of the group's default. *)
Lemma loadSecuritySettings_groups (stored : Result (option jsstring))
    (settings : Obj) (w w' : World) :
  loadSecuritySettings stored w = (Ok settings, w') ->
  forall group defaults, In (group, defaults) groups ->
  exists fields,
    read settings group = Some (JObject fields) /\
    forall name, read defaults name <> None -> read fields name <> None.
Proof.
  intros H. apply loadSecuritySettings_Ok_inv in H.
  destruct H as [-> | (parsed & ac & iv & sks & ->)];
    intros group defaults Hin; unfold groups in Hin; cbn [In] in Hin;
    destruct Hin as [Hin|[Hin|[Hin|[]]]]; injection Hin as <- <-.
  1-3: eexists; split; [reflexivity | auto].
  all: eexists; split;
    [rewrite !read_app; reflexivity
    | intros name Hname; now apply read_app_present].
Qed.

(** X24: The merge with the defaults keeps its promise: whatever was stored,
    the settings [loadSecuritySettings] returns have every property of the
    defaults, and each of the three groups is an object with every property
    of its default. *)
Theorem loadSecuritySettings_complete (stored : Result (option jsstring))
    (settings : Obj) (w w' : World) :
  loadSecuritySettings stored w = (Ok settings, w') ->
  (forall name, read DEFAULT_SECURITY_SETTINGS name <> None ->
                read settings name <> None) /\
  (forall group defaults, In (group, defaults) groups ->
   exists fields,
     read settings group = Some (JObject fields) /\
     forall name, read defaults name <> None -> read fields name <> None).
Proof.
  intros H. split; [|now apply (loadSecuritySettings_groups stored settings w w')].
  apply loadSecuritySettings_Ok_inv in H.
  destruct H as [-> | (parsed & ac & iv & sks & ->)]; [auto|].
  intros name Hname. now apply read_app_present.
Qed.

(** X25: Applying the level "high" or "maximum" returns settings in which IP
    restriction is on and the list of allowed addresses is empty, whatever
    list the stored settings held: the preset carries the default, empty
    list and overrides the stored one. *)
Theorem applySecurityLevel_resets_allow_list (stored : Result (option jsstring))
    (level : SecurityLevel) (settings : Obj) (w w' : World) :
  level <> standard ->
  applySecurityLevel stored level w = (Ok settings, w') ->
  exists accessControl,
    read settings (js "accessControl") = Some (JObject accessControl) /\
    read accessControl (js "ipRestriction") = Some (JBool true) /\
    read accessControl (js "allowedIPs") = Some (JArray []).
Proof.
  intros Hlevel H. unfold applySecurityLevel in H.
  apply bind_Ok_inv in H as (base & w1 & _ & H).
  injection H as <- _.
  destruct level; [congruence| |];
    (eexists; split;
     [rewrite !read_app; reflexivity
     | split; rewrite read_app; reflexivity]).
Qed.

(** X26: Applying the level "standard" changes nothing: every property of the
    returned settings is the one [loadSecuritySettings] gave.  It does not
    restore the defaults, so what "high" or "maximum" switched on stays
    on. *)
Theorem applySecurityLevel_standard_keeps (stored : Result (option jsstring))
    (settings : Obj) (w w' : World) :
  applySecurityLevel stored standard w = (Ok settings, w') ->
  exists baseSettings,
    loadSecuritySettings stored w = (Ok baseSettings, w') /\
    forall name, read settings name = read baseSettings name.
Proof.
  intros H. unfold applySecurityLevel in H.
  apply bind_Ok_inv in H as (base & w1 & Hbase & H).
  injection H as <- <-.
  exists base. split; [exact Hbase|].
  pose proof (loadSecuritySettings_groups _ _ _ _ Hbase) as Hgroups.
  destruct (Hgroups _ _ (or_introl eq_refl)) as (ac & Hac & _).
  destruct (Hgroups _ _ (or_intror (or_introl eq_refl))) as (iv & Hiv & _).
  destruct (Hgroups _ _ (or_intror (or_intror (or_introl eq_refl)))) as (sks & Hsks & _).
  intros name. cbn [SECURITY_LEVEL_SETTINGS app].
  rewrite read_app. rewrite Hac, Hiv, Hsks.
  cbn [ownProperties or_empty truthy read lookup_field app].
  rewrite !app_nil_r.
  unfold read. cbn [lookup_field].
  destruct (jsstring_eqb (js "secureKeyStorage") name) eqn:E3.
  { apply jsstring_eqb_eq in E3. subst name. now rewrite <- Hsks. }
  destruct (jsstring_eqb (js "integrityVerification") name) eqn:E2.
  { apply jsstring_eqb_eq in E2. subst name. now rewrite <- Hiv. }
  destruct (jsstring_eqb (js "accessControl") name) eqn:E1.
  { apply jsstring_eqb_eq in E1. subst name. now rewrite <- Hac. }
  reflexivity.
Qed.

(** X27: [checkIpRestriction] refuses in one case only: the list is not empty,
    the address lookup succeeded, and the address is not in the list.  An
    empty list or a failed lookup lets everyone through. *)
Theorem checkIpRestriction_refusal (allowedIps : list JSONValue)
    (lookup : Result (option JSONValue)) (w w' : World) :
  checkIpRestriction allowedIps lookup w = (Ok false, w') ->
  allowedIps <> [] /\
  exists userIp,
    lookup = Ok userIp /\
    existsb (fun allowed => sameValueZero allowed userIp) allowedIps = false.
Proof.
  unfold checkIpRestriction, try_catch, bind, lift, ret, console_error, record.
  destruct lookup as [userIp| |]; cbv beta iota zeta; intros H; try discriminate H.
  injection H as H _. apply orb_false_iff in H as [Hin Hlen].
  split; [intros ->; discriminate Hlen|].
  exists userIp. auto.
Qed.

End WithPlatform.

Lemma loadSecuritySettings_falls_back_witness :
  ((exists e, Ok (Some (js "{oops")) = Throw e) \/
   (exists c text,
      Ok (Some (js "{oops")) = Ok (Some (c :: text)) /\
      ((exists e, JSON_parse (Platform := FakeJSON.platform) (c :: text) = Throw e) \/
       JSON_parse (Platform := FakeJSON.platform) (c :: text) = Ok JNull))) /\
  loadSecuritySettings (P := FakeJSON.platform) (Ok (Some (js "{oops"))) Fake.world0
  = (Ok DEFAULT_SECURITY_SETTINGS, logged CallConsoleError Fake.world0).
Proof.
  assert (H : (exists e, Ok (Some (js "{oops")) = Throw e) \/
              (exists c text,
                 Ok (Some (js "{oops")) = Ok (Some (c :: text)) /\
                 ((exists e, JSON_parse (Platform := FakeJSON.platform) (c :: text)
                             = Throw e) \/
                  JSON_parse (Platform := FakeJSON.platform) (c :: text) = Ok JNull))).
  { right. eexists _, _. split; [reflexivity|]. left. eexists. vm_compute. reflexivity. }
  split; [exact H|].
  exact (loadSecuritySettings_falls_back (P := FakeJSON.platform) _ Fake.world0 H).
Defined.

Lemma loadSecuritySettings_complete_witness :
  exists settings w',
    loadSecuritySettings (P := FakeJSON.platform) (Ok (Some stored_allow_list))
      Fake.world0 = (Ok settings, w') /\
    (forall name, read DEFAULT_SECURITY_SETTINGS name <> None ->
                  read settings name <> None) /\
    (forall group defaults, In (group, defaults) groups ->
     exists fields,
       read settings group = Some (JObject fields) /\
       forall name, read defaults name <> None -> read fields name <> None).
Proof.
  eexists _, _. split; [vm_compute; reflexivity|].
  apply (loadSecuritySettings_complete (P := FakeJSON.platform)
           (Ok (Some stored_allow_list)) _ Fake.world0 Fake.world0).
  vm_compute. reflexivity.
Defined.

Lemma applySecurityLevel_resets_allow_list_witness :
  high <> standard /\
  exists base settings w',
    loadSecuritySettings (P := FakeJSON.platform) (Ok (Some stored_allow_list))
      Fake.world0 = (Ok base, w') /\
    (exists accessControl,
       read base (js "accessControl") = Some (JObject accessControl) /\
       read accessControl (js "allowedIPs") = Some (JArray [JString (js "10.0.0.1")])) /\
    applySecurityLevel (P := FakeJSON.platform) (Ok (Some stored_allow_list)) high
      Fake.world0 = (Ok settings, w') /\
    exists accessControl,
      read settings (js "accessControl") = Some (JObject accessControl) /\
      read accessControl (js "ipRestriction") = Some (JBool true) /\
      read accessControl (js "allowedIPs") = Some (JArray []).
Proof.
  assert (H : high <> standard) by discriminate.
  split; [exact H|].
  eexists _, _, _. split; [vm_compute; reflexivity|].
  split; [eexists; split; vm_compute; reflexivity|].
  split; [vm_compute; reflexivity|].
  apply (applySecurityLevel_resets_allow_list (P := FakeJSON.platform)
           (Ok (Some stored_allow_list)) high _ Fake.world0 Fake.world0 H).
  vm_compute. reflexivity.
Defined.

Lemma applySecurityLevel_standard_keeps_witness :
  exists settings w',
    applySecurityLevel (P := FakeJSON.platform) (Ok (Some stored_allow_list)) standard
      Fake.world0 = (Ok settings, w') /\
    exists baseSettings,
      loadSecuritySettings (P := FakeJSON.platform) (Ok (Some stored_allow_list))
        Fake.world0 = (Ok baseSettings, w') /\
      forall name, read settings name = read baseSettings name.
Proof.
  eexists _, _. split; [vm_compute; reflexivity|].
  apply (applySecurityLevel_standard_keeps (P := FakeJSON.platform)
           (Ok (Some stored_allow_list)) _ Fake.world0 Fake.world0).
  vm_compute. reflexivity.
Defined.

Lemma checkIpRestriction_refusal_witness :
  exists w',
    checkIpRestriction [JString (js "10.0.0.1")] (Ok (Some (JString (js "10.0.0.2"))))
      Fake.world0 = (Ok false, w') /\
    [JString (js "10.0.0.1")] <> [] /\
    exists userIp,
      Ok (Some (JString (js "10.0.0.2"))) = Ok userIp /\
      existsb (fun allowed => sameValueZero allowed userIp) [JString (js "10.0.0.1")]
        = false.
Proof.
  eexists. split; [vm_compute; reflexivity|].
  apply (checkIpRestriction_refusal [JString (js "10.0.0.1")]
           (Ok (Some (JString (js "10.0.0.2")))) Fake.world0 Fake.world0).
  vm_compute. reflexivity.
Defined.

End SecurityFacts.

(* ================================================================= *)
(** ** Key files *)

Module KeyFileFacts.
Import KeyFile KeyFacts.

Lemma match_literal_chars :
  forall pattern s rest,
    match_literal pattern s = Some rest ->
    forall i p, nth_error pattern i = Some p ->
    exists c, nth_error s i = Some c /\ same_letter p c = true.
Proof.
  induction pattern as [|q pattern IH]; intros s rest H i p Hp.
  - destruct i; discriminate Hp.
  - destruct s as [|c s]; [discriminate H|]. cbn [match_literal] in H.
    destruct (same_letter q c) eqn:E; [|discriminate H].
    destruct i as [|i].
    + injection Hp as <-. exists c. auto.
    + cbn [nth_error] in *. eapply IH; eauto.
Qed.

Lemma match_literal_prefix (pattern s : jsstring) :
  forallb (fun p => same_letter p p) pattern = true ->
  match_literal pattern (pattern ++ s) = Some s.
Proof.
  induction pattern as [|p pattern IH]; intros H; [reflexivity|].
  cbn [forallb] in H. apply andb_true_iff in H as [Hp H].
  cbn [app match_literal]. rewrite Hp. auto.
Qed.

Lemma no_y_colon_cons (x z : N) (b : jsstring) :
  no_y_colon (x :: z :: b)
  = negb (((x =? 89) || (x =? 121)) && (z =? 58)) && no_y_colon (z :: b).
Proof. reflexivity. Qed.

Lemma no_y_colon_pairs :
  forall s k a b,
    no_y_colon s = true ->
    nth_error s k = Some a -> nth_error s (S k) = Some b ->
    (a = 89 \/ a = 121) -> b <> 58.
Proof.
  induction s as [|x s IH]; intros k a b H Ha Hb Hy.
  - destruct k; discriminate Ha.
  - destruct s as [|y s]; [destruct k; discriminate Hb|].
    rewrite no_y_colon_cons in H. apply andb_true_iff in H as [Hxy H].
    destruct k as [|k].
    + injection Ha as <-. injection Hb as <-.
      intros ->. apply negb_true_iff in Hxy. apply andb_false_iff in Hxy.
      destruct Hxy as [Hxy|Hxy]; [|discriminate Hxy].
      apply orb_false_iff in Hxy as [H1 H2].
      apply N.eqb_neq in H1, H2. destruct Hy; congruence.
    + eapply IH; eauto.
Qed.

Lemma no_y_colon_app :
  forall a b,
    no_y_colon a = true -> no_y_colon b = true -> hd 0 b <> 58 ->
    no_y_colon (a ++ b) = true.
Proof.
  induction a as [|x a IH]; intros b Ha Hb Hhd; [exact Hb|].
  destruct a as [|y a].
  - cbn [app]. destruct b as [|z b]; [reflexivity|].
    rewrite no_y_colon_cons, Hb. cbn [hd] in Hhd.
    apply N.eqb_neq in Hhd. rewrite Hhd, andb_false_r. reflexivity.
  - rewrite no_y_colon_cons in Ha. apply andb_true_iff in Ha as [Hxy Ha].
    change ((x :: y :: a) ++ b) with (x :: y :: a ++ b).
    rewrite no_y_colon_cons, Hxy.
    change (y :: a ++ b) with ((y :: a) ++ b). now rewrite IH.
Qed.

Lemma find_key_skip (n : nat) (rest : jsstring) :
  forall head,
    (forall i, (i < length head)%nat ->
               match_literal (js "ENCRYPTION KEY:") (skipn i (head ++ rest)) = None) ->
    find_key n (head ++ rest) = find_key n rest.
Proof.
  induction head as [|c head IH]; intros H; [reflexivity|].
  change ((c :: head) ++ rest) with (c :: head ++ rest).
  cbn [find_key]. unfold match_key_at.
  pose proof (H 0%nat ltac:(cbn; lia)) as H0. cbn [skipn app] in H0. rewrite H0.
  apply IH. intros i Hi.
  apply (H (S i)). cbn. lia.
Qed.

Lemma nth_error_skipn {A} (l : list A) :
  forall i j, nth_error (skipn i l) j = nth_error l (i + j).
Proof.
  induction l as [|x l IH]; intros i j.
  - rewrite skipn_nil. destruct j, i; reflexivity.
  - destruct i; [reflexivity|]. cbn [skipn Nat.add nth_error]. apply IH.
Qed.

(** Nothing before the marker is taken for it. *)
Lemma no_match_in_head (head rest : jsstring) :
  no_y_colon head = true ->
  forall i, (i < length head)%nat ->
    match_literal (js "ENCRYPTION KEY:")
      (skipn i (head ++ js "ENCRYPTION KEY:" ++ rest)) = None.
Proof.
  intros Hclean i Hi.
  destruct (match_literal _ _) as [r|] eqn:E; [exfalso|reflexivity].
  destruct (match_literal_chars _ _ _ E 13%nat 89 eq_refl) as (a & Ha & Hya).
  destruct (match_literal_chars _ _ _ E 14%nat 58 eq_refl) as (b & Hb & Hcb).
  rewrite nth_error_skipn in Ha, Hb.
  assert (Hb58 : b = 58).
  { unfold same_letter in Hcb. cbn in Hcb. rewrite orb_false_r in Hcb.
    now apply N.eqb_eq in Hcb. }
  assert (Hy : a = 89 \/ a = 121).
  { unfold same_letter in Hya. apply orb_true_iff in Hya as [H|H].
    - left. now apply N.eqb_eq in H.
    - right. cbn in H. now apply N.eqb_eq in H. }
  change (js "ENCRYPTION KEY:" ++ rest)
    with (js "ENCRYPTION KEY" ++ (58 :: rest)) in Ha, Hb.
  rewrite app_assoc in Ha, Hb.
  assert (Hlen : length (head ++ js "ENCRYPTION KEY") = (length head + 14)%nat)
    by (rewrite length_app; reflexivity).
  rewrite nth_error_app1 in Ha by lia.
  rewrite nth_error_app1 in Hb by lia.
  replace (i + 14)%nat with (S (i + 13)) in Hb by lia.
  refine (no_y_colon_pairs _ _ _ _ _ Ha Hb Hy Hb58).
  apply no_y_colon_app; [exact Hclean | reflexivity | cbn; lia].
Qed.

Lemma hex_digit_not_space (c : N) : is_hex_digit c = true -> is_white_space c = false.
Proof.
  intros H. apply hex_digit_cases in H. simpl in H.
  repeat destruct H as [<-|H]; try contradiction; reflexivity.
Qed.

Lemma skip_white_space_hex (s : jsstring) :
  (exists c rest, s = c :: rest /\ is_hex_digit c = true) -> skip_white_space s = s.
Proof.
  intros (c & rest & -> & H). cbn [skip_white_space].
  now rewrite (hex_digit_not_space c H).
Qed.

Lemma trim_hex (key : jsstring) :
  key <> [] -> forallb is_hex_digit key = true -> trim key = key.
Proof.
  intros Hne Hhex. unfold trim.
  rewrite (skip_white_space_hex key).
  - rewrite skip_white_space_hex; [apply rev_involutive|].
    destruct (rev key) as [|c r] eqn:E.
    + apply (f_equal (@rev _)) in E. rewrite rev_involutive in E. contradiction.
    + exists c, r. split; [reflexivity|].
      rewrite forallb_forall in Hhex. apply Hhex.
      apply in_rev. rewrite E. now left.
  - destruct key as [|c r]; [contradiction|].
    exists c, r. split; [reflexivity|].
    cbn [forallb] in Hhex. now apply andb_true_iff in Hhex as [H _].
Qed.

(** The marker itself, followed by a line break and the key. *)
Lemma match_key_at_marker (key rest : jsstring) :
  test_hex 32 key = true ->
  match_key_at 32 (js "ENCRYPTION KEY:" ++ [10] ++ key ++ rest) = Some key.
Proof.
  intros H. unfold match_key_at.
  rewrite match_literal_prefix by reflexivity.
  pose proof H as Hspec. apply test_hex_spec in Hspec as [Hlen Hhex].
  change ([10] ++ key ++ rest) with (10 :: key ++ rest).
  cbn [skip_white_space]. change (is_white_space 10) with true. cbv iota.
  destruct key as [|c key']; [discriminate Hlen|].
  rewrite skip_white_space_hex.
  2:{ exists c, (key' ++ rest). split; [reflexivity|].
      cbn [forallb] in Hhex. now apply andb_true_iff in Hhex as [Hc _]. }
  rewrite firstn_app, Hlen, Nat.sub_diag, firstn_O, app_nil_r.
  assert (Hf : firstn 32 (c :: key') = c :: key')
    by (rewrite <- Hlen; apply firstn_all).
  now rewrite Hf, H.
Qed.

Section WithPlatform.
Context {P : Platform}.

(** X28: The key file the uploader writes is read back by the decryptor: for
    a key that passes the uploader's format check, [handleKeyFileChange]
    sets exactly that key and clears the error, provided the file name and
    the date printed above the marker put no "y:" there. *)
Theorem keyFile_roundtrip (fileName date key : jsstring) (st : Decryptor.State) :
  test_hex 32 key = true ->
  no_y_colon (keyFileHead fileName date) = true ->
  exists st',
    handleKeyFileChange (Some (Ok (keyFileContent fileName date key))) st = Ok st' /\
    Decryptor.encryptionKey st' = key /\
    Decryptor.error st' = None.
Proof.
  intros Hkey Hclean.
  assert (Hfind : find_key 32 (keyFileContent fileName date key) = Some key).
  { unfold keyFileContent.
    match goal with |- find_key _ ?content = _ =>
      match content with
      | context [js "ENCRYPTION KEY:" ++ [10] ++ key ++ ?tail] =>
          replace content
            with (keyFileHead fileName date
                    ++ js "ENCRYPTION KEY:" ++ [10] ++ key ++ tail)
            by (unfold keyFileHead; now rewrite <- !app_assoc)
      end
    end.
    rewrite find_key_skip
      by (intros i Hi; now apply no_match_in_head).
    match goal with |- find_key _ ?content = _ =>
      destruct content eqn:E; unfold find_key;
        [discriminate E | fold find_key; rewrite <- E]
    end.
    now rewrite match_key_at_marker. }
  unfold handleKeyFileChange. rewrite Hfind.
  pose proof Hkey as Hspec. apply test_hex_spec in Hspec as [Hlen Hhex].
  destruct key as [|c key']; [discriminate Hlen|].
  eexists. split; [reflexivity|].
  cbn [Decryptor.encryptionKey Decryptor.error]. split; [|reflexivity].
  apply trim_hex; [discriminate | exact Hhex].
Qed.

End WithPlatform.

Lemma keyFile_roundtrip_witness :
  test_hex 32 (js "00112233445566778899aabbccddeeff") = true /\
  no_y_colon (keyFileHead (js "Annual report: draft.txt") (js "11/3/2026, 10:15:30 AM"))
    = true /\
  exists st',
    handleKeyFileChange (P := Fake.platform)
      (Some (Ok (keyFileContent (js "Annual report: draft.txt")
                   (js "11/3/2026, 10:15:30 AM")
                   (js "00112233445566778899aabbccddeeff"))))
      {| Decryptor.file := None; Decryptor.encryptionKey := js "";
         Decryptor.outputFilename := js ""; Decryptor.isDecrypting := false;
         Decryptor.error := Some (js "stale"); Decryptor.success := None;
         Decryptor.downloads := [] |} = Ok st' /\
    Decryptor.encryptionKey st' = js "00112233445566778899aabbccddeeff" /\
    Decryptor.error st' = None.
Proof.
  assert (H1 : test_hex 32 (js "00112233445566778899aabbccddeeff") = true)
    by reflexivity.
  assert (H2 : no_y_colon (keyFileHead (js "Annual report: draft.txt")
                             (js "11/3/2026, 10:15:30 AM")) = true)
    by (vm_compute; reflexivity).
  split; [exact H1|]. split; [exact H2|].
  exact (keyFile_roundtrip (P := Fake.platform) _ _ _ _ H1 H2).
Defined.

End KeyFileFacts.

(* ================================================================= *)
(** ** The uploader component *)

Module UploaderFacts.
Import Encryption Uploader KeyFacts EffectFacts Samples.

Section WithPlatform.
Context {P : Platform}.
Variable toLocaleString : Z -> jsstring.

(** X29: The uploader has a limit of its own, 5 MB, checked before anything
    else: a larger file is refused with the state set to the error, while
    nothing is drawn, logged, downloaded or encrypted. *)
Theorem handleUpload_refuses_large (st : State) (f : File) (w : World) :
  file st = Some f ->
  5 * 1024 * 1024 < size f ->
  exists st',
    handleUpload toLocaleString st w = (Ok (st', None), w) /\
    status st' = error /\
    errorMessage st' = js "File is too large. Maximum size is 5MB." /\
    encryptionKey st' = encryptionKey st /\
    downloads st' = downloads st.
Proof.
  intros Hfile Hsize. unfold handleUpload. rewrite Hfile.
  change MAX_FILE_SIZE with (5 * 1024 * 1024).
  apply N.ltb_lt in Hsize. rewrite Hsize.
  eexists. split; [reflexivity|]. repeat split.
Qed.

(** X30: A key that fails the format check is replaced too late.  The
    component's state gets a freshly generated key, but the call at hand
    goes on with the key it was given: the key file it offers holds the
    rejected key, and the file it passes on for upload is the one
    [encryptFile] produced under the rejected key. *)
Theorem handleUpload_uses_rejected_key (st : State) (f : File) (w w' : World)
    (encrypted : File) (metadata : EncryptionMetadata) :
  file st = Some f ->
  size f <= 5 * 1024 * 1024 ->
  useEncryption st = true ->
  encryptionKey st <> [] ->
  test_hex 32 (encryptionKey st) = false ->
  encryptFile f (encryptionKey st) (snd (generateEncryptionKey w))
    = (Ok (encrypted, metadata), w') ->
  exists st',
    handleUpload toLocaleString st w
      = (Ok (st', Some (encrypted, Some metadata)), w') /\
    encryptionKey st' = toHex (map entropy (seq (cursor w) 16)) /\
    test_hex 32 (encryptionKey st') = true /\
    downloads st' =
      downloads st
        ++ [(stripExtension (name f) ++ js "_encryption_key.txt",
             KeyFile.keyFileContent (name f) (toLocaleString (now w))
               (encryptionKey st))].
Proof.
  intros Hfile Hsize Huse Hkey Hbad Henc.
  unfold handleUpload. rewrite Hfile.
  change MAX_FILE_SIZE with (5 * 1024 * 1024).
  destruct (N.ltb_spec (5 * 1024 * 1024) (size f)) as [Hgt|_]; [lia|].
  cbn [useEncryption begun]. rewrite Huse.
  destruct (encryptionKey st) as [|c key] eqn:Ekey; [congruence|].
  rewrite Hbad. cbn [negb].
  unfold bind at 1. unfold bind at 1.
  destruct (generateEncryptionKey w) as [r w1] eqn:Egen.
  unfold generateEncryptionKey, bind, getRandomValues, ret in Egen.
  injection Egen as <- <-.
  cbv beta iota. unfold ret at 1. cbv beta iota.
  unfold bind at 1. cbv beta iota.
  cbn [snd] in Henc.
  unfold try_catch at 1. unfold bind at 1. unfold try_catch at 1.
  cbn [now logged].
  rewrite Henc. cbv beta iota. unfold ret.
  eexists. split; [reflexivity|].
  cbn [encryptionKey encryptedState keyFileOffered rekeyed downloads begun].
  split; [reflexivity|]. split; [|reflexivity].
  apply LayerFacts.toHex_key128. reflexivity.
Qed.

End WithPlatform.

Lemma handleUpload_refuses_large_witness :
  5 * 1024 * 1024 < size oversized /\
  exists st',
    handleUpload (P := Fake.platform) decimalZ
      {| file := Some oversized; isUploading := false; progress := 0; status := idle;
         errorMessage := js ""; encryptionKey := js "00112233445566778899aabbccddeeff";
         encryptionMetadata := None; useEncryption := true; downloads := [] |}
      Fake.world0
    = (Ok (st', None), Fake.world0) /\
    status st' = error /\
    errorMessage st' = js "File is too large. Maximum size is 5MB." /\
    encryptionKey st' = js "00112233445566778899aabbccddeeff" /\
    downloads st' = [].
Proof.
  assert (H : 5 * 1024 * 1024 < size oversized).
  { rewrite EncryptionFacts.oversized_size. reflexivity. }
  split; [exact H|].
  exact (handleUpload_refuses_large (P := Fake.platform) decimalZ
           {| file := Some oversized; isUploading := false; progress := 0;
              status := idle; errorMessage := js "";
              encryptionKey := js "00112233445566778899aabbccddeeff";
              encryptionMetadata := None; useEncryption := true; downloads := [] |}
           oversized Fake.world0 eq_refl H).
Defined.

Lemma handleUpload_uses_rejected_key_witness :
  exists encrypted metadata w' st',
    encryptFile (P := Fake.platform) ten_bytes (js "youknowthiskingwillgrowstormynow")
      (snd (generateEncryptionKey (P := Fake.platform) Fake.world0))
      = (Ok (encrypted, metadata), w') /\
    handleUpload (P := Fake.platform) decimalZ
      {| file := Some ten_bytes; isUploading := false; progress := 0; status := idle;
         errorMessage := js ""; encryptionKey := js "youknowthiskingwillgrowstormynow";
         encryptionMetadata := None; useEncryption := true; downloads := [] |}
      Fake.world0
      = (Ok (st', Some (encrypted, Some metadata)), w') /\
    encryptionKey st'
      = toHex (map (entropy (Platform := Fake.platform)) (seq (cursor Fake.world0) 16)) /\
    test_hex 32 (encryptionKey st') = true /\
    downloads st' =
      [] ++ [(stripExtension (name ten_bytes) ++ js "_encryption_key.txt",
              KeyFile.keyFileContent (name ten_bytes) (decimalZ (now Fake.world0))
                (js "youknowthiskingwillgrowstormynow"))].
Proof.
  assert (Hsize : size ten_bytes <= 5 * 1024 * 1024) by (vm_compute; discriminate).
  destruct (encryptFile (P := Fake.platform) ten_bytes
              (js "youknowthiskingwillgrowstormynow")
              (snd (generateEncryptionKey (P := Fake.platform) Fake.world0)))
    as [[[e m]| |] w'] eqn:E; try (vm_compute in E; discriminate E).
  destruct (handleUpload_uses_rejected_key (P := Fake.platform) decimalZ
              {| file := Some ten_bytes; isUploading := false; progress := 0;
                 status := idle; errorMessage := js "";
                 encryptionKey := js "youknowthiskingwillgrowstormynow";
                 encryptionMetadata := None; useEncryption := true; downloads := [] |}
              ten_bytes Fake.world0 w' e m eq_refl Hsize eq_refl
              ltac:(discriminate) eq_refl E) as (st' & H).
  exists e, m, w', st'. split; [reflexivity | exact H].
Defined.

End UploaderFacts.
